(** * Barnet restocking report: a shallow embedding of [auto_barnet_restock.py]

    The development follows the layers of the script:
    - [PyStr]      the Python string primitives the script calls
                   ([str.strip], [str.lower], [str.replace], [str.startswith],
                   the regular expression of the section-header test);
    - [Resolver]   the Playwright helpers [_first_visible] and [click_apply],
                   and the Apply step of [set_report_filters];
    - [Transform]  [clean_and_reduce]: header detection, aliasing, row
                   filtering, Sold QTY coercion, grouping and rendering;
    - [Decision]   the notification branch at the end of [main];
    - [Samples]    pages and tables the properties are tried on;
    - [Wording]    the specification's words on texts and numbers, to
                   compare the script with.
    The properties follow the definitions, one module per layer.

    Text is modelled as [string] whose characters are the code points
    below 256; a worksheet cell is empty (NaN), text, or a whole number
    (a numeric cell with a fraction is outside the model).

    Numbers.  Every build of pandas and NumPy reads, holds and cuts in
    the same way a whole number below 2^31 in magnitude and a decimal
    literal of at most 15 digits that is cut to such a number: these are
    the settled numbers.  What a build makes of another finite number (a
    float of 64 bits loses digits beyond 2^53, NumPy's default integer has
    32 or 64 bits, a cast outside its range is left to the processor) is a
    parameter of the development, [beyond], and every statement holds for
    every build.  The sum of the Sold QTY column is a sum of 64 bits.

    The ".0" that a whole number shows when its column is held as
    floating point is modelled where it reaches the sheet (the category);
    it is left out of header detection and of the row filter, where no
    rendering of a number reads as a label, as blank, as a total or as a
    section header.  Fonts, borders and column widths of the written
    workbook are left out as well. *)

From Stdlib Require Import Bool Arith ZArith List Lia Permutation.
From Stdlib Require Import Strings.Ascii Strings.String Numbers.DecimalString.
From Stdlib Require Numbers.DecimalPos.
Import ListNotations.

Open Scope string_scope.
Open Scope list_scope.

(** The result of a call that may raise an [Exception]. *)
Inductive Res (A : Type) : Type :=
| Ok (a : A)
| Raise.
Arguments Ok {A} a.
Arguments Raise {A}.

(* ================================================================== *)
(** ** Python string primitives *)
(* ================================================================== *)

Module PyStr.

(** [str.isspace] on one character, for code points below 256:
    TAB..CR, FS..US, SPACE, NEL (0x85) and NBSP (0xA0). *)
Definition is_space (c : ascii) : bool :=
  let n := nat_of_ascii c in
  ((9 <=? n)%nat && (n <=? 13)%nat) || ((28 <=? n)%nat && (n <=? 32)%nat)
  || (n =? 133)%nat || (n =? 160)%nat.

(** [str.lower] on one character, for code points below 256:
    A..Z, and the Latin-1 capitals 0xC0..0xDE except the sign 0xD7. *)
Definition lower_char (c : ascii) : ascii :=
  let n := nat_of_ascii c in
  if ((65 <=? n)%nat && (n <=? 90)%nat)
     || ((192 <=? n)%nat && (n <=? 222)%nat && negb (n =? 215)%nat)
  then ascii_of_nat (n + 32) else c.

Fixpoint lower (s : string) : string :=
  match s with
  | EmptyString => EmptyString
  | String c s' => String (lower_char c) (lower s')
  end.

Fixpoint lstrip (s : string) : string :=
  match s with
  | EmptyString => EmptyString
  | String c s' => if is_space c then lstrip s' else s
  end.

Fixpoint rstrip (s : string) : string :=
  match s with
  | EmptyString => EmptyString
  | String c s' =>
      match rstrip s' with
      | EmptyString => if is_space c then EmptyString else String c EmptyString
      | r => String c r
      end
  end.

(** [s.strip()] *)
Definition strip (s : string) : string := rstrip (lstrip s).

(** A text that begins with a character that is not a space. *)
Definition starts_solid (s : string) : Prop :=
  match s with
  | EmptyString => True
  | String c _ => is_space c = false
  end.

(** [s.replace(c, "")] for a one-character pattern [c]. *)
Fixpoint remove_char (c : ascii) (s : string) : string :=
  match s with
  | EmptyString => EmptyString
  | String d s' =>
      if Ascii.eqb c d then remove_char c s' else String d (remove_char c s')
  end.

(** [s.startswith(p)] *)
Definition startswith (p s : string) : bool := String.prefix p s.

(** [p in s] *)
Fixpoint contains (p s : string) : bool :=
  String.prefix p s ||
  match s with
  | EmptyString => false
  | String _ s' => contains p s'
  end.

Fixpoint has_char (c : ascii) (s : string) : bool :=
  match s with
  | EmptyString => false
  | String d s' => Ascii.eqb c d || has_char c s'
  end.

(** [str(n)] for an integer [n]. *)
Definition str_of_Z (n : Z) : string := NilZero.string_of_int (Z.to_int n).

Definition is_upper_AZ (c : ascii) : bool :=
  let n := nat_of_ascii c in (65 <=? n)%nat && (n <=? 90)%nat.

Definition newline : ascii := ascii_of_nat 10.

(** [re.search(r"^[A-Z].* - .*$", s)] succeeds.  Without flags [^] anchors
    at the start of the text, [.] is any character but the newline, and [$]
    holds at the end of the text or just before a final newline.  Reading
    the text from its second character on: a newline-free stretch that
    contains [" - "], followed by nothing or by one final newline. *)
Fixpoint rest_is_dots (s : string) : bool :=
  match s with
  | EmptyString => true
  | String c s' =>
      if Ascii.eqb c newline
      then match s' with EmptyString => true | _ => false end
      else rest_is_dots s'
  end.

Fixpoint dots_sep_dots (s : string) : bool :=
  match s with
  | EmptyString => false
  | String c s' =>
      (String.prefix " - " s && rest_is_dots s)
      || (negb (Ascii.eqb c newline) && dots_sep_dots s')
  end.

Definition section_header_re (s : string) : bool :=
  match s with
  | EmptyString => false
  | String c s' => is_upper_AZ c && dots_sep_dots s'
  end.

End PyStr.

(* ================================================================== *)
(** ** Playwright helpers: the element resolver and the Apply step *)
(* ================================================================== *)

Module Resolver.

(** The locators the script builds: [page.get_by_role(role, name=re)] and
    [page.locator(selector)].  Building one never touches the page. *)
Inductive Locator : Type :=
| GetByRole (role name_re : string)
| Loc (selector : string).

(** [loc.first], the handle [_first_visible] returns. *)
Inductive Handle : Type :=
| First (l : Locator).

(** The messages [click_apply] and [set_report_filters] log. *)
Inductive LogMsg : Type :=
| ClickingApply        (* "Clicking Apply..." *)
| Applied              (* "Applied." *)
| NoApplyButton        (* "Couldn't find an Apply button." *)
| AppliedViaEnter      (* "Applied via Enter key." *)
| FiltersApplied.      (* "Filters applied." *)

(** What the script does to the outside world, in order. *)
Inductive Event : Type :=
| EvLog (m : LogMsg)
| EvScroll (l : Locator)
| EvClick (l : Locator)
| EvWaitIdle
| EvSleep (ms : nat)
| EvPressEnter.

Section Browser.

(** The browser: a page state, queries that may raise, and actions that
    change the page and either complete or raise. *)
Variable Page : Type.
Variable count : Locator -> Page -> Res nat.
Variable is_visible : Locator -> Page -> Res bool.
Variable scroll_into_view_if_needed : Locator -> Page -> Page * bool.
Variable click : Locator -> Page -> Page * bool.
Variable wait_for_load_state : Page -> Page * bool.
Variable keyboard_press_enter : Page -> Page * bool.
Variable sleep : nat -> Page -> Page.

(** *** [_first_visible] *)

(** The guarded expression
    [loc and loc.count() and loc.first.is_visible()], which may raise. *)
Definition visible_test (loc : option Locator) (p : Page) : Res bool :=
  match loc with
  | None => Ok false
  | Some l =>
      match count l p with
      | Raise => Raise
      | Ok 0 => Ok false
      | Ok (S _) => is_visible l p
      end
  end.

Fixpoint _first_visible (locators : list (option Locator)) (p : Page)
  : Res (option Handle) :=
  match locators with
  | [] => Ok None
  | loc :: rest =>
      match visible_test loc p, loc with
      | Ok true, Some l => Ok (Some (First l))
      | Ok true, None => _first_visible rest p
      | Ok false, _ => _first_visible rest p
      | Raise, _ => _first_visible rest p       (* except Exception: continue *)
      end
  end.

(** A candidate succeeds: it has at least one match and its first match
    is visible. *)
Definition matches_visible (l : Locator) (p : Page) : Prop :=
  (exists n, count l p = Ok (S n)) /\ is_visible l p = Ok true.

Definition candidate_succeeds (c : option Locator) (p : Page) : Prop :=
  match c with
  | None => False
  | Some l => matches_visible l p
  end.

(** *** [click_apply] and the Apply step of [set_report_filters] *)

(** The script's state: the page and what has been done so far. *)
Definition World : Type := (Page * list Event)%type.
Definition M (A : Type) : Type := World -> World * Res A.

Definition ret {A} (a : A) : M A := fun w => (w, Ok a).

Definition bind {A B} (m : M A) (k : A -> M B) : M B :=
  fun w => match m w with
           | (w', Ok a) => k a w'
           | (w', Raise) => (w', Raise)
           end.

(** [try: m  except Exception: h] *)
Definition try_except {A} (m : M A) (h : M A) : M A :=
  fun w => match m w with
           | (w', Ok a) => (w', Ok a)
           | (w', Raise) => h w'
           end.

Definition query {A} (q : Page -> Res A) : M A :=
  fun w => (w, q (fst w)).

Definition act (e : Event) (f : Page -> Page * bool) : M unit :=
  fun w => let (p', ok) := f (fst w) in
           ((p', snd w ++ [e]), if ok then Ok tt else Raise).

Definition log (m : LogMsg) : M unit :=
  fun w => ((fst w, snd w ++ [EvLog m]), Ok tt).

Definition time_sleep (ms : nat) : M unit :=
  fun w => ((sleep ms (fst w), snd w ++ [EvSleep ms]), Ok tt).

Notation "x <- m ;; k" := (bind m (fun x => k))
  (at level 61, m at next level, right associativity).
Notation "m ;;; k" := (bind m (fun _ => k))
  (at level 61, right associativity).

(** The body of the [try] in [click_apply]'s loop: [Ok true] is
    [return True], [Ok false] falls through to the next candidate. *)
Definition apply_attempt (sel : Locator) : M bool :=
  n <- query (count sel) ;;
  match n with
  | 0 => ret false
  | S _ =>
      act (EvScroll sel) (scroll_into_view_if_needed sel) ;;;
      act (EvClick sel) (click sel) ;;;
      act EvWaitIdle wait_for_load_state ;;;
      time_sleep 1500 ;;;
      log Applied ;;;
      ret true
  end.

Fixpoint apply_loop (candidates : list Locator) : M bool :=
  match candidates with
  | [] => log NoApplyButton ;;; ret false
  | sel :: rest =>
      fun w =>
        match try_except (apply_attempt sel) (ret false) w with
        | (w', Ok true) => (w', Ok true)
        | (w', _) => apply_loop rest w'
        end
  end.

Definition apply_candidates : list Locator :=
  [ GetByRole "button" "^\s*Apply\s*$";
    Loc "button:has-text('Apply')";
    Loc "input[type='button'][value='Apply']";
    Loc "input[type='submit'][value='Apply']";
    Loc "//button[normalize-space(.)='Apply']";
    Loc "text=Apply" ].

Definition click_apply : M bool :=
  log ClickingApply ;;; apply_loop apply_candidates.

(** Lines 280-289 of [set_report_filters]. *)
Definition apply_step : M unit :=
  clicked <- click_apply ;;
  (if clicked then ret tt
   else try_except
          (act EvPressEnter keyboard_press_enter ;;;
           act EvWaitIdle wait_for_load_state ;;;
           time_sleep 1000 ;;;
           log AppliedViaEnter)
          (ret tt)) ;;;
  log FiltersApplied.

(** The candidate has no match, or asking raises. *)
Definition no_match (l : Locator) (p : Page) : Prop :=
  count l p = Ok 0 \/ count l p = Raise.

Definition clicks (t : list Event) : list Locator :=
  flat_map (fun e => match e with EvClick l => [l] | _ => [] end) t.

End Browser.

End Resolver.

(* ================================================================== *)
(** ** The report transformation: [clean_and_reduce] *)
(* ================================================================== *)

Module Transform.

Import PyStr.

(** A worksheet cell as the reader hands it over: empty (NaN), text, or a
    whole number.  A numeric cell with a fraction is not modelled. *)
Inductive Cell : Type :=
| CNaN
| CStr (s : string)
| CInt (n : Z).

Definition RawTable : Type := list (list Cell).

(** [str(v)] *)
Definition py_str (v : Cell) : string :=
  match v with
  | CNaN => "nan"
  | CStr s => s
  | CInt n => str_of_Z n
  end.

Definition isna (v : Cell) : bool :=
  match v with CNaN => true | _ => false end.

(** *** 1. Header detection *)

(** [x.strip() if isinstance(x, str) else x] *)
Definition strip_cell (x : Cell) : Cell :=
  match x with
  | CStr s => CStr (strip s)
  | _ => x
  end.

Definition REQUIRED : list string :=
  ["SKU"; "Description"; "Category"; "Group"; "UOM"; "Sold QTY"].

(** [[str(v).strip() for v in raw.iloc[i].tolist()]] *)
Definition row_vals (row : list Cell) : list string :=
  map (fun v => strip (py_str v)) row.

(** [all(any(h.lower() == v.lower() for v in row_vals) for h in REQUIRED)] *)
Definition covers_required (vals : list string) : bool :=
  forallb (fun h => existsb (fun v => String.eqb (lower h) (lower v)) vals)
          REQUIRED.

(** The [for i in range(...)] loop with its [break]. *)
Fixpoint scan_header (idxs : list nat) (raw : RawTable) : option nat :=
  match idxs with
  | [] => None
  | i :: rest =>
      if covers_required (row_vals (nth i raw [])) then Some i
      else scan_header rest raw
  end.

Definition header_row_idx (raw0 : RawTable) : nat :=
  let raw := map (map strip_cell) raw0 in
  match scan_header (seq 0 (Nat.min 40 (List.length raw))) raw with
  | Some i => i
  | None => 0
  end.

(** *** 2. The frame and its column names *)

Record Frame : Type := mkFrame
  { columns : list string;
    rows : list (list Cell) }.

(** The label the reader gives column [i] of the header row: the cell
    itself, or [Unnamed: i] for an empty cell. *)
Definition reader_label (i : nat) (c : Cell) : string :=
  match c with
  | CNaN => String.append "Unnamed: " (str_of_Z (Z.of_nat i))
  | _ => py_str c
  end.

Fixpoint labels_from (i : nat) (header : list Cell) : list string :=
  match header with
  | [] => []
  | c :: rest => reader_label i c :: labels_from (S i) rest
  end.

(** How often a name stands in a list of names. *)
Definition count_name (x : string) (l : list string) : nat :=
  List.length (filter (String.eqb x) l).

(** The reader renames a label that the header row has held before: the
    k-th repeat of [x] becomes [x.k]. *)
Fixpoint mangle_dupe_cols (seen labels : list string) : list string :=
  match labels with
  | [] => []
  | x :: rest =>
      (match count_name x seen with
       | 0 => x
       | S k => String.append x (String.append "." (str_of_Z (Z.of_nat (S k))))
       end) :: mangle_dupe_cols (x :: seen) rest
  end.

(** [pd.read_excel(in_path, header=h)] followed by the trimming of the
    column names, [df.columns = [str(c).strip() for c in df.columns]].
    Two labels that differ only in the white space around them end as the
    same name. *)
Definition read_excel (h : nat) (raw : RawTable) : Frame :=
  mkFrame (map strip (mangle_dupe_cols [] (labels_from 0 (nth h raw []))))
          (skipn (S h) raw).

Definition mem (x : string) (l : list string) : bool :=
  existsb (String.eqb x) l.

Definition alias : list (string * string) :=
  [("Sold Qty", "Sold QTY"); ("Qty Sold", "Sold QTY"); ("Unit", "UOM")].

(** [df.rename(columns={k: v})] *)
Definition rename (k v : string) (cols : list string) : list string :=
  map (fun c => if String.eqb c k then v else c) cols.

Definition apply_alias (cols : list string) : list string :=
  fold_left
    (fun cols kv =>
       if mem (fst kv) cols && negb (mem (snd kv) cols)
       then rename (fst kv) (snd kv) cols else cols)
    alias cols.

Definition KEEP_COLS : list string :=
  ["SKU"; "Description"; "Category"; "UOM"; "Sold QTY"].

Definition missing (cols : list string) : list string :=
  filter (fun c => negb (mem c cols)) KEEP_COLS.

(** The frame after steps 1 and 2. *)
Definition load (raw : RawTable) : Frame :=
  let df := read_excel (header_row_idx raw) raw in
  mkFrame (apply_alias (columns df)) (rows df).

(** [row[name]] where one column is called [name]: the cell under it. *)
Fixpoint col_index (name : string) (cols : list string) : nat :=
  match cols with
  | [] => 0
  | c :: rest => if String.eqb c name then 0 else S (col_index name rest)
  end.

Definition get (cols : list string) (name : string) (row : list Cell) : Cell :=
  nth (col_index name cols) row CNaN.

(** *** 3. Dropping non-product lines *)

Definition sku_str (sku : Cell) : string := strip (py_str sku).

Definition is_blank (sku : Cell) : bool :=
  String.eqb (sku_str sku) "" || String.eqb (sku_str sku) "nan".

Definition is_total (sku : Cell) : bool := startswith "Total" (sku_str sku).

Definition is_section_header (sku description : Cell) : bool :=
  section_header_re (sku_str sku) && isna description.

(** A row of the frame cut down to the five kept columns. *)
Record Line : Type := mkLine
  { l_sku : Cell;
    l_description : Cell;
    l_category : Cell;
    l_uom : Cell;
    l_sold_qty : Cell }.

Definition line_of (cols : list string) (row : list Cell) : Line :=
  mkLine (get cols "SKU" row) (get cols "Description" row)
         (get cols "Category" row) (get cols "UOM" row)
         (get cols "Sold QTY" row).

Definition excluded (ln : Line) : bool :=
  is_blank (l_sku ln) || is_total (l_sku ln)
  || is_section_header (l_sku ln) (l_description ln).

(** [df[~(is_blank | is_total | is_section_header)]] on the kept columns. *)
Definition candidate_rows (df : Frame) : list Line :=
  filter (fun ln => negb (excluded ln)) (map (line_of (columns df)) (rows df)).

(** *** 4. Type coercion *)

(** The range of a signed integer of 64 bits, and a whole number reduced
    to it as the sum of a column of such integers is. *)
Definition INT64_MIN : Z := (- 2 ^ 63)%Z.
Definition INT64_MAX : Z := (2 ^ 63 - 1)%Z.

Definition wrap64 (z : Z) : Z := ((z + 2 ^ 63) mod 2 ^ 64 - 2 ^ 63)%Z.

(** What [pd.to_numeric(x, errors="coerce")] yields: a finite number
    [m * 10^e] that every build of pandas and NumPy reads and holds
    exactly, the missing value, an infinity, or a finite number outside
    those, kept as the argument it was read from. *)
Inductive Num : Type :=
| Finite (m e : Z)
| NotANumber
| Infinite
| Unsettled (x : Cell).

Definition digit_val (c : ascii) : option Z :=
  let n := nat_of_ascii c in
  if (48 <=? n)%nat && (n <=? 57)%nat then Some (Z.of_nat (n - 48)) else None.

(** Reads a run of decimal digits: the value accumulated on [acc], how
    many digits were read, and the rest of the text. *)
Fixpoint take_digits (s : string) (acc : Z) (cnt : nat) : Z * nat * string :=
  match s with
  | EmptyString => (acc, cnt, s)
  | String c s' =>
      match digit_val c with
      | Some d => take_digits s' (10 * acc + d)%Z (S cnt)
      | None => (acc, cnt, s)
      end
  end.

Definition take_sign (s : string) : bool * string :=
  match s with
  | String "-" s' => (true, s')
  | String "+" s' => (false, s')
  | _ => (false, s)
  end.

Definition signed (neg : bool) (m : Z) : Z := if neg then (- m)%Z else m.

(** The exponent part [e[+-]digits] that must end the text. *)
Definition take_exponent (s : string) : option Z :=
  match s with
  | EmptyString => Some 0%Z
  | String c s' =>
      if Ascii.eqb (lower_char c) "e" then
        let (neg, s1) := take_sign s' in
        match take_digits s1 0 0 with
        | (_, 0, _) => None
        | (v, S _, EmptyString) => Some (signed neg v)
        | (_, S _, String _ _) => None
        end
      else None
  end.

(** A decimal literal: sign, digits, fraction, exponent; at least one
    digit in the mantissa.  The literal reads as [m * 10^e]; the third
    component counts the digits of the mantissa as written. *)
Definition decimal_literal (s : string) : option (Z * Z * nat) :=
  let (neg, s1) := take_sign s in
  let '(m1, n1, s2) := take_digits s1 0 0 in
  let '(m2, n2, s3) :=
    match s2 with
    | String "." r => take_digits r m1 0
    | _ => (m1, 0, s2)
    end in
  match (n1 + n2)%nat with
  | 0 => None
  | S _ =>
      match take_exponent s3 with
      | Some ex => Some (signed neg m2, (ex - Z.of_nat n2)%Z, (n1 + n2)%nat)
      | None => None
      end
  end.

Definition infinity_words : list string :=
  ["inf"; "+inf"; "-inf"; "infinity"; "+infinity"; "-infinity"].

(** The finite number [m * 10^e] cut towards zero, as the cast of a
    float to an integer does. *)
Definition cut (m e : Z) : Z :=
  if (0 <=? e)%Z then (m * 10 ^ e)%Z else Z.quot m (10 ^ (- e)).

(** The whole numbers that every build holds exactly, as a float of 64
    bits (whole numbers up to 2^53) and as NumPy's default integer (64
    bits; 32 bits on Windows before NumPy 2): those below 2^31 in
    magnitude. *)
Definition SETTLED : Z := (2 ^ 31)%Z.

Definition settled_int (n : Z) : bool := (Z.abs n <? SETTLED)%Z.

(** A literal is read exactly, and cut as [cut] says, when its mantissa
    is written with at most 15 digits (the reader takes 17, a float holds
    15), its exponent stays within the reader's table of powers of ten,
    and the whole number it is cut to is a settled one. *)
Definition settled_literal (m e : Z) (digits : nat) : bool :=
  (digits <=? 15)%nat && (Z.abs e <=? 300)%Z && settled_int (cut m e).

(** [pd.to_numeric(s, errors="coerce")] on a text [s]: a decimal literal
    is its value, the words for infinity are infinite, every other text is
    the missing value. *)
Definition to_numeric_text (s : string) : Num :=
  match decimal_literal s with
  | Some (m, e, digits) =>
      if settled_literal m e digits then Finite m e else Unsettled (CStr s)
  | None => if mem (lower s) infinity_words then Infinite else NotANumber
  end.

(** [pd.to_numeric(x, errors="coerce")] on a cell. *)
Definition to_numeric (x : Cell) : Num :=
  match x with
  | CStr s => to_numeric_text s
  | CInt n => if settled_int n then Finite n 0 else Unsettled x
  | CNaN => NotANumber
  end.

(** [x.replace("$", "").replace(",", "").strip()] *)
Definition cleaned (s : string) : string :=
  strip (remove_char "," (remove_char "$" s)).

(** The nested function [to_num]. *)
Definition to_num (x : Cell) : Num :=
  match x with
  | CStr s => to_numeric (CStr (cleaned s))
  | _ => to_numeric x
  end.

Section Build.

(** What the build at hand makes of a finite number that is not a
    settled one, given the argument [pd.to_numeric] received: the integer
    left in the column (a float that lost digits, a cast outside the
    range, which NumPy leaves to the processor), or an exception (a
    Python integer too large to convert).  The script fixes none of it. *)
Variable beyond : Cell -> Res Z.

(** [.fillna(0).astype(int)] on one value: the missing value becomes 0, a
    settled number is cut towards zero, an infinity raises; whatever the
    build leaves of another number lies within 64 bits. *)
Definition fillna0_astype_int (v : Num) : Res Z :=
  match v with
  | Finite m e => Ok (cut m e)
  | NotANumber => Ok 0%Z
  | Infinite => Raise
  | Unsettled x =>
      match beyond x with
      | Ok z => Ok (wrap64 z)
      | Raise => Raise
      end
  end.

(** The Sold QTY of one cell. *)
Definition coerce_sold_qty (x : Cell) : Res Z := fillna0_astype_int (to_num x).

(** The whole column: one value that raises does so for all. *)
Fixpoint coerce_column (xs : list Cell) : Res (list Z) :=
  match xs with
  | [] => Ok []
  | x :: rest =>
      match coerce_sold_qty x, coerce_column rest with
      | Ok q, Ok qs => Ok (q :: qs)
      | _, _ => Raise
      end
  end.

End Build.

(** What a cell of the written workbook holds. *)
Inductive Value : Type :=
| VNaN
| VText (s : string)
| VInt (n : Z).

Definition value_of (c : Cell) : Value :=
  match c with
  | CNaN => VNaN
  | CStr s => VText s
  | CInt n => VInt n
  end.

(** The frame holds a column of whole numbers with blanks in it as
    floating point, a column without blanks or with text in it as
    integers. *)
Definition held_as_float (col : list Cell) : bool :=
  forallb (fun c => match c with CStr _ => false | _ => true end) col
  && existsb isna col.

(** The nested function [clean_sku]: the integer of a whole-number float,
    the trimmed [str(x)] of anything else. *)
Definition clean_sku (as_float : bool) (x : Cell) : Value :=
  match x with
  | CInt n => if as_float then VInt n else VText (strip (str_of_Z n))
  | _ => VText (strip (py_str x))
  end.

(** A product row after coercion. *)
Record ProductRow : Type := mkRow
  { sku : Value;
    description : Cell;
    category : string;
    uom : Cell;
    sold_qty : Z }.

(** [str(x)] for a cell [x] of a column of the frame, as [astype(str)]
    applies it: a whole number of a column held as floating point shows
    with [.0]. *)
Definition astype_str (as_float : bool) (c : Cell) : string :=
  match c with
  | CInt n =>
      if as_float then String.append (str_of_Z n) ".0" else str_of_Z n
  | _ => py_str c
  end.

(** The category guards: not null, then trimmed text, then not blank. *)
Definition category_text (as_float : bool) (c : Cell) : option string :=
  if isna c then None
  else let s := strip (astype_str as_float c) in
       if String.eqb s "" then None else Some s.

(** The line has a category. *)
Definition has_category (cat_float : bool) (ln : Line) : bool :=
  match category_text cat_float (l_category ln) with
  | Some _ => true
  | None => false
  end.

(** The product rows of the kept lines; [sku_float] and [cat_float] say
    whether the frame holds the SKU and the Category column as floating
    point. *)
Fixpoint product_rows (sku_float cat_float : bool) (lines : list Line)
         (qtys : list Z) : list ProductRow :=
  match lines, qtys with
  | ln :: lines', q :: qtys' =>
      match category_text cat_float (l_category ln) with
      | Some cat =>
          mkRow (clean_sku sku_float (l_sku ln)) (l_description ln) cat
                (l_uom ln) q :: product_rows sku_float cat_float lines' qtys'
      | None => product_rows sku_float cat_float lines' qtys'
      end
  | _, _ => []
  end.

(** Whether [name] labels two columns or more.  [df[name]] is then a
    frame and not a column. *)
Definition twice (name : string) (cols : list string) : bool :=
  (2 <=? count_name name cols)%nat.

Definition is_empty {A : Type} (l : list A) : bool :=
  match l with [] => true | _ => false end.

(** Steps 3 and 4 on a frame that has its columns.  Where a kept name
    labels two columns the script raises: a frame has no [.str] (SKU,
    line 345; Category, line 372), does not combine with the column of the
    SKU test (Description, line 348, once there is a row), has no single
    count of positive values (Sold QTY, line 376), and its row value
    cannot be written to the sheet (UOM, line 429, once there is a product
    row). *)
Definition coerce (beyond : Cell -> Res Z) (df : Frame)
  : Res (list ProductRow) :=
  let cols := columns df in
  if twice "SKU" cols || twice "Category" cols || twice "Sold QTY" cols
     || (twice "Description" cols && negb (is_empty (rows df)))
  then Raise
  else
    let lines := candidate_rows df in
    match coerce_column beyond (map l_sold_qty lines) with
    | Ok qtys =>
        let sku_float := held_as_float (map (get cols "SKU") (rows df)) in
        let cat_float := held_as_float (map (get cols "Category") (rows df)) in
        let prod := product_rows sku_float cat_float lines qtys in
        if twice "UOM" cols && negb (is_empty prod) then Raise else Ok prod
    | Raise => Raise
    end.

Definition rows_total (prod : list ProductRow) : nat := List.length prod.

Definition rows_gt0 (prod : list ProductRow) : nat :=
  List.length (filter (fun r => (0 <? sold_qty r)%Z) prod).

(** *** 5. Grouping *)

(** The categories in the order of their first appearance. *)
Fixpoint first_seen (cats : list string) : list string :=
  match cats with
  | [] => []
  | c :: rest =>
      c :: filter (fun d => negb (String.eqb d c)) (first_seen rest)
  end.

(** [pd.factorize(values, sort=False)]: the code of a value is its
    position among the values in first-seen order. *)
Definition factorize (cats : list string) : list nat * list string :=
  let uniques := first_seen cats in
  (map (fun c => col_index c uniques) cats, uniques).

(** [prod["_cat_order"] = codes] *)
Definition with_cat_order (prod : list ProductRow) : list (nat * ProductRow) :=
  combine (fst (factorize (map category prod))) prod.

(** [sort_values(by=["_cat_order"], kind="stable")]: a row goes in front of
    the first row whose code is not smaller. *)
Fixpoint insert_row (x : nat * ProductRow) (l : list (nat * ProductRow))
  : list (nat * ProductRow) :=
  match l with
  | [] => [x]
  | y :: l' => if (fst x <=? fst y)%nat then x :: l else y :: insert_row x l'
  end.

Fixpoint sort_values (l : list (nat * ProductRow)) : list (nat * ProductRow) :=
  match l with
  | [] => []
  | x :: l' => insert_row x (sort_values l')
  end.

(** The rows of one category, in the order of the row set. *)
Definition block (prod : list ProductRow) (k : string) : list ProductRow :=
  filter (fun r => String.eqb (category r) k) prod.

(** [groupby("Category", sort=False)]: one group per category, in the
    order the categories first appear in the frame, each with its rows in
    the order of the frame. *)
Definition groupby (frame : list ProductRow)
  : list (string * list ProductRow) :=
  map (fun k => (k, block frame k)) (first_seen (map category frame)).

Definition group_rows (prod : list ProductRow)
  : list (string * list ProductRow) :=
  groupby (map snd (sort_values (with_cat_order prod))).

(** *** 6. Rendering *)

Definition Sheet : Type := list (list Value).

Definition headers : list Value :=
  [VText "SKU"; VText "Description"; VText "Category"; VText "UOM";
   VText "Sold QTY"].

(** The four title lines and the blank line; the two dates are read from
    the clock by the script. *)
Definition title_block (report_date created : string) : Sheet :=
  [ [VText "Sales By Product"];
    [VText "Astoria Liquor"];
    [VText report_date];
    [VText (String.append "Created: " created)];
    [VText ""] ].

Definition data_line (r : ProductRow) : list Value :=
  [sku r; value_of (description r); VText (category r); value_of (uom r);
   VInt (sold_qty r)].

(** The sum of the Sold QTY values of some rows. *)
Definition sum_of_sold_qty (rows : list ProductRow) : Z :=
  fold_right (fun r acc => (sold_qty r + acc)%Z) 0%Z rows.

(** [int(grp["Sold QTY"].sum())]: the column is summed as integers of 64
    bits, without a check for overflow. *)
Definition total_qty (grp : list ProductRow) : Z :=
  wrap64 (fold_left Z.add (map sold_qty grp) 0%Z).

Definition total_line (cat : string) (grp : list ProductRow) : list Value :=
  [VText (String.append "Total " cat); VText ""; VText ""; VText "";
   VInt (total_qty grp)].

(** One pass of the loop over the groups. *)
Definition section (g : string * list ProductRow) : Sheet :=
  [[VText (fst g)]; headers]
  ++ map data_line (snd g)
  ++ [total_line (fst g) (snd g); [VText ""]].

Definition render (report_date created : string)
           (groups : list (string * list ProductRow)) : Sheet :=
  title_block report_date created ++ flat_map section groups.

(** [pd.DataFrame(columns=[...]).to_excel(out_path, index=False)] *)
Definition header_only : Sheet := [headers].

(** *** [clean_and_reduce]

    The written sheet and the pair [(rows_total, rows_gt0)], or an
    exception. *)
Definition clean_and_reduce (beyond : Cell -> Res Z)
           (report_date created : string) (raw : RawTable)
  : Res (Sheet * (nat * nat)) :=
  let df := load raw in
  match missing (columns df) with
  | _ :: _ => Ok (header_only, (0, 0))
  | [] =>
      match coerce beyond df with
      | Raise => Raise
      | Ok prod =>
          Ok (render report_date created (group_rows prod),
              (rows_total prod, rows_gt0 prod))
      end
  end.

End Transform.

(* ================================================================== *)
(** ** The notification decision at the end of [main] *)
(* ================================================================== *)

Module Decision.

Inductive Outcome : Type :=
| AlertNoRows
| AlertAllZero
| Normal.

(** What the branch does. *)
Inductive Action : Type :=
| SendAlertEmail (reason : string) (recipients : list string)
| SendEmail (recipients : list string)
| LogSkip (msg : string).

Definition EMAIL_TO : list string := ["astorialiquorgeneral@gmail.com"].
Definition EMAIL_ALERT_TO : list string := ["krishna.ballari@astorialrs.ca"].

(** The [if / elif / else] of [main], lines 615-629.  The two counts are
    [len(prod)] and a count of rows, hence natural numbers. *)
Definition notify (IS_CI : bool) (rows_total rows_gt0 : nat) : Action :=
  if (rows_total =? 0)%nat then
    if IS_CI then LogSkip "[CI] Skipping alert email (rows_total == 0)."
    else SendAlertEmail "No product rows found after cleaning." EMAIL_ALERT_TO
  else if (rows_gt0 =? 0)%nat then
    if IS_CI then LogSkip "[CI] Skipping alert email (all Sold QTY == 0)."
    else SendAlertEmail "All products have Sold QTY = 0." EMAIL_ALERT_TO
  else
    if IS_CI then LogSkip "[CI] Skipping normal email send."
    else SendEmail EMAIL_TO.

(** Which of the three branches is taken. *)
Definition decide (rows_total rows_gt0 : nat) : Outcome :=
  if (rows_total =? 0)%nat then AlertNoRows
  else if (rows_gt0 =? 0)%nat then AlertAllZero
  else Normal.

(** What each branch does, with and without the send suppressed. *)
Definition dispatch (IS_CI : bool) (o : Outcome) : Action :=
  match o, IS_CI with
  | AlertNoRows, true => LogSkip "[CI] Skipping alert email (rows_total == 0)."
  | AlertNoRows, false =>
      SendAlertEmail "No product rows found after cleaning." EMAIL_ALERT_TO
  | AlertAllZero, true =>
      LogSkip "[CI] Skipping alert email (all Sold QTY == 0)."
  | AlertAllZero, false =>
      SendAlertEmail "All products have Sold QTY = 0." EMAIL_ALERT_TO
  | Normal, true => LogSkip "[CI] Skipping normal email send."
  | Normal, false => SendEmail EMAIL_TO
  end.

Definition is_alert (o : Outcome) : bool :=
  match o with Normal => false | _ => true end.

End Decision.

(* ================================================================== *)
(** ** Sample pages and tables *)
(* ================================================================== *)

Module Samples.

Import Resolver.

Definition apply_button : Locator := Loc "button:has-text('Apply')".
Definition apply_text : Locator := Loc "text=Apply".

Definition locator_eqb (a b : Locator) : bool :=
  match a, b with
  | GetByRole r n, GetByRole r' n' => String.eqb r r' && String.eqb n n'
  | Loc s, Loc s' => String.eqb s s'
  | _, _ => false
  end.

(** A report page that is still rendering when the Apply step starts.
    The page state counts the waits spent on it.  The Apply button is in
    the document from the start but shows only after the first wait; a
    caption with the text Apply is visible throughout.  A click completes
    when its target is visible by then. *)
Definition slow_count (l : Locator) (_ : nat) : Res nat :=
  if locator_eqb l apply_button || locator_eqb l apply_text
  then Ok 1 else Ok 0.

Definition slow_is_visible (l : Locator) (p : nat) : Res bool :=
  if locator_eqb l apply_button then Ok (1 <=? p)%nat else Ok true.

Definition slow_scroll (_ : Locator) (p : nat) : nat * bool := (S p, true).

Definition slow_click (l : Locator) (p : nat) : nat * bool :=
  match slow_is_visible l p with
  | Ok true => (p, true)
  | _ => (p, false)
  end.

Definition slow_wait (p : nat) : nat * bool := (p, true).
Definition slow_sleep (_ : nat) (p : nat) : nat := p.

(** A page without any Apply control, on which the Enter key raises. *)
Definition bare_count (_ : Locator) (_ : unit) : Res nat := Ok 0.
Definition bare_action (_ : Locator) (p : unit) : unit * bool := (p, true).
Definition bare_wait (p : unit) : unit * bool := (p, true).
Definition bare_enter (p : unit) : unit * bool := (p, false).
Definition bare_sleep (_ : nat) (p : unit) : unit := p.

(** The specification's sentence on the Apply step, read on the
    resolver: the step clicks the control [_first_visible] finds among
    the candidates, and reports success. *)
Definition clicks_first_visible
  (Page : Type)
  (count : Locator -> Page -> Res nat)
  (is_visible : Locator -> Page -> Res bool)
  (scroll click : Locator -> Page -> Page * bool)
  (wait : Page -> Page * bool) (sleep : nat -> Page -> Page)
  (p : Page) : Prop :=
  forall l,
    _first_visible Page count is_visible (map Some apply_candidates) p
    = Ok (Some (First l)) ->
    exists w',
      click_apply Page count scroll click wait sleep (p, []) = (w', Ok true)
      /\ clicks (snd w') = [l].

(** *** Tables *)

Import Transform.

Definition header_cells : list Cell :=
  [CStr "Category"; CStr "SKU"; CStr "Sold Qty"; CStr "Description";
   CStr "UOM"; CStr "Group"].


(** The header comes fourth, after three title rows; one total row and
    one product row follow. *)
Definition scenario_a : RawTable :=
  [ [CStr "Sales By Product"; CNaN; CNaN; CNaN; CNaN; CNaN];
    [CStr "Astoria Liquor"; CNaN; CNaN; CNaN; CNaN; CNaN];
    [CNaN; CNaN; CNaN; CNaN; CNaN; CNaN];
    header_cells;
    [CNaN; CStr "Total Beer"; CStr "$40.00"; CNaN; CNaN; CNaN];
    [CStr "Spirits"; CInt 1001; CStr "$12.00"; CStr "Vodka 750ml";
     CStr "EA"; CStr "A"] ].

(** The same export without its UOM column. *)
Definition scenario_b : RawTable :=
  [ [CStr "Category"; CStr "SKU"; CStr "Sold Qty"; CStr "Description";
     CStr "Group"];
    [CStr "Spirits"; CInt 1001; CStr "$12.00"; CStr "Vodka 750ml";
     CStr "A"] ].

(** The row at [i] carries all the required labels. *)
Definition is_header (raw : RawTable) (i : nat) : Prop :=
  covers_required (row_vals (nth i (map (map strip_cell) raw) [])) = true.


(** A day with returns: one quantity is a negative number, one a text
    that reads as a negative number. *)
Definition returns_day : RawTable :=
  [ [CStr "SKU"; CStr "Description"; CStr "Category"; CStr "UOM";
     CStr "Sold QTY"];
    [CInt 1001; CStr "Vodka 750ml"; CStr "Spirits"; CStr "EA"; CInt (-5)];
    [CInt 1002; CStr "Lager 6pk"; CStr "Beer"; CStr "EA"; CStr "-3"] ].

(** A build of 64 bits on a column that stays a column of integers:
    every number is read as it is written and cut towards zero. *)
Definition exact_build (x : Cell) : Res Z :=
  match x with
  | CNaN => Ok 0%Z
  | CInt n => Ok n
  | CStr s =>
      match decimal_literal s with
      | Some (m, e, _) => Ok (cut m e)
      | None => Ok 0%Z
      end
  end.

(** A build that raises on every number that is not a settled one. *)
Definition strict_build (_ : Cell) : Res Z := Raise.

(** The specification's sentence on the coercion as it is worded:
    every value ends as an integer, what does not read as one as 0. *)
Definition coercion_never_fails : Prop :=
  forall (beyond : Cell -> Res Z) (x : Cell),
    exists q, coerce_sold_qty beyond x = Ok q.

(** The specification's sentence on the sign of Sold QTY as it is
    worded. *)
Definition sold_qty_never_negative : Prop :=
  forall (beyond : Cell -> Res Z) (raw : RawTable) (prod : list ProductRow)
         (r : ProductRow),
    coerce beyond (load raw) = Ok prod -> In r prod -> (0 <= sold_qty r)%Z.

(** What [returns_day] is turned into. *)
Definition returns_rows : list ProductRow :=
  [ mkRow (VText "1001") (CStr "Vodka 750ml") "Spirits" (CStr "EA") (-5);
    mkRow (VText "1002") (CStr "Lager 6pk") "Beer" (CStr "EA") (-3) ].

(** Lines of a frame: a product, a total line, a section header, a line
    without SKU, a product whose SKU reads like a section header but has a
    description, a line whose SKU holds [" - "] after a small letter, and
    a line whose SKU is the text "nan" with blanks around it. *)
Definition product_line : Line :=
  mkLine (CInt 1001) (CStr "Vodka 750ml") (CStr "Spirits") (CStr "EA")
         (CStr "$12.00").
Definition total_row : Line :=
  mkLine (CStr "Total Beer") CNaN CNaN CNaN (CStr "$40.00").
Definition section_row : Line :=
  mkLine (CStr "BEER - Domestic") CNaN CNaN CNaN CNaN.
Definition blank_row : Line := mkLine CNaN CNaN CNaN CNaN CNaN.
Definition dashed_product : Line :=
  mkLine (CStr "X - 12") (CStr "Mixer") (CStr "Mixers") (CStr "EA") (CInt 3).
Definition small_dash_row : Line :=
  mkLine (CStr "vodka - 750ml") CNaN (CStr "Spirits") (CStr "EA") (CInt 2).
Definition spaced_nan_row : Line :=
  mkLine (CStr " nan ") (CStr "Mixer") (CStr "Mixers") (CStr "EA") (CInt 1).

(** A day of very large quantities: two products of one category, each
    sold five million million million times. *)
Definition big_day : RawTable :=
  [ [CStr "SKU"; CStr "Description"; CStr "Category"; CStr "UOM";
     CStr "Sold QTY"];
    [CInt 1001; CStr "Vodka 750ml"; CStr "Spirits"; CStr "EA";
     CInt 5000000000000000000];
    [CInt 1003; CStr "Gin 750ml"; CStr "Spirits"; CStr "EA";
     CInt 5000000000000000000] ].

(** What [big_day] is turned into by a build of 64 bits. *)
Definition big_rows : list ProductRow :=
  [ mkRow (VText "1001") (CStr "Vodka 750ml") "Spirits" (CStr "EA")
          5000000000000000000;
    mkRow (VText "1003") (CStr "Gin 750ml") "Spirits" (CStr "EA")
          5000000000000000000 ].

(** The specification's sentence on the total line as it is worded: the
    total of a group is the sum of the Sold QTY of its rows. *)
Definition total_is_the_sum : Prop :=
  forall (beyond : Cell -> Res Z) (raw : RawTable) (prod : list ProductRow)
         (g : string * list ProductRow),
    coerce beyond (load raw) = Ok prod ->
    In g (group_rows prod) ->
    total_line (fst g) (snd g)
    = [VText (String.append "Total " (fst g)); VText ""; VText ""; VText "";
       VInt (sum_of_sold_qty (snd g))].

(** Four product rows whose categories come in the order
    Beer, Ale, Beer, Cider. *)
Definition four_rows : list ProductRow :=
  [ mkRow (VText "2001") (CStr "Lager 6pk") "Beer" (CStr "EA") 4;
    mkRow (VText "3001") (CStr "Pale Ale") "Ale" (CStr "EA") 0;
    mkRow (VText "2002") (CStr "Pilsner 12pk") "Beer" (CStr "CS") 7;
    mkRow (VText "4001") (CStr "Dry Cider") "Cider" (CStr "EA") 2 ].

(** What [scenario_a] is turned into. *)
Definition scenario_a_rows : list ProductRow :=
  [ mkRow (VText "1001") (CStr "Vodka 750ml") "Spirits" (CStr "EA") 12 ].

End Samples.

(* ================================================================== *)
(** ** Text helpers *)
(* ================================================================== *)

Module Text.

Import PyStr Transform.

(** Every character of the text passes the test. *)
Fixpoint all_chars (f : ascii -> bool) (s : string) : bool :=
  match s with
  | EmptyString => true
  | String c s' => f c && all_chars f s'
  end.

(** What header detection compares of a cell: the lower-cased, trimmed
    text of the trimmed cell. *)
Definition cell_key (c : Cell) : string :=
  lower (strip (py_str (strip_cell c))).

(** A character of the decimal numeral of an integer: a digit or the
    minus sign. *)
Definition numeral_char (c : ascii) : bool :=
  match digit_val c with
  | Some _ => true
  | None => Ascii.eqb c "-"
  end.

(** One pass of the loop over the alias table:
    [if k in df.columns and v not in df.columns: rename]. *)
Definition alias_step (k v : string) (cols : list string) : list string :=
  if mem k cols && negb (mem v cols) then rename k v cols else cols.

End Text.

(* ================================================================== *)
(** ** The end of [main]: from the downloaded table to the notification *)
(* ================================================================== *)

Module Pipeline.

Import Transform Decision.

(** Lines 611-629 of [main]: the downloaded table is cleaned and the pair
    it returns selects the notification; an exception of
    [clean_and_reduce] ends the run before any notification. *)
Definition main_tail (beyond : Cell -> Res Z) (IS_CI : bool)
           (report_date created : string) (downloaded : RawTable)
  : Res (Sheet * Action) :=
  match clean_and_reduce beyond report_date created downloaded with
  | Ok (sheet, (rows_total, rows_gt0)) =>
      Ok (sheet, notify IS_CI rows_total rows_gt0)
  | Raise => Raise
  end.

End Pipeline.

(* ================================================================== *)
(** ** Further sample tables *)
(* ================================================================== *)

Module Scenarios.

Import Transform Samples.

(** The sample export with its labels in other letter cases and with
    white space around them. *)
Definition scenario_a_relabelled : RawTable :=
  [ [CStr "Sales By Product"; CNaN; CNaN; CNaN; CNaN; CNaN];
    [CStr "Astoria Liquor"; CNaN; CNaN; CNaN; CNaN; CNaN];
    [CNaN; CNaN; CNaN; CNaN; CNaN; CNaN];
    [CStr " CATEGORY"; CStr "sku"; CStr "SOLD QTY "; CStr "description";
     CStr "Uom"; CStr "  group  "];
    [CNaN; CStr "Total Beer"; CStr "$40.00"; CNaN; CNaN; CNaN];
    [CStr "Spirits"; CInt 1001; CStr "$12.00"; CStr "Vodka 750ml";
     CStr "EA"; CStr "A"] ].

End Scenarios.

(* ================================================================== *)
(** ** The console log and the choice of the Outlook account *)
(* ================================================================== *)

Module Console.

Import PyStr Text.

(** [ord(ch) < 128] *)
Definition is_ascii (c : ascii) : bool := (nat_of_ascii c <? 128)%nat.

(** [''.join(ch if ord(ch) < 128 else '?' for ch in msg)] *)
Fixpoint safe (msg : string) : string :=
  match msg with
  | EmptyString => EmptyString
  | String ch rest => String (if is_ascii ch then ch else "?"%char) (safe rest)
  end.

(** [f"[{ts}] {msg}"] *)
Definition line (ts msg : string) : string :=
  String.append "[" (String.append ts (String.append "] " msg)).

Section Stdout.

(** Whether the console can encode a text; [print] raises
    [UnicodeEncodeError] when it cannot. *)
Variable encodable : string -> bool.

Definition print (text : string) : Res string :=
  if encodable text then Ok text else Raise.

(** [log]: the line printed, or the exception of the second [print]. *)
Definition log (ts msg : string) : Res string :=
  match print (line ts msg) with
  | Ok out => Ok out
  | Raise => print (line ts (safe msg))
  end.

End Stdout.

End Console.

Module Accounts.

Import PyStr.





End Accounts.

(* ================================================================== *)
(** ** Login, store selection and the report filters *)
(* ================================================================== *)

Module Flow.

Import Resolver.

Definition BASE_URL : string := "https://astoria.barnetportal.com".
Definition REPORT_URL : string :=
  "https://astoria.barnetportal.com/reports/sales-by-product".
Definition START_TIME_STR : string := "07:30 AM".
Definition FINISH_TIME_STR : string := "11:50 PM".

Inductive Field : Type := StartDate | EndDate | StartTime | FinishTime.

(** The messages of [ensure_logged_in], [select_store] and
    [set_report_filters]. *)
Inductive Msg : Type :=
| OpeningPortal | LoggingIn | LoginCompleted | NoLoginForm
| SelectingStore | StoreSelected | StoreModalNotShown | StoreStepSkipped
| OpeningReport
| FieldFound (f : Field) (found : bool)
| SettingDateTime (ds : string)
| CouldNotType.

(** What these functions do to the outside world, in order. *)
Inductive Step : Type :=
| SLog (m : Msg)
| SGoto (url : string)
| SClick (h : Handle)
| SPress (h : Handle) (key : string)
| SType (h : Handle) (text : string)
| SWaitIdle
| SSleep (ms : nat)
| SWaitTimeout (ms : nat)
| SApply (e : Event).

Definition handle_loc (h : Handle) : Locator :=
  match h with First l => l end.

(** [not x] for an optional text: [None] and the empty text are false. *)
Definition falsy (x : option string) : bool :=
  match x with
  | None => true
  | Some EmptyString => true
  | Some _ => false
  end.

(** [str(val)] for a credential that is present. *)
Definition text_of (x : option string) : string :=
  match x with Some s => s | None => "None" end.

Definition is_some {A : Type} (o : option A) : bool :=
  match o with Some _ => true | None => false end.

Section Browser.

Variable Page : Type.
Variable count : Locator -> Page -> Res nat.
Variable is_visible : Locator -> Page -> Res bool.
Variable goto : string -> Page -> Page * bool.
Variable scroll_into_view_if_needed : Locator -> Page -> Page * bool.
Variable click : Locator -> Page -> Page * bool.
Variable press : Handle -> string -> Page -> Page * bool.
Variable type : Handle -> string -> Page -> Page * bool.
Variable wait_for_load_state : Page -> Page * bool.
Variable wait_for_timeout : nat -> Page -> Page * bool.
Variable keyboard_press_enter : Page -> Page * bool.
Variable sleep : nat -> Page -> Page.

(** The candidate lists built with [get_by_label], [get_by_placeholder]
    and [locator] at lines 166-183 and 248-267. *)
Variable user_candidates pass_candidates login_candidates
  : list (option Locator).
Variable start_date_candidates end_date_candidates
         start_time_candidates finish_time_candidates
  : list (option Locator).

Definition State : Type := (Page * list Step)%type.
Definition F (A : Type) : Type := State -> State * Res A.

Definition pure {A} (a : A) : F A := fun w => (w, Ok a).

Definition raise {A} : F A := fun w => (w, Raise).

Definition andthen {A B} (m : F A) (k : A -> F B) : F B :=
  fun w => match m w with
           | (w', Ok a) => k a w'
           | (w', Raise) => (w', Raise)
           end.

(** [try: m  except Exception: h] *)
Definition attempt {A} (m : F A) (h : F A) : F A :=
  fun w => match m w with
           | (w', Ok a) => (w', Ok a)
           | (w', Raise) => h w'
           end.

Definition ask {A} (q : Page -> Res A) : F A := fun w => (w, q (fst w)).

Definition step (e : Step) (f : Page -> Page * bool) : F unit :=
  fun w => let (p', ok) := f (fst w) in
           ((p', snd w ++ [e]), if ok then Ok tt else Raise).

Definition say (m : Msg) : F unit :=
  fun w => ((fst w, snd w ++ [SLog m]), Ok tt).

Definition pause (ms : nat) : F unit :=
  fun w => ((sleep ms (fst w), snd w ++ [SSleep ms]), Ok tt).

Notation "x <- m ;; k" := (andthen m (fun x => k))
  (at level 61, m at next level, right associativity).
Notation "m ;;; k" := (andthen m (fun _ => k))
  (at level 61, right associativity).

Definition resolve (candidates : list (option Locator)) : F (option Handle) :=
  ask (_first_visible Page count is_visible candidates).

Definition click_handle (h : Handle) : F unit :=
  step (SClick h) (click (handle_loc h)).

(** [loc.click(); loc.press("Control+A"); loc.type(str(val), delay=30)] *)
Definition fill (h : Handle) (val : string) : F unit :=
  click_handle h ;;;
  step (SPress h "Control+A") (press h "Control+A") ;;;
  step (SType h val) (type h val).

(** *** [ensure_logged_in] *)

Definition ensure_logged_in (username password : option string) : F unit :=
  say OpeningPortal ;;;
  step (SGoto BASE_URL) (goto BASE_URL) ;;;
  user_loc <- resolve user_candidates ;;
  pass_loc <- resolve pass_candidates ;;
  login_btn <- resolve login_candidates ;;
  match user_loc, pass_loc, login_btn with
  | Some u, Some pw, Some btn =>
      if falsy username || falsy password then raise
      else
        say LoggingIn ;;;
        fill u (text_of username) ;;;
        fill pw (text_of password) ;;;
        click_handle btn ;;;
        step SWaitIdle wait_for_load_state ;;;
        pause 1000 ;;;
        say LoginCompleted
  | _, _, _ => say NoLoginForm
  end.

(** *** [select_store] *)

Definition store_modal : Locator := Loc "text=Select Store".

Definition store_candidates : list (option Locator) :=
  [ Some (Loc "text=Astoria Liquor 191222");
    Some (Loc "text=Astoria Liquor") ].

Definition close_candidates : list (option Locator) :=
  [ Some (GetByRole "button" "Close");
    Some (Loc "button:has-text('Close')") ].

Definition select_store : F unit :=
  attempt
    (step (SWaitTimeout 800) (wait_for_timeout 800) ;;;
     shown <- ask (visible_test Page count is_visible (Some store_modal)) ;;
     if shown then
       say SelectingStore ;;;
       target <- resolve store_candidates ;;
       match target with
       | Some h => click_handle h
       | None => pure tt
       end ;;;
       attempt (_ <- resolve close_candidates ;; pure tt) (pure tt) ;;;
       step SWaitIdle wait_for_load_state ;;;
       pause 800 ;;;
       say StoreSelected
     else say StoreModalNotShown)
    (say StoreStepSkipped).

(** *** [set_report_filters] *)

(** The nested function [clear_and_type], with [press_enter=True]. *)
Definition clear_and_type (h : Handle) (text : string) : F bool :=
  attempt
    (click_handle h ;;;
     step (SPress h "Control+A") (press h "Control+A") ;;;
     step (SType h text) (type h text) ;;;
     step (SPress h "Enter") (press h "Enter") ;;;
     pure true)
    (say CouldNotType ;;; pure false).

(** [if field: clear_and_type(field, text)] *)
Definition type_if_found (field : option Handle) (text : string) : F unit :=
  match field with
  | Some h => _ <- clear_and_type h text ;; pure tt
  | None => pure tt
  end.

(** Lines 280-289, run on the page as it is, its events added to the
    trace. *)
Definition apply_phase : F unit :=
  fun w =>
    match apply_step Page count scroll_into_view_if_needed click
                     wait_for_load_state keyboard_press_enter sleep
                     (fst w, []) with
    | ((p', events), r) => ((p', snd w ++ map SApply events), r)
    end.

(** [ds] is [rep_date.strftime("%m/%d/%Y")]. *)
Definition set_report_filters (ds : string) : F unit :=
  say OpeningReport ;;;
  step (SGoto REPORT_URL) (goto REPORT_URL) ;;;
  select_store ;;;
  start_date <- resolve start_date_candidates ;;
  end_date <- resolve end_date_candidates ;;
  start_time <- resolve start_time_candidates ;;
  finish_time <- resolve finish_time_candidates ;;
  say (FieldFound StartDate (is_some start_date)) ;;;
  say (FieldFound EndDate (is_some end_date)) ;;;
  say (FieldFound StartTime (is_some start_time)) ;;;
  say (FieldFound FinishTime (is_some finish_time)) ;;;
  say (SettingDateTime ds) ;;;
  type_if_found start_date ds ;;;
  type_if_found end_date ds ;;;
  type_if_found start_time START_TIME_STR ;;;
  type_if_found finish_time FINISH_TIME_STR ;;;
  apply_phase.

(** A computation that returns whatever the browser does, and only adds
    to the trace.  Writing a log line is taken not to raise. *)
Definition never_raises {A} (m : F A) : Prop :=
  forall w, exists p' added a, m w = ((p', snd w ++ added), Ok a).

End Browser.

(** What [select_store] may do: log, wait, and click one of the two store
    options. *)
Definition store_step (e : Step) : Prop :=
  match e with
  | SLog _ | SWaitTimeout _ | SWaitIdle | SSleep _ => True
  | SClick h =>
      h = First (Loc "text=Astoria Liquor 191222")
      \/ h = First (Loc "text=Astoria Liquor")
  | _ => False
  end.

Definition is_click (e : Step) : bool :=
  match e with SClick _ => true | _ => false end.

End Flow.

(* ================================================================== *)
(** ** Sample portal pages *)
(* ================================================================== *)

Module Pages.

Import Resolver Flow.

(** A portal that opens on an empty page: a session that is logged in
    already, without store dialog, fields or Apply control. *)
Definition empty_count (_ : Locator) (_ : unit) : Res nat := Ok 0.
Definition empty_is_visible (_ : Locator) (_ : unit) : Res bool := Ok false.

(** A portal that opens on its login form: every locator has a visible
    match. *)
Definition form_count (_ : Locator) (_ : unit) : Res nat := Ok 1.
Definition form_is_visible (_ : Locator) (_ : unit) : Res bool := Ok true.

Definition done_goto (_ : string) (p : unit) : unit * bool := (p, true).
Definition done_on_locator (_ : Locator) (p : unit) : unit * bool := (p, true).
Definition done_on_handle (_ : Handle) (_ : string) (p : unit) : unit * bool :=
  (p, true).
Definition done_wait (p : unit) : unit * bool := (p, true).
Definition done_timeout (_ : nat) (p : unit) : unit * bool := (p, true).
Definition done_sleep (_ : nat) (p : unit) : unit := p.

Definition user_field : list (option Locator) :=
  [Some (Loc "form input[type='text']"); Some (Loc "input[name*=user i]")].
Definition pass_field : list (option Locator) :=
  [Some (Loc "form input[type='password']"); Some (Loc "input[name*=pass i]")].
Definition login_button : list (option Locator) :=
  [Some (GetByRole "button" "login|sign in"); Some (Loc "text=Login")].
Definition date_field : list (option Locator) :=
  [Some (Loc "input[name*='start' i]")].

End Pages.

(* ================================================================== *)
(** ** Further sample exports *)
(* ================================================================== *)

Module Exports.

Import Transform Samples.

(** The sample export with one more title row on top. *)
Definition scenario_a_titled : RawTable :=
  [CStr "Daily export"; CNaN; CNaN; CNaN; CNaN; CNaN] :: scenario_a.

(** An export without a Group column, its header in the second row. *)
Definition no_group_column : RawTable :=
  [ [CStr "Sales By Product"; CNaN; CNaN; CNaN; CNaN];
    [CStr "SKU"; CStr "Description"; CStr "Category"; CStr "UOM";
     CStr "Sold QTY"];
    [CInt 1001; CStr "Vodka 750ml"; CStr "Spirits"; CStr "EA";
     CStr "$12.00"] ].

End Exports.

(* ================================================================== *)
(** ** The wording of the specification on texts and numbers *)
(* ================================================================== *)

Module Wording.

Import PyStr Transform.

(** White space by code point, as [str.strip] takes it below 256. *)
Definition white (c : ascii) : Prop :=
  In (nat_of_ascii c) [9; 10; 11; 12; 13; 28; 29; 30; 31; 32; 133; 160]%nat.

Fixpoint all_white (s : string) : Prop :=
  match s with
  | EmptyString => True
  | String c s' => white c /\ all_white s'
  end.

(** [t] is [s] without the white space at its two ends. *)
Definition trimmed_of (s t : string) : Prop :=
  exists a b,
    s = String.append a (String.append t b)
    /\ all_white a /\ all_white b
    /\ (forall c r, t = String c r -> ~ white c)
    /\ (forall r c, t = String.append r (String c "") -> ~ white c).

(** A capital letter A..Z. *)
Definition capital (c : ascii) : Prop :=
  (65 <= nat_of_ascii c /\ nat_of_ascii c <= 90)%nat.

(** A text without a line break. *)
Fixpoint one_line (s : string) : Prop :=
  match s with
  | EmptyString => True
  | String c s' => c <> newline /\ one_line s'
  end.

(** A section header as the specification words it: capitalized text
    containing [" - "], on one line. *)
Definition reads_as_section_header (t : string) : Prop :=
  exists c a b,
    t = String c (String.append a (String.append " - " b))
    /\ capital c /\ one_line a /\ one_line b.

(** The row filter as the specification words it, on the cells of a
    line: the SKU is empty, or its trimmed text is blank, reads "nan",
    starts with "Total", or is a section header while the Description is
    empty.  A SKU that is a number is none of these. *)
Definition left_out (ln : Line) : Prop :=
  match l_sku ln with
  | CNaN => True
  | CInt _ => False
  | CStr s =>
      exists t,
        trimmed_of s t
        /\ (t = "" \/ t = "nan"
            \/ (exists r, t = String.append "Total" r)
            \/ (reads_as_section_header t /\ l_description ln = CNaN))
  end.

(** *** Decimal literals *)

Inductive Sign : Type :=
| NoSign
| Plus
| Minus.

Definition sign_text (s : Sign) : string :=
  match s with
  | NoSign => ""
  | Plus => "+"
  | Minus => "-"
  end.

Definition negative (s : Sign) : bool :=
  match s with Minus => true | _ => false end.

(** A run of digits as a text, and the number it writes: each digit
    weighs ten to the number of digits after it. *)
Definition digits_text (d : Decimal.uint) : string :=
  NilEmpty.string_of_uint d.

Definition weight (k : Z) (d : Decimal.uint) : Z :=
  (k * 10 ^ Z.of_nat (Decimal.nb_digits d))%Z.

Fixpoint digits_value (d : Decimal.uint) : Z :=
  match d with
  | Decimal.Nil => 0%Z
  | Decimal.D0 d' => (weight 0 d' + digits_value d')%Z
  | Decimal.D1 d' => (weight 1 d' + digits_value d')%Z
  | Decimal.D2 d' => (weight 2 d' + digits_value d')%Z
  | Decimal.D3 d' => (weight 3 d' + digits_value d')%Z
  | Decimal.D4 d' => (weight 4 d' + digits_value d')%Z
  | Decimal.D5 d' => (weight 5 d' + digits_value d')%Z
  | Decimal.D6 d' => (weight 6 d' + digits_value d')%Z
  | Decimal.D7 d' => (weight 7 d' + digits_value d')%Z
  | Decimal.D8 d' => (weight 8 d' + digits_value d')%Z
  | Decimal.D9 d' => (weight 9 d' + digits_value d')%Z
  end.

(** The exponent part of a literal: the letter, a sign, digits. *)
Record Exponent : Type := mkExponent
  { exp_capital : bool;
    exp_sign : Sign;
    exp_digits : Decimal.uint }.

(** A decimal literal: a sign, the digits before the point, the point
    with the digits after it, an exponent part. *)
Record Literal : Type := mkLiteral
  { lit_sign : Sign;
    lit_whole : Decimal.uint;
    lit_frac : option Decimal.uint;
    lit_exp : option Exponent }.

Definition frac_digits (l : Literal) : Decimal.uint :=
  match lit_frac l with
  | Some f => f
  | None => Decimal.Nil
  end.

(** At least one digit in the mantissa, and at least one in the exponent
    part where there is one. *)
Definition well_formed (l : Literal) : Prop :=
  (0 < Decimal.nb_digits (lit_whole l) + Decimal.nb_digits (frac_digits l))%nat
  /\ match lit_exp l with
     | Some x => exp_digits x <> Decimal.Nil
     | None => True
     end.

Definition exponent_text (x : option Exponent) : string :=
  match x with
  | Some x =>
      String.append (if exp_capital x then "E" else "e")
        (String.append (sign_text (exp_sign x)) (digits_text (exp_digits x)))
  | None => ""
  end.

Definition frac_text (f : option Decimal.uint) : string :=
  match f with
  | Some f => String.append "." (digits_text f)
  | None => ""
  end.

Definition literal_text (l : Literal) : string :=
  String.append (sign_text (lit_sign l))
    (String.append (digits_text (lit_whole l))
       (String.append (frac_text (lit_frac l)) (exponent_text (lit_exp l)))).

(** The literal writes the number [mantissa * 10 ^ exponent]. *)
Definition literal_mantissa (l : Literal) : Z :=
  signed (negative (lit_sign l))
         (digits_value (lit_whole l)
          * 10 ^ Z.of_nat (Decimal.nb_digits (frac_digits l))
          + digits_value (frac_digits l))%Z.

Definition exponent_value (x : option Exponent) : Z :=
  match x with
  | Some x => signed (negative (exp_sign x)) (digits_value (exp_digits x))
  | None => 0%Z
  end.

Definition literal_exponent (l : Literal) : Z :=
  (exponent_value (lit_exp l) - Z.of_nat (Decimal.nb_digits (frac_digits l)))%Z.

Definition literal_digits (l : Literal) : nat :=
  (Decimal.nb_digits (lit_whole l) + Decimal.nb_digits (frac_digits l))%nat.

(** The text is a decimal literal. *)
Definition is_literal (s : string) : Prop :=
  exists l, well_formed l /\ s = literal_text l.

(** A text that does not begin with a digit. *)
Definition no_digit_ahead (s : string) : Prop :=
  match s with
  | EmptyString => True
  | String c _ => digit_val c = None
  end.

(** A text that does not begin with a sign. *)
Definition no_sign_ahead (s : string) : Prop :=
  match s with
  | String c _ => c <> "-"%char /\ c <> "+"%char
  | EmptyString => True
  end.

End Wording.

(* ================================================================== *)
(** * Properties *)
(* ================================================================== *)

Module DecisionFacts.

Import Decision.

Lemma notify_dispatch (ci : bool) (rt gt : nat) :
  notify ci rt gt = dispatch ci (decide rt gt).
Proof.
  unfold notify, decide.
  destruct (rt =? 0)%nat; [now destruct ci|].
  destruct (gt =? 0)%nat; now destruct ci.
Qed.

Lemma decide_no_rows (rt gt : nat) : decide rt gt = AlertNoRows <-> rt = 0.
Proof.
  unfold decide. destruct rt as [|rt]; simpl.
  - tauto.
  - destruct gt; split; intro H; discriminate H.
Qed.

Lemma decide_all_zero (rt gt : nat) :
  decide rt gt = AlertAllZero <-> 0 < rt /\ gt = 0.
Proof.
  unfold decide. destruct rt as [|rt]; simpl.
  - split; [discriminate | lia].
  - destruct gt; simpl; split; intro H;
      try discriminate H; try (split; [lia | reflexivity]); try reflexivity.
    destruct H as [_ H]. discriminate H.
Qed.

Lemma decide_normal (rt gt : nat) :
  decide rt gt = Normal <-> 0 < rt /\ 0 < gt.
Proof.
  unfold decide. destruct rt as [|rt]; simpl.
  - split; [discriminate | lia].
  - destruct gt; simpl; split; intro H; try discriminate H; try lia.
    reflexivity.
Qed.

(** C1.  The branch taken at the end of [main] depends on the pair
    (rows_total, rows_with_qty_gt0) only: the no-rows alert exactly when
    rows_total is 0, the all-zero alert exactly when rows_total > 0 and
    rows_with_qty_gt0 is 0, the team notification exactly for every other
    pair; what [main] does is the action of that branch, an alert mail with
    the branch's reason to the alert recipient or the team mail (or, with the
    send suppressed, only a log line).  (0,0) and (5,0) take the alert
    branches and (5,3) the normal one. *)
Theorem C1_decision_three_way (rt gt : nat) :
  (decide rt gt = AlertNoRows <-> rt = 0)
  /\ (decide rt gt = AlertAllZero <-> 0 < rt /\ gt = 0)
  /\ (decide rt gt = Normal <-> ~ rt = 0 /\ ~ (0 < rt /\ gt = 0))
  /\ (forall ci, notify ci rt gt = dispatch ci (decide rt gt))
  /\ dispatch false AlertNoRows
     = SendAlertEmail "No product rows found after cleaning." EMAIL_ALERT_TO
  /\ dispatch false AlertAllZero
     = SendAlertEmail "All products have Sold QTY = 0." EMAIL_ALERT_TO
  /\ dispatch false Normal = SendEmail EMAIL_TO
  /\ decide 0 0 = AlertNoRows
  /\ decide 5 0 = AlertAllZero
  /\ decide 5 3 = Normal.
Proof.
  split; [apply decide_no_rows|].
  split; [apply decide_all_zero|].
  split.
  - rewrite decide_normal. lia.
  - split; [intro ci; apply notify_dispatch|].
    repeat split; reflexivity.
Qed.

End DecisionFacts.

Module ResolverFacts.

Import Resolver.

Section Browser.

Variable Page : Type.
Variable count : Locator -> Page -> Res nat.
Variable is_visible : Locator -> Page -> Res bool.

Local Abbreviation first_visible := (_first_visible Page count is_visible).
Local Abbreviation test := (visible_test Page count is_visible).
Local Abbreviation succeeds := (candidate_succeeds Page count is_visible).

Lemma test_true_iff (c : option Locator) (p : Page) :
  test c p = Ok true <-> succeeds c p.
Proof.
  destruct c as [l|]; simpl; [|split; [discriminate | tauto]].
  unfold matches_visible.
  destruct (count l p) as [[|n]|] eqn:Hc.
  - split; [discriminate|]. intros [[n Hn] _]. discriminate Hn.
  - split; [intro H; split; [now exists n | exact H] | tauto].
  - split; [discriminate|]. intros [[n Hn] _]. discriminate Hn.
Qed.

Lemma first_visible_skip (c : option Locator) (rest : list (option Locator))
      (p : Page) :
  ~ succeeds c p -> first_visible (c :: rest) p = first_visible rest p.
Proof.
  intro Hn. simpl.
  destruct (test c p) as [[|]|] eqn:Ht; try reflexivity.
  exfalso. apply Hn. now apply test_true_iff.
Qed.

Lemma first_visible_hit (l : Locator) (rest : list (option Locator))
      (p : Page) :
  matches_visible Page count is_visible l p ->
  first_visible (Some l :: rest) p = Ok (Some (First l)).
Proof.
  intro Hs.
  assert (Ht : test (Some l) p = Ok true) by now apply test_true_iff.
  simpl in *. now rewrite Ht.
Qed.

Lemma first_visible_never_raises (locs : list (option Locator)) (p : Page) :
  exists r, first_visible locs p = Ok r.
Proof.
  induction locs as [|c rest IH]; simpl.
  - now exists None.
  - destruct (test c p) as [[|]|]; try exact IH.
    destruct c as [l|]; [now exists (Some (First l)) | exact IH].
Qed.

Lemma first_visible_some (locs : list (option Locator)) (p : Page)
      (h : Handle) :
  first_visible locs p = Ok (Some h) <->
  exists pre l post,
    locs = pre ++ Some l :: post /\ h = First l
    /\ matches_visible Page count is_visible l p
    /\ Forall (fun c => ~ succeeds c p) pre.
Proof.
  induction locs as [|c rest IH].
  - simpl. split; [discriminate|].
    intros (pre & l & post & He & _). now destruct pre.
  - split.
    + intro H. destruct (test c p) as [[|]|] eqn:Ht.
      * apply test_true_iff in Ht. destruct c as [l|]; [|destruct Ht].
        rewrite (first_visible_hit l rest p Ht) in H.
        injection H as <-. exists [], l, rest.
        split; [reflexivity|]. split; [reflexivity|]. split; [exact Ht|].
        constructor.
      * assert (Hn : ~ succeeds c p).
        { intro Hs. apply test_true_iff in Hs. congruence. }
        rewrite (first_visible_skip c rest p Hn) in H.
        apply IH in H. destruct H as (pre & l & post & -> & Hh & Hm & Hp).
        exists (c :: pre), l, post.
        split; [reflexivity|]. split; [exact Hh|]. split; [exact Hm|].
        now constructor.
      * assert (Hn : ~ succeeds c p).
        { intro Hs. apply test_true_iff in Hs. congruence. }
        rewrite (first_visible_skip c rest p Hn) in H.
        apply IH in H. destruct H as (pre & l & post & -> & Hh & Hm & Hp).
        exists (c :: pre), l, post.
        split; [reflexivity|]. split; [exact Hh|]. split; [exact Hm|].
        now constructor.
    + intros (pre & l & post & He & -> & Hm & Hp).
      destruct pre as [|c' pre]; simpl in He; injection He as -> ->.
      * now apply first_visible_hit.
      * inversion Hp as [|? ? Hc Hp']; subst.
        rewrite (first_visible_skip c' _ p Hc). apply IH.
        exists pre, l, post.
        split; [reflexivity|]. split; [reflexivity|]. now split.
Qed.

Lemma first_visible_none (locs : list (option Locator)) (p : Page) :
  first_visible locs p = Ok None <-> Forall (fun c => ~ succeeds c p) locs.
Proof.
  induction locs as [|c rest IH].
  - simpl. split; [constructor | reflexivity].
  - split.
    + intro H. assert (Hn : ~ succeeds c p).
      { intro Hs. destruct c as [l|]; [|destruct Hs].
        rewrite (first_visible_hit l rest p Hs) in H. discriminate H. }
      rewrite (first_visible_skip c rest p Hn) in H.
      constructor; [exact Hn | now apply IH].
    + intro Hf. inversion Hf as [|? ? Hc Hr]; subst.
      rewrite (first_visible_skip c rest p Hc). now apply IH.
Qed.

(** C9.  [_first_visible] never raises.  It returns the first match of
    the first candidate, in list order, that has at least one match and
    whose first match is visible: every candidate before it failed the
    test and none after it is looked at.  A candidate whose evaluation
    raises counts as failed and the next one is tried.  It returns
    [None] exactly when no candidate succeeds. *)
Theorem C9_first_visible_resolver (locs : list (option Locator)) (p : Page) :
  (exists r, first_visible locs p = Ok r)
  /\ (forall h,
        first_visible locs p = Ok (Some h) <->
        exists pre l post,
          locs = pre ++ Some l :: post /\ h = First l
          /\ matches_visible Page count is_visible l p
          /\ Forall (fun c => ~ succeeds c p) pre)
  /\ (first_visible locs p = Ok None <->
      Forall (fun c => ~ succeeds c p) locs)
  /\ (forall c rest,
        test c p = Raise ->
        first_visible (c :: rest) p = first_visible rest p).
Proof.
  split; [apply first_visible_never_raises|].
  split; [intro h; apply first_visible_some|].
  split; [apply first_visible_none|].
  intros c rest Hr. simpl. now rewrite Hr.
Qed.

End Browser.

(** Once the sample page has rendered, the resolver finds the button. *)
Example rendered_page_resolver :
  _first_visible nat Samples.slow_count Samples.slow_is_visible
                 (map Some apply_candidates) 1
  = Ok (Some (First Samples.apply_button)).
Proof. reflexivity. Qed.

End ResolverFacts.

Module ApplyFacts.

Import Resolver.

Section Browser.

Variable Page : Type.
Variable count : Locator -> Page -> Res nat.
Variable scroll click : Locator -> Page -> Page * bool.
Variable wait enter : Page -> Page * bool.
Variable sleep : nat -> Page -> Page.

Local Abbreviation attempt :=
  (apply_attempt Page count scroll click wait sleep).
Local Abbreviation loop := (apply_loop Page count scroll click wait sleep).
Local Abbreviation click_apply' :=
  (click_apply Page count scroll click wait sleep).
Local Abbreviation apply_step' :=
  (apply_step Page count scroll click wait enter sleep).
Local Abbreviation no_match' := (no_match Page count).

Ltac run := unfold apply_attempt, try_except, bind, query, act, log,
              time_sleep, ret; simpl.

Lemma loop_skip_one (l : Locator) (rest : list Locator) (p : Page)
      (t : list Event) :
  no_match' l p -> loop (l :: rest) (p, t) = loop rest (p, t).
Proof.
  intros [H|H]; simpl; run; now rewrite H.
Qed.

Lemma loop_skip (pre rest : list Locator) (p : Page) (t : list Event) :
  Forall (fun c => no_match' c p) pre ->
  loop (pre ++ rest) (p, t) = loop rest (p, t).
Proof.
  induction 1 as [|c pre Hc _ IH]; [reflexivity|].
  rewrite <- app_comm_cons, loop_skip_one by exact Hc. exact IH.
Qed.

Lemma loop_click (l : Locator) (rest : list Locator) (n : nat)
      (p p1 p2 p3 : Page) (t : list Event) :
  count l p = Ok (S n) ->
  scroll l p = (p1, true) -> click l p1 = (p2, true) ->
  wait p2 = (p3, true) ->
  loop (l :: rest) (p, t)
  = ((sleep 1500 p3,
      t ++ [EvScroll l; EvClick l; EvWaitIdle; EvSleep 1500; EvLog Applied]),
     Ok true).
Proof.
  intros Hc Hs Hk Hw. simpl. run.
  rewrite Hc. simpl. rewrite Hs. simpl. rewrite Hk. simpl.
  rewrite Hw. simpl. now rewrite <- !app_assoc.
Qed.

Lemma loop_click_raises (l : Locator) (rest : list Locator) (n : nat)
      (p p1 p2 : Page) (t : list Event) :
  count l p = Ok (S n) ->
  scroll l p = (p1, true) -> click l p1 = (p2, false) ->
  loop (l :: rest) (p, t) = loop rest (p2, t ++ [EvScroll l; EvClick l]).
Proof.
  intros Hc Hs Hk. simpl. run.
  rewrite Hc. simpl. rewrite Hs. simpl. rewrite Hk. simpl.
  now rewrite <- !app_assoc.
Qed.

Lemma loop_scroll_raises (l : Locator) (rest : list Locator) (n : nat)
      (p p1 : Page) (t : list Event) :
  count l p = Ok (S n) -> scroll l p = (p1, false) ->
  loop (l :: rest) (p, t) = loop rest (p1, t ++ [EvScroll l]).
Proof.
  intros Hc Hs. simpl. run. rewrite Hc. simpl. rewrite Hs. reflexivity.
Qed.

Lemma loop_wait_raises (l : Locator) (rest : list Locator) (n : nat)
      (p p1 p2 p3 : Page) (t : list Event) :
  count l p = Ok (S n) ->
  scroll l p = (p1, true) -> click l p1 = (p2, true) ->
  wait p2 = (p3, false) ->
  loop (l :: rest) (p, t)
  = loop rest (p3, t ++ [EvScroll l; EvClick l; EvWaitIdle]).
Proof.
  intros Hc Hs Hk Hw. simpl. run.
  rewrite Hc. simpl. rewrite Hs. simpl. rewrite Hk. simpl.
  rewrite Hw. simpl. now rewrite <- !app_assoc.
Qed.

Lemma loop_never_raises (cands : list Locator) (w : World Page) :
  exists w' b, loop cands w = (w', Ok b).
Proof.
  revert w. induction cands as [|l rest IH]; intro w.
  - simpl. run. now eexists _, false.
  - simpl.
    destruct (try_except Page (attempt l) (ret Page false) w)
      as [w' [[|]|]].
    + now exists w', true.
    + apply IH.
    + apply IH.
Qed.

Lemma loop_none (cands : list Locator) (p : Page) (t : list Event) :
  Forall (fun c => no_match' c p) cands ->
  loop cands (p, t) = ((p, t ++ [EvLog NoApplyButton]), Ok false).
Proof.
  intro H. rewrite <- (app_nil_r cands), (loop_skip _ _ _ _ H). reflexivity.
Qed.

Lemma click_apply_eq (p : Page) (t : list Event) :
  click_apply' (p, t) = loop apply_candidates (p, t ++ [EvLog ClickingApply]).
Proof. reflexivity. Qed.

(** C10, as the script has it.  [click_apply] never raises.  It passes
    over the candidates that have no match (or whose lookup raises), in
    list order, and at the first candidate with at least one match it
    scrolls to the first match, clicks it, waits for network idle and
    sleeps 1.5 s, logs and returns [True]: whether that match is visible
    is not tested.  A candidate on which the scroll, the click or the
    wait raises is left and the next one is tried.  When no candidate has
    a match it returns
    [False] without having clicked, and the Apply step presses Enter,
    waits for network idle and sleeps 1.0 s; whatever the fallback does,
    raising included, the step ends normally with its final log line. *)
Theorem C10_apply_step_as_coded (p : Page) (t : list Event) :
  (exists w' b, click_apply' (p, t) = (w', Ok b))
  /\ (forall pre l post n p1 p2 p3,
        apply_candidates = pre ++ l :: post ->
        Forall (fun c => no_match' c p) pre ->
        count l p = Ok (S n) ->
        scroll l p = (p1, true) -> click l p1 = (p2, true) ->
        wait p2 = (p3, true) ->
        click_apply' (p, t)
        = ((sleep 1500 p3,
            t ++ [EvLog ClickingApply; EvScroll l; EvClick l; EvWaitIdle;
                  EvSleep 1500; EvLog Applied]),
           Ok true))
  /\ (forall l rest n p1 p2 t0,
        count l p = Ok (S n) ->
        scroll l p = (p1, true) -> click l p1 = (p2, false) ->
        loop (l :: rest) (p, t0)
        = loop rest (p2, t0 ++ [EvScroll l; EvClick l]))
  /\ (Forall (fun c => no_match' c p) apply_candidates ->
      click_apply' (p, t)
      = ((p, t ++ [EvLog ClickingApply; EvLog NoApplyButton]), Ok false)
      /\ exists p' t',
          apply_step' (p, t)
          = ((p', t ++ [EvLog ClickingApply; EvLog NoApplyButton;
                        EvPressEnter] ++ t' ++ [EvLog FiltersApplied]),
             Ok tt)
          /\ (t' = [] \/ t' = [EvWaitIdle]
              \/ t' = [EvWaitIdle; EvSleep 1000; EvLog AppliedViaEnter]))
  /\ (forall l rest n p1 t0,
        count l p = Ok (S n) -> scroll l p = (p1, false) ->
        loop (l :: rest) (p, t0) = loop rest (p1, t0 ++ [EvScroll l]))
  /\ (forall l rest n p1 p2 p3 t0,
        count l p = Ok (S n) ->
        scroll l p = (p1, true) -> click l p1 = (p2, true) ->
        wait p2 = (p3, false) ->
        loop (l :: rest) (p, t0)
        = loop rest (p3, t0 ++ [EvScroll l; EvClick l; EvWaitIdle])).
Proof.
  split; [|split; [|split; [|split; [|split]]]];
    [| | | | intros l rest n p1 t0; apply loop_scroll_raises
     | intros l rest n p1 p2 p3 t0; apply loop_wait_raises].
  - rewrite click_apply_eq. apply loop_never_raises.
  - intros pre l post n p1 p2 p3 He Hpre Hc Hs Hk Hw.
    rewrite click_apply_eq, He.
    rewrite (loop_skip _ _ _ _ Hpre).
    rewrite (loop_click l post n p p1 p2 p3 _ Hc Hs Hk Hw).
    now rewrite <- app_assoc.
  - intros l rest n p1 p2 t0. apply loop_click_raises.
  - intro Hall.
    assert (Hca : click_apply' (p, t)
                  = ((p, t ++ [EvLog ClickingApply; EvLog NoApplyButton]),
                     Ok false)).
    { rewrite click_apply_eq, (loop_none _ _ _ Hall).
      now rewrite <- app_assoc. }
    split; [exact Hca|].
    unfold apply_step, bind. rewrite Hca. run.
    destruct (enter p) as [pa [|]]; simpl.
    + destruct (wait pa) as [pb [|]]; simpl.
      * exists (sleep 1000 pb),
          [EvWaitIdle; EvSleep 1000; EvLog AppliedViaEnter].
        split; [|now right; right].
        now rewrite <- !app_assoc.
      * exists pb, [EvWaitIdle]. split; [|now right; left].
        now rewrite <- !app_assoc.
    + exists pa, []. split; [|now left].
      now rewrite <- !app_assoc.
Qed.

End Browser.

Import Samples.

(** On the page that is still rendering, the resolver finds the caption
    (the button does not show yet), while [click_apply] scrolls to the
    button, clicks it and reports success. *)
Lemma C10_slow_page_resolver :
  _first_visible nat slow_count slow_is_visible (map Some apply_candidates) 0
  = Ok (Some (First apply_text)).
Proof. reflexivity. Qed.

Lemma C10_slow_page_click_apply :
  click_apply nat slow_count slow_scroll slow_click slow_wait slow_sleep
              (0, [])
  = ((1, [EvLog ClickingApply; EvScroll apply_button; EvClick apply_button;
          EvWaitIdle; EvSleep 1500; EvLog Applied]), Ok true).
Proof. reflexivity. Qed.

(** C10 as stated fails: on the page that is still rendering, the first
    visible match among the candidates is the caption, and the Apply step
    clicks the button, which was not visible when the step began. *)
Lemma C10_counterexample :
  ~ clicks_first_visible nat slow_count slow_is_visible slow_scroll
      slow_click slow_wait slow_sleep 0.
Proof.
  intro H. destruct (H apply_text C10_slow_page_resolver) as (w' & Hw & Hc).
  rewrite C10_slow_page_click_apply in Hw. injection Hw as <-.
  simpl in Hc. discriminate Hc.
Qed.

(** C10 on the two sample pages: the button is clicked on the rendering
    page, and Enter is pressed on the page without an Apply control. *)
Lemma C10_witness :
  click_apply nat slow_count slow_scroll slow_click slow_wait slow_sleep
              (0, [])
  = ((slow_sleep 1500 1,
      [] ++ [EvLog ClickingApply; EvScroll apply_button; EvClick apply_button;
             EvWaitIdle; EvSleep 1500; EvLog Applied]), Ok true)
  /\ click_apply unit bare_count bare_action bare_action bare_wait bare_sleep
                 (tt, [])
     = ((tt, [] ++ [EvLog ClickingApply; EvLog NoApplyButton]), Ok false).
Proof.
  split.
  - apply (proj1 (proj2 (C10_apply_step_as_coded nat slow_count slow_scroll
                           slow_click slow_wait slow_wait slow_sleep 0 []))
             [GetByRole "button" "^\s*Apply\s*$"] apply_button
             (tl (tl apply_candidates)) 0 1 1 1); try reflexivity.
    repeat constructor.
  - refine (proj1 (proj1 (proj2 (proj2 (proj2 (C10_apply_step_as_coded unit
                           bare_count bare_action bare_action bare_wait
                           bare_enter bare_sleep tt [])))) _)).
    repeat constructor.
Defined.

End ApplyFacts.

Module HeaderFacts.

Import PyStr Transform Samples.

Lemma covers_required_spec (vals : list string) :
  covers_required vals = true <->
  forall h, In h REQUIRED -> exists v, In v vals /\ lower h = lower v.
Proof.
  unfold covers_required. rewrite forallb_forall.
  split; intros H h Hh; specialize (H h Hh).
  - apply existsb_exists in H. destruct H as (v & Hv & He).
    exists v. split; [exact Hv | now apply String.eqb_eq].
  - apply existsb_exists. destruct H as (v & Hv & He).
    exists v. split; [exact Hv | now apply String.eqb_eq].
Qed.


Lemma scan_header_some (raw : RawTable) (n a i : nat) :
  scan_header (seq a n) raw = Some i <->
  a <= i < a + n
  /\ covers_required (row_vals (nth i raw [])) = true
  /\ forall j, a <= j < i ->
               covers_required (row_vals (nth j raw [])) <> true.
Proof.
  revert a. induction n as [|n IH]; intro a; simpl.
  - split; [discriminate | lia].
  - destruct (covers_required (row_vals (nth a raw []))) eqn:Ha.
    + split.
      * intro H. injection H as <-. repeat split; [lia | lia | exact Ha |].
        intros j Hj. lia.
      * intros (Hr & Hc & Hm). f_equal.
        destruct (Nat.eq_dec a i) as [E|E]; [exact E|].
        exfalso. apply (Hm a); [lia | exact Ha].
    + rewrite IH. split.
      * intros (Hr & Hc & Hm). repeat split; [lia | lia | exact Hc |].
        intros j Hj. destruct (Nat.eq_dec j a) as [->|E]; [congruence|].
        apply Hm. lia.
      * intros (Hr & Hc & Hm).
        assert (a <> i) by (intros ->; congruence).
        repeat split; [lia | lia | exact Hc |].
        intros j Hj. apply Hm. lia.
Qed.

Lemma scan_header_none (raw : RawTable) (n a : nat) :
  scan_header (seq a n) raw = None <->
  forall j, a <= j < a + n ->
            covers_required (row_vals (nth j raw [])) <> true.
Proof.
  revert a. induction n as [|n IH]; intro a; simpl.
  - split; [intros _ j Hj; lia | reflexivity].
  - destruct (covers_required (row_vals (nth a raw []))) eqn:Ha.
    + split; [discriminate|]. intro H. exfalso. apply (H a); [lia | exact Ha].
    + rewrite IH. split; intros H j Hj.
      * destruct (Nat.eq_dec j a) as [->|E]; [congruence | apply H; lia].
      * apply H. lia.
Qed.




End HeaderFacts.

Module TextFacts.

Import PyStr Transform.

(** **** Trimming and removing characters *)

Lemma has_char_remove (c : ascii) (s : string) :
  has_char c (remove_char c s) = false.
Proof.
  induction s as [|d s IH]; [reflexivity|].
  cbn [remove_char]. destruct (Ascii.eqb c d) eqn:E; [exact IH|].
  cbn [has_char]. now rewrite E, IH.
Qed.

Lemma remove_char_absent (c : ascii) (s : string) :
  has_char c s = false -> remove_char c s = s.
Proof.
  induction s as [|d s IH]; [reflexivity|].
  cbn [has_char remove_char]. intro H.
  apply orb_false_iff in H. destruct H as [E Hs].
  now rewrite E, (IH Hs).
Qed.

Lemma has_char_remove_other (c d : ascii) (s : string) :
  has_char c s = false -> has_char c (remove_char d s) = false.
Proof.
  induction s as [|x s IH]; [reflexivity|].
  cbn [has_char remove_char]. intro H.
  apply orb_false_iff in H. destruct H as [E Hs].
  destruct (Ascii.eqb d x); [now apply IH|].
  cbn [has_char]. now rewrite E, (IH Hs).
Qed.

Lemma has_char_lstrip (c : ascii) (s : string) :
  has_char c s = false -> has_char c (lstrip s) = false.
Proof.
  induction s as [|x s IH]; [reflexivity|].
  cbn [lstrip]. destruct (is_space x); [|tauto].
  cbn [has_char]. intro H. apply orb_false_iff in H. now apply IH.
Qed.

Lemma has_char_rstrip (c : ascii) (s : string) :
  has_char c s = false -> has_char c (rstrip s) = false.
Proof.
  induction s as [|x s IH]; [reflexivity|].
  cbn [has_char rstrip]. intro H.
  apply orb_false_iff in H. destruct H as [E Hs]. specialize (IH Hs).
  destruct (rstrip s) as [|y r].
  - destruct (is_space x); [reflexivity|]. cbn [has_char]. now rewrite E.
  - cbn [has_char] in *. now rewrite E, IH.
Qed.

Lemma rstrip_idem (s : string) : rstrip (rstrip s) = rstrip s.
Proof.
  induction s as [|x s IH]; [reflexivity|].
  cbn [rstrip]. destruct (rstrip s) as [|y r] eqn:E.
  - destruct (is_space x) eqn:Hx; [reflexivity|].
    cbn [rstrip]. now rewrite Hx.
  - cbn [rstrip] in *. now rewrite IH.
Qed.

Lemma lstrip_solid (s : string) : starts_solid (lstrip s).
Proof.
  induction s as [|x s IH]; [exact I|].
  cbn [lstrip]. destruct (is_space x) eqn:Hx; [exact IH | exact Hx].
Qed.

Lemma rstrip_solid (s : string) : starts_solid s -> starts_solid (rstrip s).
Proof.
  destruct s as [|x s]; [trivial|].
  cbn [starts_solid rstrip]. intro Hx.
  destruct (rstrip s); [now rewrite Hx | exact Hx].
Qed.

Lemma lstrip_of_solid (s : string) : starts_solid s -> lstrip s = s.
Proof.
  destruct s as [|x s]; [reflexivity|].
  cbn [starts_solid lstrip]. now intros ->.
Qed.

Lemma strip_idem (s : string) : strip (strip s) = strip s.
Proof.
  unfold strip.
  rewrite (lstrip_of_solid (rstrip (lstrip s))).
  - apply rstrip_idem.
  - apply rstrip_solid, lstrip_solid.
Qed.

Lemma has_char_strip (c : ascii) (s : string) :
  has_char c s = false -> has_char c (strip s) = false.
Proof. intro H. now apply has_char_rstrip, has_char_lstrip. Qed.

Lemma cleaned_no_dollar (s : string) : has_char "$" (cleaned s) = false.
Proof. apply has_char_strip, has_char_remove_other, has_char_remove. Qed.

Lemma cleaned_no_comma (s : string) : has_char "," (cleaned s) = false.
Proof. apply has_char_strip, has_char_remove. Qed.

Lemma cleaned_idem (s : string) : cleaned (cleaned s) = cleaned s.
Proof.
  unfold cleaned at 1.
  rewrite (remove_char_absent "$" _ (cleaned_no_dollar s)).
  rewrite (remove_char_absent "," _ (cleaned_no_comma s)).
  apply strip_idem.
Qed.

End TextFacts.

Module NumeralFacts.

Import PyStr Transform Text TextFacts Wording.

(** **** Reading back the numeral of an integer *)

Lemma take_digits_step (c : ascii) (s : string) (acc dz : Z) (cnt : nat) :
  digit_val c = Some dz ->
  take_digits (String c s) acc cnt = take_digits s (10 * acc + dz)%Z (S cnt).
Proof. intro H. cbn [take_digits]. now rewrite H. Qed.

Ltac digit_step k :=
  cbn [NilEmpty.string_of_uint Pos.of_uint_acc Pos.of_uint Decimal.nb_digits];
  rewrite (take_digits_step _ _ _ k) by reflexivity.

Lemma take_digits_acc (d : Decimal.uint) (acc : positive) (cnt : nat) :
  take_digits (NilEmpty.string_of_uint d) (Z.pos acc) cnt
  = (Z.pos (Pos.of_uint_acc d acc), (cnt + Decimal.nb_digits d)%nat, "").
Proof.
  revert acc cnt.
  induction d as [|d IH|d IH|d IH|d IH|d IH|d IH|d IH|d IH|d IH|d IH];
    intros acc cnt.
  - cbn. now rewrite Nat.add_0_r.
  - digit_step 0%Z.
    replace (10 * Z.pos acc + 0)%Z with (Z.pos (Pos.mul 10 acc)) by lia.
    rewrite IH. do 2 f_equal. lia.
  - digit_step 1%Z.
    replace (10 * Z.pos acc + 1)%Z
      with (Z.pos (Pos.add 1 (Pos.mul 10 acc))) by lia.
    rewrite IH. do 2 f_equal. lia.
  - digit_step 2%Z.
    replace (10 * Z.pos acc + 2)%Z
      with (Z.pos (Pos.add 2 (Pos.mul 10 acc))) by lia.
    rewrite IH. do 2 f_equal. lia.
  - digit_step 3%Z.
    replace (10 * Z.pos acc + 3)%Z
      with (Z.pos (Pos.add 3 (Pos.mul 10 acc))) by lia.
    rewrite IH. do 2 f_equal. lia.
  - digit_step 4%Z.
    replace (10 * Z.pos acc + 4)%Z
      with (Z.pos (Pos.add 4 (Pos.mul 10 acc))) by lia.
    rewrite IH. do 2 f_equal. lia.
  - digit_step 5%Z.
    replace (10 * Z.pos acc + 5)%Z
      with (Z.pos (Pos.add 5 (Pos.mul 10 acc))) by lia.
    rewrite IH. do 2 f_equal. lia.
  - digit_step 6%Z.
    replace (10 * Z.pos acc + 6)%Z
      with (Z.pos (Pos.add 6 (Pos.mul 10 acc))) by lia.
    rewrite IH. do 2 f_equal. lia.
  - digit_step 7%Z.
    replace (10 * Z.pos acc + 7)%Z
      with (Z.pos (Pos.add 7 (Pos.mul 10 acc))) by lia.
    rewrite IH. do 2 f_equal. lia.
  - digit_step 8%Z.
    replace (10 * Z.pos acc + 8)%Z
      with (Z.pos (Pos.add 8 (Pos.mul 10 acc))) by lia.
    rewrite IH. do 2 f_equal. lia.
  - digit_step 9%Z.
    replace (10 * Z.pos acc + 9)%Z
      with (Z.pos (Pos.add 9 (Pos.mul 10 acc))) by lia.
    rewrite IH. do 2 f_equal. lia.
Qed.

Lemma take_digits_uint (d : Decimal.uint) (cnt : nat) :
  take_digits (NilEmpty.string_of_uint d) 0 cnt
  = (Z.of_N (Pos.of_uint d), (cnt + Decimal.nb_digits d)%nat, "").
Proof.
  revert cnt.
  induction d as [|d IH|d _|d _|d _|d _|d _|d _|d _|d _|d _]; intro cnt.
  - cbn. now rewrite Nat.add_0_r.
  - digit_step 0%Z. change (10 * 0 + 0)%Z with 0%Z.
    rewrite IH. do 2 f_equal. lia.
  - digit_step 1%Z. change (10 * 0 + 1)%Z with (Z.pos 1).
    rewrite take_digits_acc. cbn [Z.of_N]. do 2 f_equal. lia.
  - digit_step 2%Z. change (10 * 0 + 2)%Z with (Z.pos 2).
    rewrite take_digits_acc. cbn [Z.of_N]. do 2 f_equal. lia.
  - digit_step 3%Z. change (10 * 0 + 3)%Z with (Z.pos 3).
    rewrite take_digits_acc. cbn [Z.of_N]. do 2 f_equal. lia.
  - digit_step 4%Z. change (10 * 0 + 4)%Z with (Z.pos 4).
    rewrite take_digits_acc. cbn [Z.of_N]. do 2 f_equal. lia.
  - digit_step 5%Z. change (10 * 0 + 5)%Z with (Z.pos 5).
    rewrite take_digits_acc. cbn [Z.of_N]. do 2 f_equal. lia.
  - digit_step 6%Z. change (10 * 0 + 6)%Z with (Z.pos 6).
    rewrite take_digits_acc. cbn [Z.of_N]. do 2 f_equal. lia.
  - digit_step 7%Z. change (10 * 0 + 7)%Z with (Z.pos 7).
    rewrite take_digits_acc. cbn [Z.of_N]. do 2 f_equal. lia.
  - digit_step 8%Z. change (10 * 0 + 8)%Z with (Z.pos 8).
    rewrite take_digits_acc. cbn [Z.of_N]. do 2 f_equal. lia.
  - digit_step 9%Z. change (10 * 0 + 9)%Z with (Z.pos 9).
    rewrite take_digits_acc. cbn [Z.of_N]. do 2 f_equal. lia.
Qed.

Lemma take_sign_uint (d : Decimal.uint) :
  take_sign (NilEmpty.string_of_uint d) = (false, NilEmpty.string_of_uint d).
Proof. destruct d; reflexivity. Qed.

Lemma nb_digits_nonnil (d : Decimal.uint) :
  d <> Decimal.Nil -> exists k, Decimal.nb_digits d = S k.
Proof. destruct d; [contradiction | | | | | | | | | |]; eexists; reflexivity. Qed.

(** **** Runs of digits *)

Lemma digit_val_cases (c : ascii) (z : Z) :
  digit_val c = Some z ->
  In (c, z) [("0"%char, 0%Z); ("1"%char, 1%Z); ("2"%char, 2%Z);
             ("3"%char, 3%Z); ("4"%char, 4%Z); ("5"%char, 5%Z);
             ("6"%char, 6%Z); ("7"%char, 7%Z); ("8"%char, 8%Z);
             ("9"%char, 9%Z)].
Proof.
  destruct c as [[|] [|] [|] [|] [|] [|] [|] [|]];
    intro H; try discriminate H; injection H as <-; cbn; tauto.
Qed.

Lemma digits_value_nonneg (d : Decimal.uint) : (0 <= digits_value d)%Z.
Proof.
  induction d as [|d IH|d IH|d IH|d IH|d IH|d IH|d IH|d IH|d IH|d IH];
    cbn [digits_value]; unfold weight; [lia | ..];
    pose proof (Z.pow_nonneg 10 (Z.of_nat (Decimal.nb_digits d)));
    lia.
Qed.

Ltac run_step k :=
  cbn [digits_text NilEmpty.string_of_uint String.append digits_value
       Decimal.nb_digits];
  rewrite (take_digits_step _ _ _ k) by reflexivity.

(** Reading a run of digits that is followed by something else gives
    the number the digits write, on top of what was read before. *)
Lemma take_digits_run (d : Decimal.uint) (rest : string) (acc : Z)
      (cnt : nat) :
  no_digit_ahead rest ->
  take_digits (String.append (digits_text d) rest) acc cnt
  = ((acc * 10 ^ Z.of_nat (Decimal.nb_digits d) + digits_value d)%Z,
     (cnt + Decimal.nb_digits d)%nat, rest).
Proof.
  intro Hr. revert acc cnt.
  induction d as [|d IH|d IH|d IH|d IH|d IH|d IH|d IH|d IH|d IH|d IH];
    intros acc cnt.
  - cbn [digits_text NilEmpty.string_of_uint String.append digits_value
         Decimal.nb_digits].
    rewrite Nat.add_0_r. change (10 ^ Z.of_nat 0)%Z with 1%Z.
    replace (acc * 1 + 0)%Z with acc by lia.
    destruct rest as [|c r]; [reflexivity|].
    cbn [no_digit_ahead] in Hr. cbn [take_digits]. now rewrite Hr.
  - run_step 0%Z. unfold digits_text in IH. rewrite IH.
    unfold weight. rewrite Nat2Z.inj_succ, Z.pow_succ_r by lia.
    f_equal; f_equal; lia.
  - run_step 1%Z. unfold digits_text in IH. rewrite IH.
    unfold weight. rewrite Nat2Z.inj_succ, Z.pow_succ_r by lia.
    f_equal; f_equal; lia.
  - run_step 2%Z. unfold digits_text in IH. rewrite IH.
    unfold weight. rewrite Nat2Z.inj_succ, Z.pow_succ_r by lia.
    f_equal; f_equal; lia.
  - run_step 3%Z. unfold digits_text in IH. rewrite IH.
    unfold weight. rewrite Nat2Z.inj_succ, Z.pow_succ_r by lia.
    f_equal; f_equal; lia.
  - run_step 4%Z. unfold digits_text in IH. rewrite IH.
    unfold weight. rewrite Nat2Z.inj_succ, Z.pow_succ_r by lia.
    f_equal; f_equal; lia.
  - run_step 5%Z. unfold digits_text in IH. rewrite IH.
    unfold weight. rewrite Nat2Z.inj_succ, Z.pow_succ_r by lia.
    f_equal; f_equal; lia.
  - run_step 6%Z. unfold digits_text in IH. rewrite IH.
    unfold weight. rewrite Nat2Z.inj_succ, Z.pow_succ_r by lia.
    f_equal; f_equal; lia.
  - run_step 7%Z. unfold digits_text in IH. rewrite IH.
    unfold weight. rewrite Nat2Z.inj_succ, Z.pow_succ_r by lia.
    f_equal; f_equal; lia.
  - run_step 8%Z. unfold digits_text in IH. rewrite IH.
    unfold weight. rewrite Nat2Z.inj_succ, Z.pow_succ_r by lia.
    f_equal; f_equal; lia.
  - run_step 9%Z. unfold digits_text in IH. rewrite IH.
    unfold weight. rewrite Nat2Z.inj_succ, Z.pow_succ_r by lia.
    f_equal; f_equal; lia.
Qed.

(** Every text is a run of digits followed by a text that does not begin
    with a digit. *)
Lemma digits_split (s : string) :
  exists d rest,
    s = String.append (digits_text d) rest /\ no_digit_ahead rest.
Proof.
  induction s as [|c s IH].
  - exists Decimal.Nil, "". now split.
  - destruct IH as (d & rest & -> & Hr).
    destruct (digit_val c) as [z|] eqn:Hc.
    + apply digit_val_cases in Hc. cbn [In] in Hc.
      destruct Hc as [E|[E|[E|[E|[E|[E|[E|[E|[E|[E|E]]]]]]]]]];
        [injection E as <- <-..|destruct E].
      * exists (Decimal.D0 d), rest. now split.
      * exists (Decimal.D1 d), rest. now split.
      * exists (Decimal.D2 d), rest. now split.
      * exists (Decimal.D3 d), rest. now split.
      * exists (Decimal.D4 d), rest. now split.
      * exists (Decimal.D5 d), rest. now split.
      * exists (Decimal.D6 d), rest. now split.
      * exists (Decimal.D7 d), rest. now split.
      * exists (Decimal.D8 d), rest. now split.
      * exists (Decimal.D9 d), rest. now split.
    + exists Decimal.Nil, (String c (String.append (digits_text d) rest)).
      split; [reflexivity | exact Hc].
Qed.

Lemma append_nil (s : string) : String.append s "" = s.
Proof. induction s as [|c s IH]; [reflexivity|]. cbn. now rewrite IH. Qed.

Lemma append_assoc (a b c : string) :
  String.append (String.append a b) c = String.append a (String.append b c).
Proof. induction a as [|x a IH]; [reflexivity|]. cbn. now rewrite IH. Qed.

(** The number a run of digits writes is the one the Standard Library
    reads from it. *)
Lemma digits_value_of_uint (d : Decimal.uint) :
  digits_value d = Z.of_N (Pos.of_uint d).
Proof.
  pose proof (take_digits_uint d 0) as H1.
  pose proof (take_digits_run d "" 0 0 I) as H2.
  rewrite append_nil in H2. unfold digits_text in H2.
  rewrite H1 in H2. injection H2 as H2. lia.
Qed.

Lemma digits_value_to_uint (p : positive) :
  digits_value (Pos.to_uint p) = Z.pos p.
Proof.
  rewrite digits_value_of_uint, DecimalPos.Unsigned.of_to. reflexivity.
Qed.

(** The numeral of a positive number does not begin with 0. *)
Lemma to_uint_head (p : positive) (d : Decimal.uint) :
  Pos.to_uint p <> Decimal.D0 d.
Proof.
  intro E.
  pose proof (DecimalPos.Unsigned.to_of (Pos.to_uint p)) as H.
  rewrite DecimalPos.Unsigned.of_to in H. cbn [N.to_uint] in H.
  rewrite E in H. unfold Decimal.unorm in H. cbn [Decimal.nzhead] in H.
  pose proof (DecimalFacts.nb_digits_nzhead d) as Hn.
  destruct (Decimal.nzhead d) as [|u|u|u|u|u|u|u|u|u|u] eqn:Hz;
    try discriminate H.
  - injection H as Hd. subst d.
    apply (DecimalPos.Unsigned.to_uint_nonzero p). exact E.
  - injection H as Hd. subst d. cbn [Decimal.nb_digits] in Hn. lia.
Qed.

Lemma digits_value_lower (d : Decimal.uint) :
  d <> Decimal.Nil -> (forall d', d <> Decimal.D0 d') ->
  (10 ^ Z.of_nat (Decimal.nb_digits d - 1) <= digits_value d)%Z.
Proof.
  intros Hn Hz.
  destruct d as [|d|d|d|d|d|d|d|d|d|d];
    [contradiction | now contradiction (Hz d) | ..];
    cbn [digits_value Decimal.nb_digits]; unfold weight;
    replace (S (Decimal.nb_digits d) - 1)%nat with (Decimal.nb_digits d)
      by lia;
    pose proof (digits_value_nonneg d);
    pose proof (Z.pow_pos_nonneg 10 (Z.of_nat (Decimal.nb_digits d)));
    lia.
Qed.

(** A positive number below 10^15 is written with at most 15 digits. *)
Lemma numeral_digits_bound (p : positive) :
  (Z.pos p < 10 ^ 15)%Z -> (Decimal.nb_digits (Pos.to_uint p) <= 15)%nat.
Proof.
  intro Hp.
  pose proof (digits_value_lower (Pos.to_uint p)
                (DecimalPos.Unsigned.to_uint_nonnil p) (to_uint_head p)) as H.
  rewrite digits_value_to_uint in H.
  destruct (Nat.le_gt_cases (Decimal.nb_digits (Pos.to_uint p)) 15)
    as [Hle|Hgt]; [exact Hle|].
  exfalso.
  assert (Hpow : (10 ^ 15 <= 10 ^ Z.of_nat
                    (Decimal.nb_digits (Pos.to_uint p) - 1))%Z).
  { apply Z.pow_le_mono_r; lia. }
  lia.
Qed.

(** **** Decimal literals *)

Lemma take_sign_text (sg : Sign) (rest : string) :
  no_sign_ahead rest ->
  take_sign (String.append (sign_text sg) rest) = (negative sg, rest).
Proof.
  intro H. destruct sg; cbn; try reflexivity.
  destruct rest as [|c r]; [reflexivity|].
  cbn [no_sign_ahead] in H. destruct H as [H1 H2].
  destruct c as [[|] [|] [|] [|] [|] [|] [|] [|]];
    try reflexivity; [now contradiction H2 | now contradiction H1].
Qed.

Lemma take_sign_inv (s s1 : string) (neg : bool) :
  take_sign s = (neg, s1) ->
  exists sg, s = String.append (sign_text sg) s1 /\ neg = negative sg.
Proof.
  destruct s as [|c r].
  - cbn. intro H. injection H as <- <-. now exists NoSign.
  - destruct c as [[|] [|] [|] [|] [|] [|] [|] [|]];
      cbn; intro H; injection H as <- <-;
      first [ now exists NoSign | now exists Minus | now exists Plus ].
Qed.

Lemma digits_no_sign (d : Decimal.uint) (rest : string) :
  d <> Decimal.Nil -> no_sign_ahead (String.append (digits_text d) rest).
Proof.
  destruct d; [contradiction | ..]; intros _; cbn; split; discriminate.
Qed.

Lemma exponent_no_digit (x : option Exponent) :
  no_digit_ahead (exponent_text x).
Proof. destruct x as [[[|] sg d]|]; reflexivity. Qed.

Lemma take_exponent_text (x : option Exponent) :
  match x with Some x => exp_digits x <> Decimal.Nil | None => True end ->
  take_exponent (exponent_text x) = Some (exponent_value x).
Proof.
  destruct x as [[cap sg d]|]; [|reflexivity].
  cbn [exp_digits]. intro Hd.
  assert (E : take_exponent (exponent_text (Some (mkExponent cap sg d)))
              = let (neg, s1) :=
                  take_sign (String.append (sign_text sg) (digits_text d)) in
                match take_digits s1 0 0 with
                | (_, 0%nat, _) => None
                | (v, S _, EmptyString) => Some (signed neg v)
                | (_, S _, String _ _) => None
                end)
    by (destruct cap; reflexivity).
  rewrite E.
  rewrite <- (append_nil (digits_text d)) at 1.
  rewrite take_sign_text by (apply digits_no_sign, Hd).
  rewrite take_digits_run by exact I.
  destruct (nb_digits_nonnil d Hd) as [k ->].
  cbn [Nat.add exponent_value exp_sign exp_digits].
  reflexivity.
Qed.

Lemma take_exponent_inv (s : string) (ex : Z) :
  take_exponent s = Some ex ->
  exists x,
    match x with Some x => exp_digits x <> Decimal.Nil | None => True end
    /\ s = exponent_text x /\ ex = exponent_value x.
Proof.
  destruct s as [|c s].
  - cbn. intro H. injection H as <-. now exists None.
  - cbn [take_exponent].
    destruct (Ascii.eqb (lower_char c) "e") eqn:Hc; [|discriminate].
    destruct (take_sign s) as [neg s1] eqn:Hs.
    destruct (take_sign_inv _ _ _ Hs) as (sg & -> & ->).
    destruct (digits_split s1) as (d & rest & -> & Hr).
    rewrite take_digits_run by exact Hr.
    destruct (Decimal.nb_digits d) as [|k] eqn:Hk; [discriminate|].
    cbn [Nat.add]. destruct rest as [|c' r]; [|discriminate].
    intro H. injection H as <-.
    assert (Hcap : c = "e"%char \/ c = "E"%char).
    { destruct c as [[|] [|] [|] [|] [|] [|] [|] [|]];
        try discriminate Hc; tauto. }
    assert (Hd : d <> Decimal.Nil) by (intros ->; discriminate Hk).
    rewrite append_nil.
    destruct Hcap as [-> | ->].
    + exists (Some (mkExponent false sg d)).
      split; [exact Hd|]. split; reflexivity.
    + exists (Some (mkExponent true sg d)).
      split; [exact Hd|]. split; reflexivity.
Qed.

(** The texts that [decimal_literal] reads are the decimal literals, and
    it reads each as the number the literal writes. *)
Lemma decimal_literal_text (l : Literal) :
  well_formed l ->
  decimal_literal (literal_text l)
  = Some (literal_mantissa l, literal_exponent l, literal_digits l).
Proof.
  destruct l as [sg w fo xo]. unfold well_formed, literal_text,
    literal_mantissa, literal_exponent, literal_digits, frac_digits.
  cbn [lit_sign lit_whole lit_frac lit_exp]. intros [Hn Hx].
  unfold decimal_literal.
  assert (Hsign : no_sign_ahead
                    (String.append (digits_text w)
                       (String.append (frac_text fo) (exponent_text xo)))).
  { destruct w; try (cbn; split; discriminate).
    destruct fo as [f|]; [cbn; split; discriminate|].
    cbn [Decimal.nb_digits Nat.add] in Hn. lia. }
  rewrite take_sign_text by exact Hsign.
  assert (Hrest : no_digit_ahead
                    (String.append (frac_text fo) (exponent_text xo))).
  { destruct fo as [f|]; [reflexivity | apply exponent_no_digit]. }
  rewrite take_digits_run by exact Hrest.
  destruct fo as [f|].
  - cbn [frac_text String.append].
    rewrite take_digits_run by apply exponent_no_digit.
    destruct (Decimal.nb_digits w + Decimal.nb_digits f)%nat eqn:Hk; [lia|].
    cbn [Nat.add]. rewrite Hk.
    rewrite take_exponent_text by exact Hx.
    reflexivity.
  - cbn [frac_text String.append Decimal.nb_digits digits_value].
    assert (Hdot : (match exponent_text xo with
                    | String "." r =>
                        take_digits r
                          (0 * 10 ^ Z.of_nat (Decimal.nb_digits w)
                           + digits_value w)%Z 0
                    | _ => ((0 * 10 ^ Z.of_nat (Decimal.nb_digits w)
                             + digits_value w)%Z, 0%nat, exponent_text xo)
                    end)
                   = ((0 * 10 ^ Z.of_nat (Decimal.nb_digits w)
                       + digits_value w)%Z, 0%nat, exponent_text xo)).
    { destruct xo as [[[|] sg' d]|]; reflexivity. }
    rewrite Hdot. cbn [Nat.add].
    rewrite Nat.add_0_r in Hn |- *.
    destruct (Decimal.nb_digits w) eqn:Hk; [lia|].
    rewrite take_exponent_text by exact Hx.
    do 4 f_equal. change (10 ^ Z.of_nat 0)%Z with 1%Z. lia.
Qed.

Lemma decimal_literal_inv (s : string) (m e : Z) (n : nat) :
  decimal_literal s = Some (m, e, n) ->
  exists l,
    well_formed l /\ s = literal_text l
    /\ m = literal_mantissa l /\ e = literal_exponent l
    /\ n = literal_digits l.
Proof.
  unfold decimal_literal.
  destruct (take_sign s) as [neg s1] eqn:Hs.
  destruct (take_sign_inv _ _ _ Hs) as (sg & -> & ->).
  destruct (digits_split s1) as (w & s2 & -> & Hr2).
  rewrite take_digits_run by exact Hr2.
  destruct s2 as [|c r].
  - (* no fraction, no exponent *)
    cbn [Nat.add]. rewrite Nat.add_0_r.
    destruct (Decimal.nb_digits w) as [|k] eqn:Hk; [discriminate|].
    cbn [take_exponent]. intro H. injection H as <- <- <-.
    exists (mkLiteral sg w None None).
    unfold well_formed, literal_text, literal_mantissa, literal_exponent,
      literal_digits, frac_digits.
    cbn [lit_sign lit_whole lit_frac lit_exp frac_text exponent_text
         exponent_value Decimal.nb_digits digits_value String.append].
    rewrite Hk, Nat.add_0_r. change (Z.of_nat 0) with 0%Z.
    repeat split.
    all: first [ lia | reflexivity
               | (f_equal; change (10 ^ Z.of_nat 0)%Z with 1%Z; lia) ].
  - destruct (Ascii.eqb c ".") eqn:Hc.
    + apply Ascii.eqb_eq in Hc. subst c.
      destruct (digits_split r) as (f & s3 & -> & Hr3).
      rewrite take_digits_run by exact Hr3. cbn [Nat.add].
      destruct (Decimal.nb_digits w + Decimal.nb_digits f)%nat as [|k] eqn:Hk;
        [discriminate|].
      destruct (take_exponent s3) as [ex|] eqn:Hex; [|discriminate].
      intro H. injection H as <- <- <-.
      destruct (take_exponent_inv _ _ Hex) as (xo & Hx & -> & ->).
      exists (mkLiteral sg w (Some f) xo).
      unfold well_formed, literal_text, literal_mantissa, literal_exponent,
        literal_digits, frac_digits.
      cbn [lit_sign lit_whole lit_frac lit_exp frac_text String.append].
      rewrite Hk. repeat split.
    all: first [ exact Hx | lia | reflexivity
               | (f_equal; change (10 ^ Z.of_nat 0)%Z with 1%Z; lia) ].
    + assert (Hdot : (match String c r with
                      | String "." r' =>
                          take_digits r'
                            (0 * 10 ^ Z.of_nat (Decimal.nb_digits w)
                             + digits_value w)%Z 0
                      | _ => ((0 * 10 ^ Z.of_nat (Decimal.nb_digits w)
                               + digits_value w)%Z, 0%nat, String c r)
                      end)
                     = ((0 * 10 ^ Z.of_nat (Decimal.nb_digits w)
                         + digits_value w)%Z, 0%nat, String c r)).
      { destruct c as [[|] [|] [|] [|] [|] [|] [|] [|]];
          try reflexivity; discriminate Hc. }
      rewrite Hdot. cbn [Nat.add]. rewrite Nat.add_0_r.
      destruct (Decimal.nb_digits w) as [|k] eqn:Hk; [discriminate|].
      destruct (take_exponent (String c r)) as [ex|] eqn:Hex; [|discriminate].
      intro H. injection H as <- <- <-.
      destruct (take_exponent_inv _ _ Hex) as (xo & Hx & Ht & ->).
      exists (mkLiteral sg w None xo).
      unfold well_formed, literal_text, literal_mantissa, literal_exponent,
        literal_digits, frac_digits.
      cbn [lit_sign lit_whole lit_frac lit_exp frac_text String.append
           Decimal.nb_digits digits_value].
      rewrite Hk, Nat.add_0_r, Ht. change (Z.of_nat 0) with 0%Z.
      repeat split.
    all: first [ exact Hx | lia | reflexivity
               | (f_equal; change (10 ^ Z.of_nat 0)%Z with 1%Z; lia) ].
Qed.

Lemma decimal_literal_none (s : string) :
  decimal_literal s = None <-> ~ is_literal s.
Proof.
  split.
  - intros H (l & Hw & ->). rewrite (decimal_literal_text l Hw) in H.
    discriminate H.
  - intro H. destruct (decimal_literal s) as [[[m e] n]|] eqn:E;
      [|reflexivity].
    exfalso. apply H. destruct (decimal_literal_inv _ _ _ _ E)
      as (l & Hw & Ht & _). now exists l.
Qed.

(** The numeral of an integer is a literal that writes it. *)
Lemma literal_of_numeral (n : Z) :
  exists digits,
    decimal_literal (str_of_Z n) = Some (n, 0%Z, digits)
    /\ ((Z.abs n < 10 ^ 15)%Z -> (digits <= 15)%nat).
Proof.
  unfold str_of_Z. destruct n as [|p|p].
  - exists 1%nat. split; [reflexivity | lia].
  - cbn [Z.to_int NilZero.string_of_int NilZero.string_of_uint].
    pose proof (DecimalPos.Unsigned.to_uint_nonnil p) as Hd.
    assert (E : NilZero.string_of_uint (Pos.to_uint p)
                = literal_text (mkLiteral NoSign (Pos.to_uint p) None None)).
    { unfold NilZero.string_of_uint, literal_text.
      cbn [lit_sign lit_whole lit_frac lit_exp sign_text frac_text
           exponent_text String.append].
      rewrite append_nil.
      destruct (Pos.to_uint p); [contradiction | reflexivity..]. }
    rewrite E. exists (Decimal.nb_digits (Pos.to_uint p)). split.
    + rewrite decimal_literal_text.
      * unfold literal_mantissa, literal_exponent, literal_digits, frac_digits.
        cbn [lit_sign lit_whole lit_frac lit_exp negative signed
             exponent_value Decimal.nb_digits digits_value].
        rewrite digits_value_to_uint, Nat.add_0_r.
        change (Z.of_nat 0) with 0%Z. f_equal. f_equal. f_equal. lia.
      * split; [|exact I]. cbn [lit_whole frac_digits lit_frac].
        destruct (nb_digits_nonnil _ Hd) as [k ->]. lia.
    + intro Hn. apply numeral_digits_bound. lia.
  - cbn [Z.to_int NilZero.string_of_int].
    pose proof (DecimalPos.Unsigned.to_uint_nonnil p) as Hd.
    assert (E : String "-" (NilZero.string_of_uint (Pos.to_uint p))
                = literal_text (mkLiteral Minus (Pos.to_uint p) None None)).
    { unfold NilZero.string_of_uint, literal_text.
      cbn [lit_sign lit_whole lit_frac lit_exp sign_text frac_text
           exponent_text String.append].
      rewrite append_nil.
      destruct (Pos.to_uint p); [contradiction | reflexivity..]. }
    rewrite E. exists (Decimal.nb_digits (Pos.to_uint p)). split.
    + rewrite decimal_literal_text.
      * unfold literal_mantissa, literal_exponent, literal_digits, frac_digits.
        cbn [lit_sign lit_whole lit_frac lit_exp negative signed
             exponent_value Decimal.nb_digits digits_value].
        rewrite digits_value_to_uint, Nat.add_0_r.
        change (Z.of_nat 0) with 0%Z. f_equal. f_equal. f_equal. lia.
      * split; [|exact I]. cbn [lit_whole frac_digits lit_frac].
        destruct (nb_digits_nonnil _ Hd) as [k ->]. lia.
    + intro Hn. apply numeral_digits_bound. lia.
Qed.

(** A numeral holds no white space, no dollar sign and no comma. *)
Lemma numeral_char_plain (c : ascii) :
  numeral_char c = true ->
  is_space c = false /\ Ascii.eqb "$" c = false /\ Ascii.eqb "," c = false.
Proof.
  destruct c as [[|] [|] [|] [|] [|] [|] [|] [|]];
    (intro H; try discriminate H); repeat split.
Qed.

Lemma uint_numeral (d : Decimal.uint) :
  all_chars numeral_char (NilEmpty.string_of_uint d) = true.
Proof. induction d; [reflexivity | exact IHd..]. Qed.

Lemma str_of_Z_numeral (n : Z) : all_chars numeral_char (str_of_Z n) = true.
Proof.
  unfold str_of_Z.
  destruct n as [|p|p]; [reflexivity| |];
    cbn [Z.to_int NilZero.string_of_int NilZero.string_of_uint all_chars];
    pose proof (DecimalPos.Unsigned.to_uint_nonnil p) as Hd;
    unfold NilZero.string_of_uint;
    destruct (Pos.to_uint p) eqn:E; try contradiction;
    rewrite <- E; try apply uint_numeral.
  all: change (numeral_char "-") with true; cbn [andb]; apply uint_numeral.
Qed.

Lemma numeral_no_char (c : ascii) (s : string) :
  (forall x, numeral_char x = true -> Ascii.eqb c x = false) ->
  all_chars numeral_char s = true -> has_char c s = false.
Proof.
  intro Hc. induction s as [|x s IH]; [reflexivity|].
  cbn [all_chars has_char]. intro H. apply andb_true_iff in H.
  destruct H as [Hx Hs]. now rewrite (Hc x Hx), (IH Hs).
Qed.

Lemma rstrip_numeral (s : string) :
  all_chars numeral_char s = true -> rstrip s = s.
Proof.
  induction s as [|x s IH]; [reflexivity|].
  cbn [all_chars rstrip]. intro H. apply andb_true_iff in H.
  destruct H as [Hx Hs]. rewrite (IH Hs).
  destruct s; [|reflexivity].
  now rewrite (proj1 (numeral_char_plain x Hx)).
Qed.

Lemma cleaned_numeral (s : string) :
  all_chars numeral_char s = true -> cleaned s = s.
Proof.
  intro H. unfold cleaned, strip.
  rewrite (remove_char_absent "$" s).
  - rewrite (remove_char_absent "," s).
    + rewrite lstrip_of_solid; [now apply rstrip_numeral|].
      destruct s as [|x s]; [exact I|].
      cbn [all_chars] in H. apply andb_true_iff in H.
      apply (numeral_char_plain x), H.
    + apply numeral_no_char; [|exact H].
      intros x Hx. apply (numeral_char_plain x Hx).
  - apply numeral_no_char; [|exact H].
    intros x Hx. apply (numeral_char_plain x Hx).
Qed.

End NumeralFacts.

Module FilterFacts.

Import PyStr Transform Text TextFacts NumeralFacts Wording.

Lemma prefix_app (p s : string) :
  String.prefix p s = true <-> exists r, s = String.append p r.
Proof.
  revert s. induction p as [|c p IH]; intro s; simpl.
  - split; [intros _; now exists s | intros _; now destruct s].
  - destruct s as [|d s];
      [split; [discriminate | intros [r Hr]; discriminate Hr]|].
    simpl. destruct (ascii_dec c d) as [->|Hn].
    + rewrite IH. split; intros [r Hr]; exists r; [now rewrite Hr|].
      now injection Hr.
    + split; [discriminate|]. intros [r Hr]. injection Hr as -> _.
      now contradiction Hn.
Qed.

(** **** White space and trimming *)

Lemma is_space_codes (c : ascii) :
  is_space c
  = existsb (Nat.eqb (nat_of_ascii c))
            [9; 10; 11; 12; 13; 28; 29; 30; 31; 32; 133; 160]%nat.
Proof. destruct c as [[|] [|] [|] [|] [|] [|] [|] [|]]; reflexivity. Qed.

Lemma is_space_white (c : ascii) : is_space c = true <-> white c.
Proof.
  rewrite is_space_codes, existsb_exists. unfold white. split.
  - intros (n & Hn & E). apply Nat.eqb_eq in E. now rewrite E.
  - intro H. exists (nat_of_ascii c). split; [exact H | apply Nat.eqb_refl].
Qed.

Lemma not_white (c : ascii) : is_space c = false <-> ~ white c.
Proof.
  rewrite <- is_space_white. destruct (is_space c); split; congruence.
Qed.

Lemma lstrip_split (s : string) :
  exists a, s = String.append a (lstrip s) /\ all_white a.
Proof.
  induction s as [|c s (a & Ha & Hw)].
  - now exists "".
  - cbn [lstrip]. destruct (is_space c) eqn:Hc.
    + exists (String c a). cbn. split; [now rewrite <- Ha|].
      split; [now apply is_space_white | exact Hw].
    + now exists "".
Qed.

Lemma rstrip_split (s : string) :
  exists b, s = String.append (rstrip s) b /\ all_white b.
Proof.
  induction s as [|c s (b & Hb & Hw)].
  - now exists "".
  - cbn [rstrip]. destruct (rstrip s) as [|x r] eqn:Hr.
    + destruct (is_space c) eqn:Hc.
      * exists (String c b). cbn in *. split; [now rewrite <- Hb|].
        split; [now apply is_space_white | exact Hw].
      * exists b. cbn in *. split; [now rewrite <- Hb | exact Hw].
    + exists b. cbn in *. split; [now rewrite <- Hb | exact Hw].
Qed.

(** What [rstrip] leaves does not end in white space. *)
Lemma rstrip_end (s r : string) (c : ascii) :
  rstrip s = String.append r (String c "") -> ~ white c.
Proof.
  revert r. induction s as [|x s IH]; intro r; cbn [rstrip].
  - destruct r; discriminate.
  - destruct (rstrip s) as [|y t] eqn:Hr.
    + destruct (is_space x) eqn:Hx; [destruct r; discriminate|].
      destruct r as [|z r]; cbn; intro E.
      * injection E as <-. now apply not_white.
      * injection E as _ E. destruct r; discriminate E.
    + destruct r as [|z r]; cbn; intro E; [discriminate E|].
      injection E as _ E. now apply (IH r).
Qed.

Lemma strip_trimmed (s : string) : trimmed_of s (strip s).
Proof.
  unfold strip.
  destruct (lstrip_split s) as (a & Ha & Hwa).
  destruct (rstrip_split (lstrip s)) as (b & Hb & Hwb).
  exists a, b. split; [now rewrite <- Hb|]. split; [exact Hwa|].
  split; [exact Hwb|]. split.
  - intros c r E.
    pose proof (rstrip_solid _ (lstrip_solid s)) as Hs.
    rewrite E in Hs. cbn [starts_solid] in Hs. now apply not_white.
  - intros r c E. now apply (rstrip_end _ _ _ E).
Qed.

Lemma lstrip_white (a s : string) :
  all_white a -> lstrip (String.append a s) = lstrip s.
Proof.
  induction a as [|c a IH]; [reflexivity|].
  cbn [all_white String.append lstrip]. intros [Hc Ha].
  apply is_space_white in Hc. rewrite Hc. now apply IH.
Qed.

Lemma lstrip_all_white (b : string) : all_white b -> lstrip b = "".
Proof.
  intro H. rewrite <- (append_nil b). now rewrite lstrip_white.
Qed.

Lemma rstrip_all_white (b : string) : all_white b -> rstrip b = "".
Proof.
  induction b as [|c b IH]; [reflexivity|].
  cbn [all_white rstrip]. intros [Hc Hb]. rewrite (IH Hb).
  apply is_space_white in Hc. now rewrite Hc.
Qed.

Lemma rstrip_white (s b : string) :
  all_white b -> rstrip (String.append s b) = rstrip s.
Proof.
  intro Hb. induction s as [|c s IH].
  - cbn. now apply rstrip_all_white.
  - cbn [String.append rstrip]. now rewrite IH.
Qed.

Lemma rstrip_of_solid_end (t : string) :
  (forall r c, t = String.append r (String c "") -> ~ white c) ->
  rstrip t = t.
Proof.
  induction t as [|c t IH]; [reflexivity|]. intro H.
  cbn [rstrip]. destruct t as [|x t].
  - cbn. assert (Hc : ~ white c) by (apply (H "" c); reflexivity).
    apply not_white in Hc. now rewrite Hc.
  - rewrite IH; [reflexivity|].
    intros r y E. apply (H (String c r) y). cbn. now rewrite E.
Qed.

Lemma trimmed_unique (s t : string) : trimmed_of s t -> strip s = t.
Proof.
  intros (a & b & -> & Ha & Hb & Hstart & Hend). unfold strip.
  rewrite lstrip_white by exact Ha.
  destruct t as [|c r].
  - cbn [String.append]. now rewrite lstrip_all_white.
  - assert (Hc : is_space c = false) by (apply not_white, (Hstart c r eq_refl)).
    cbn [String.append lstrip]. rewrite Hc.
    change (String c (String.append r b))
      with (String.append (String c r) b).
    rewrite rstrip_white by exact Hb.
    now apply rstrip_of_solid_end.
Qed.

(** **** The section-header pattern *)

Lemma is_upper_capital (c : ascii) : is_upper_AZ c = true <-> capital c.
Proof.
  unfold is_upper_AZ, capital.
  now rewrite andb_true_iff, !Nat.leb_le.
Qed.

Lemma newline_white : white newline.
Proof. cbn. tauto. Qed.

Lemma rest_is_dots_spec (s : string) :
  rest_is_dots s = true <->
  exists b e,
    s = String.append b e /\ one_line b
    /\ (e = "" \/ e = String newline "").
Proof.
  induction s as [|c s IH].
  - split; [intros _; exists "", ""; cbn; tauto | reflexivity].
  - cbn [rest_is_dots]. destruct (Ascii.eqb c newline) eqn:Hc.
    + apply Ascii.eqb_eq in Hc. subst c. split.
      * destruct s; [|discriminate]. intros _.
        exists "", (String newline ""). cbn. tauto.
      * intros (b & e & E & Hb & He).
        destruct b as [|x b].
        -- cbn in E. destruct He as [-> | ->]; [discriminate E|].
           injection E as ->. reflexivity.
        -- cbn in E, Hb. injection E as <- _. now destruct Hb.
    + apply Ascii.eqb_neq in Hc. rewrite IH. split.
      * intros (b & e & -> & Hb & He). exists (String c b), e.
        cbn. tauto.
      * intros (b & e & E & Hb & He). destruct b as [|x b].
        -- cbn in E. destruct He as [-> | ->]; [discriminate E|].
           injection E as -> _. now contradiction Hc.
        -- cbn in E, Hb. injection E as <- ->. exists b, e. tauto.
Qed.

Lemma dots_sep_dots_spec (s : string) :
  dots_sep_dots s = true <->
  exists a b e,
    s = String.append a (String.append " - " (String.append b e))
    /\ one_line a /\ one_line b
    /\ (e = "" \/ e = String newline "").
Proof.
  induction s as [|c s IH].
  - split; [discriminate|]. intros (a & b & e & E & _).
    destruct a; discriminate E.
  - cbn [dots_sep_dots]. rewrite orb_true_iff, !andb_true_iff, prefix_app.
    rewrite negb_true_iff, IH, rest_is_dots_spec. split.
    + intros [[[r Hr] (b & e & Hbe & Hb & He)]|[Hc (a & b & e & -> & H)]].
      * exists "".
        rewrite Hr in Hbe. cbn [String.append] in Hbe.
        destruct b as [|x1 [|x2 [|x3 b]]];
          cbn [String.append] in Hbe;
          try (destruct He as [-> | ->]; discriminate Hbe).
        injection Hbe as <- <- <- ->.
        exists b, e. rewrite Hr. cbn in Hb |- *. tauto.
      * apply Ascii.eqb_neq in Hc. exists (String c a), b, e. cbn. tauto.
    + intros (a & b & e & E & Ha & Hb & He). destruct a as [|x a].
      * left. cbn [String.append] in E. split.
        -- eexists. exact E.
        -- exists (String.append " - " b), e. rewrite E. cbn.
           split; [reflexivity|]. split; [|exact He].
           repeat split; try discriminate. exact Hb.
      * right. cbn in E, Ha. injection E as <- ->.
        split; [now apply Ascii.eqb_neq|]. exists a, b, e. tauto.
Qed.

(** [re.search(r"^[A-Z].* - .*$", s)]: a capital letter, text on the
    same line that holds [" - "], and then the end of the text or one
    final line break. *)
Lemma section_header_re_spec (s : string) :
  section_header_re s = true <->
  exists c a b e,
    s = String c (String.append a (String.append " - " (String.append b e)))
    /\ capital c /\ one_line a /\ one_line b
    /\ (e = "" \/ e = String newline "").
Proof.
  destruct s as [|c s]; cbn [section_header_re].
  - split; [discriminate | intros (c & a & b & e & E & _); discriminate E].
  - rewrite andb_true_iff, is_upper_capital, dots_sep_dots_spec. split.
    + intros (Hc & a & b & e & -> & H). exists c, a, b, e. tauto.
    + intros (c' & a & b & e & E & Hc & H). injection E as <- ->.
      split; [exact Hc|]. exists a, b, e. tauto.
Qed.

(** On a trimmed text the pattern is the specification's wording. *)
Lemma section_header_trimmed (s : string) :
  section_header_re (strip s) = true <-> reads_as_section_header (strip s).
Proof.
  rewrite section_header_re_spec. unfold reads_as_section_header. split.
  - intros (c & a & b & e & E & Hc & Ha & Hb & [-> | ->]).
    + exists c, a, b. rewrite append_nil in E. tauto.
    + exfalso.
      destruct (strip_trimmed s) as (_ & _ & _ & _ & _ & _ & Hend).
      apply (Hend (String c (String.append a (String.append " - " b)))
                  newline); [|exact newline_white].
      rewrite E. cbn [String.append]. f_equal.
      now rewrite !append_assoc.
  - intros (c & a & b & E & H). exists c, a, b, "".
    rewrite append_nil. tauto.
Qed.

(** **** The row filter *)

Lemma isna_spec (c : Cell) : isna c = true <-> c = CNaN.
Proof. destruct c; simpl; split; congruence. Qed.

Lemma excluded_spec (ln : Line) :
  excluded ln = true <->
  (sku_str (l_sku ln) = "" \/ sku_str (l_sku ln) = "nan")
  \/ startswith "Total" (sku_str (l_sku ln)) = true
  \/ (section_header_re (sku_str (l_sku ln)) = true
      /\ l_description ln = CNaN).
Proof.
  unfold excluded, is_blank, is_total, is_section_header.
  rewrite !orb_true_iff, andb_true_iff, !String.eqb_eq, isna_spec. tauto.
Qed.

(** The numeral of an integer begins with a digit or the minus sign. *)
Lemma str_of_Z_first (n : Z) :
  exists c r, str_of_Z n = String c r /\ numeral_char c = true.
Proof.
  pose proof (str_of_Z_numeral n) as H.
  destruct (str_of_Z n) as [|c r] eqn:E.
  - exfalso. unfold str_of_Z in E. destruct n as [|p|p];
      cbn [Z.to_int NilZero.string_of_int] in E; try discriminate E.
    unfold NilZero.string_of_uint in E.
    destruct (Pos.to_uint p); discriminate E.
  - exists c, r. cbn [all_chars] in H. apply andb_true_iff in H.
    split; [reflexivity | apply H].
Qed.

(** A SKU that is a number is never dropped. *)
Lemma number_sku_kept (ln : Line) (n : Z) :
  l_sku ln = CInt n -> excluded ln = false.
Proof.
  intro Hs. destruct (excluded ln) eqn:He; [|reflexivity]. exfalso.
  apply excluded_spec in He. rewrite Hs in He.
  assert (E : sku_str (CInt n) = str_of_Z n).
  { unfold sku_str, strip. cbn [py_str].
    pose proof (str_of_Z_numeral n) as Hn.
    destruct (str_of_Z_first n) as (c & r & Hc & Hd).
    rewrite lstrip_of_solid.
    - now apply rstrip_numeral.
    - rewrite Hc. cbn [starts_solid]. apply (numeral_char_plain c Hd). }
  rewrite E in He. destruct (str_of_Z_first n) as (c & r & Hc & Hd).
  rewrite Hc in He.
  assert (Hcap : is_upper_AZ c = false /\ c <> "n"%char /\ c <> "T"%char).
  { destruct c as [[|] [|] [|] [|] [|] [|] [|] [|]];
      try discriminate Hd; repeat split; discriminate. }
  destruct Hcap as (Hu & Hn & Ht).
  destruct He as [[He|He]|[He|[He _]]].
  - discriminate He.
  - injection He as He _. now contradiction Hn.
  - unfold startswith in He. apply prefix_app in He. destruct He as [x Hx].
    injection Hx as Hx _. now contradiction Ht.
  - cbn [section_header_re] in He. now rewrite Hu in He.
Qed.

(** The row filter of the script is the row filter of the
    specification. *)
Lemma excluded_left_out (ln : Line) : excluded ln = true <-> left_out ln.
Proof.
  unfold left_out. destruct (l_sku ln) as [|s|n] eqn:Hs.
  - split; [trivial|]. intros _. apply excluded_spec. rewrite Hs.
    left. right. reflexivity.
  - rewrite excluded_spec, Hs. unfold sku_str, startswith. cbn [py_str].
    rewrite prefix_app, section_header_trimmed. split.
    + intro H. exists (strip s). split; [apply strip_trimmed | tauto].
    + intros (t & Ht & H). apply trimmed_unique in Ht. subst t. tauto.
  - rewrite (number_sku_kept ln n Hs). split; [discriminate | tauto].
Qed.

Lemma candidate_rows_app (cols : list string) (r1 r2 : list (list Cell)) :
  candidate_rows (mkFrame cols (r1 ++ r2))
  = candidate_rows (mkFrame cols r1) ++ candidate_rows (mkFrame cols r2).
Proof.
  unfold candidate_rows. cbn [columns rows].
  now rewrite map_app, filter_app.
Qed.

Lemma candidate_rows_one (cols : list string) (row : list Cell) :
  candidate_rows (mkFrame cols [row])
  = if excluded (line_of cols row) then [] else [line_of cols row].
Proof.
  unfold candidate_rows. cbn [columns rows map filter].
  now destruct (excluded (line_of cols row)).
Qed.

Lemma get_at (cols pre post : list string) (name : string)
      (row : list Cell) :
  cols = pre ++ name :: post -> ~ In name pre ->
  get cols name row = nth (List.length pre) row CNaN.
Proof.
  intros -> Hn. unfold get. f_equal.
  induction pre as [|c pre IH]; cbn [app col_index List.length].
  - now rewrite String.eqb_refl.
  - destruct (String.eqb_spec c name) as [->|_].
    + contradiction Hn. now left.
    + f_equal. apply IH. intro H. apply Hn. now right.
Qed.

(** C3.  The candidate rows are the lines of the frame that the
    specification's filter does not leave out, in the order of the frame:
    a line is left out if and only if its SKU cell is empty, or the
    trimmed text of its SKU cell is blank, reads "nan", starts with
    "Total", or is a capital letter A..Z followed on one line by text that
    holds [" - "] while its Description cell is empty; a SKU that is a
    number is never left out.  The SKU and the Description of a line are
    the cells under the columns of these names.  The pattern itself also
    allows one final line break, which a trimmed text never has. *)
Theorem C3_row_filter (df : Frame) :
  (forall ln,
     In ln (candidate_rows df) <->
     In ln (map (line_of (columns df)) (rows df)) /\ ~ left_out ln)
  /\ (forall ln, excluded ln = true <-> left_out ln)
  /\ candidate_rows (mkFrame (columns df) []) = []
  /\ (forall r1 row r2,
        rows df = r1 ++ row :: r2 ->
        (left_out (line_of (columns df) row) ->
         candidate_rows df
         = candidate_rows (mkFrame (columns df) r1)
             ++ candidate_rows (mkFrame (columns df) r2))
        /\ (~ left_out (line_of (columns df) row) ->
            candidate_rows df
            = candidate_rows (mkFrame (columns df) r1)
                ++ line_of (columns df) row
                :: candidate_rows (mkFrame (columns df) r2)))
  /\ (forall pre post row,
        columns df = pre ++ "SKU" :: post -> ~ In "SKU" pre ->
        l_sku (line_of (columns df) row) = nth (List.length pre) row CNaN)
  /\ (forall pre post row,
        columns df = pre ++ "Description" :: post ->
        ~ In "Description" pre ->
        l_description (line_of (columns df) row)
        = nth (List.length pre) row CNaN)
  /\ (forall s,
        section_header_re s = true <->
        exists c a b e,
          s = String c (String.append a
                          (String.append " - " (String.append b e)))
          /\ capital c /\ one_line a /\ one_line b
          /\ (e = "" \/ e = String newline ""))
  /\ map excluded
         [Samples.product_line; Samples.total_row; Samples.section_row;
          Samples.blank_row; Samples.dashed_product; Samples.small_dash_row;
          Samples.spaced_nan_row]
     = [false; true; true; true; false; false; true].
Proof.
  split.
  { intro ln. unfold candidate_rows. rewrite filter_In, negb_true_iff.
    rewrite <- excluded_left_out.
    destruct (excluded ln); split; intros [Hi He];
      (split; [exact Hi|]); congruence. }
  split; [exact excluded_left_out|].
  split; [reflexivity|].
  split.
  { intros r1 row r2 Hrows.
    assert (E : candidate_rows df
                = candidate_rows (mkFrame (columns df) r1)
                    ++ candidate_rows (mkFrame (columns df) [row])
                    ++ candidate_rows (mkFrame (columns df) r2)).
    { rewrite <- !candidate_rows_app. cbn [app]. rewrite <- Hrows.
      now destruct df. }
    rewrite E, candidate_rows_one.
    split; intro H.
    - apply excluded_left_out in H. now rewrite H.
    - destruct (excluded (line_of (columns df) row)) eqn:He;
        [|reflexivity].
      apply excluded_left_out in He. contradiction. }
  split.
  { intros pre post row Hc Hn. unfold line_of. cbn [l_sku].
    now apply (get_at _ pre post). }
  split.
  { intros pre post row Hc Hn. unfold line_of. cbn [l_description].
    now apply (get_at _ pre post). }
  split; [exact section_header_re_spec|].
  vm_compute. reflexivity.
Qed.

End FilterFacts.

Module CoercionFacts.

Import PyStr Transform Samples Text TextFacts NumeralFacts Wording.

(** **** Cutting to an integer *)

Lemma pow10_pos (k : Z) : (0 <= k -> 0 < 10 ^ k)%Z.
Proof. intro H. apply Z.pow_pos_nonneg; lia. Qed.

(** [cut] drops the fraction: the result is the whole number next to
    [m * 10^e] on the side of zero. *)
Lemma cut_towards_zero (m e : Z) :
  ((0 <= e -> cut m e = m * 10 ^ e)
   /\ (e < 0 ->
       Z.abs (m - cut m e * 10 ^ (- e)) < 10 ^ (- e)
       /\ 0 <= (m - cut m e * 10 ^ (- e)) * m))%Z.
Proof.
  unfold cut. destruct (Z.leb_spec 0 e) as [He|He].
  - split; [reflexivity | lia].
  - split; [lia|]. intros _.
    assert (Hd : (0 < 10 ^ (- e))%Z) by (apply pow10_pos; lia).
    assert (Hr : (m - Z.quot m (10 ^ (- e)) * 10 ^ (- e)
                  = Z.rem m (10 ^ (- e)))%Z).
    { pose proof (Z.quot_rem' m (10 ^ (- e))). lia. }
    rewrite Hr. split.
    + pose proof (Z.rem_bound_abs m (10 ^ (- e))). lia.
    + apply Z.rem_sign_mul. lia.
Qed.

Lemma cut_sign (m e : Z) :
  ((0 <= m -> 0 <= cut m e) /\ (m <= 0 -> cut m e <= 0))%Z.
Proof.
  unfold cut. destruct (Z.leb_spec 0 e) as [He|He].
  - pose proof (pow10_pos e He). split; intro; nia.
  - assert (Hd : (0 < 10 ^ (- e))%Z) by (apply pow10_pos; lia).
    split; intro Hm.
    + apply Z.quot_pos; lia.
    + replace m with (- (- m))%Z by lia.
      rewrite Z.quot_opp_l by lia.
      pose proof (Z.quot_pos (- m) (10 ^ (- e))). lia.
Qed.

Lemma wrap64_range (z : Z) : (INT64_MIN <= wrap64 z <= INT64_MAX)%Z.
Proof.
  unfold wrap64, INT64_MIN, INT64_MAX.
  pose proof (Z.mod_pos_bound (z + 2 ^ 63) (2 ^ 64)). lia.
Qed.

Lemma wrap64_small (z : Z) :
  (INT64_MIN <= z <= INT64_MAX)%Z -> wrap64 z = z.
Proof.
  unfold wrap64, INT64_MIN, INT64_MAX. intro H.
  rewrite Z.mod_small by lia. lia.
Qed.

(** **** What [pd.to_numeric] is given and what it yields *)

Lemma remove_char_filter (c : ascii) (s : string) :
  list_ascii_of_string (remove_char c s)
  = filter (fun d => negb (Ascii.eqb c d)) (list_ascii_of_string s).
Proof.
  induction s as [|d s IH]; [reflexivity|].
  cbn [remove_char list_ascii_of_string filter].
  destruct (Ascii.eqb c d); cbn [negb list_ascii_of_string]; now rewrite IH.
Qed.

Lemma filter_twice {A : Type} (f g : A -> bool) (l : list A) :
  filter f (filter g l) = filter (fun x => g x && f x) l.
Proof.
  induction l as [|x l IH]; [reflexivity|]. cbn [filter].
  destruct (g x); cbn [filter andb]; [destruct (f x)|]; now rewrite IH.
Qed.

(** The text read as a number is the trimmed text of the cell's text
    without its dollar signs and commas. *)
Lemma cleaned_spec (s : string) :
  exists u,
    list_ascii_of_string u
    = filter (fun d => negb (Ascii.eqb "$" d) && negb (Ascii.eqb "," d))
             (list_ascii_of_string s)
    /\ trimmed_of u (cleaned s).
Proof.
  exists (remove_char "," (remove_char "$" s)). split.
  - now rewrite !remove_char_filter, filter_twice.
  - apply FilterFacts.strip_trimmed.
Qed.

Lemma mem_words (x : string) (l : list string) : mem x l = true <-> In x l.
Proof.
  unfold mem. rewrite existsb_exists. split.
  - intros (y & Hy & He). apply String.eqb_eq in He. now subst.
  - intro H. exists x. split; [exact H | apply String.eqb_refl].
Qed.

Lemma lower_char_sign (c : ascii) :
  (lower_char c = "+"%char -> c = "+"%char)
  /\ (lower_char c = "-"%char -> c = "-"%char)
  /\ (lower_char c = "i"%char -> c = "i"%char \/ c = "I"%char).
Proof.
  destruct c as [[|] [|] [|] [|] [|] [|] [|] [|]];
    repeat split; intro H; try discriminate H; tauto.
Qed.

(** A word for infinity is no decimal literal. *)
Lemma infinity_not_literal (s : string) :
  In (lower s) infinity_words -> decimal_literal s = None.
Proof.
  unfold infinity_words. cbn [In].
  destruct s as [|c0 [|c1 s]]; cbn [lower];
    intro H; repeat (destruct H as [H|H]; try discriminate H);
    try contradiction;
    injection H as H0 H1 _;
    repeat match goal with
      | H : _ = lower_char ?c |- _ => symmetry in H
      end;
    first
      [ apply (proj2 (proj2 (lower_char_sign c0))) in H0;
        destruct H0 as [-> | ->]; reflexivity
      | apply (proj1 (lower_char_sign c0)) in H0; subst c0;
        apply (proj2 (proj2 (lower_char_sign c1))) in H1;
        destruct H1 as [-> | ->]; reflexivity
      | apply (proj1 (proj2 (lower_char_sign c0))) in H0; subst c0;
        apply (proj2 (proj2 (lower_char_sign c1))) in H1;
        destruct H1 as [-> | ->]; reflexivity ].
Qed.

(** A number that [to_num] yields as finite is a settled one. *)
Lemma to_num_finite (x : Cell) (m e : Z) :
  to_num x = Finite m e -> (Z.abs (cut m e) < 2 ^ 31)%Z.
Proof.
  assert (Hint : forall n, settled_int n = true -> (Z.abs n < 2 ^ 31)%Z).
  { intros n H. unfold settled_int, SETTLED in H. now apply Z.ltb_lt in H. }
  destruct x as [|s|n]; cbn [to_num to_numeric]; [discriminate| |].
  - unfold to_numeric_text.
    destruct (decimal_literal (cleaned s)) as [[[m' e'] d]|].
    + destruct (settled_literal m' e' d) eqn:Hs; [|discriminate].
      intro H. injection H as <- <-.
      unfold settled_literal in Hs. apply andb_true_iff in Hs.
      now apply Hint.
    + destruct (mem (lower (cleaned s)) infinity_words); discriminate.
  - destruct (settled_int n) eqn:Hs; [|discriminate].
    intro H. injection H as <- <-. apply Hint in Hs.
    unfold cut. cbn. lia.
Qed.

Section Build.

Variable beyond : Cell -> Res Z.

Local Abbreviation coerce_sold_qty := (Transform.coerce_sold_qty beyond).

Lemma coerce_range (x : Cell) (q : Z) :
  coerce_sold_qty x = Ok q -> (INT64_MIN <= q <= INT64_MAX)%Z.
Proof.
  unfold Transform.coerce_sold_qty.
  destruct (to_num x) as [m e| | |y] eqn:Hx; cbn [fillna0_astype_int];
    intro H.
  - injection H as <-. apply to_num_finite in Hx.
    unfold INT64_MIN, INT64_MAX. lia.
  - injection H as <-. unfold INT64_MIN, INT64_MAX. lia.
  - discriminate H.
  - destruct (beyond y); [|discriminate H]. injection H as <-.
    apply wrap64_range.
Qed.

(** C4, as the script has it.  A whole number below 2^31 in magnitude is
    its own Sold QTY.  Of a text, the dollar signs and the commas are
    taken out and the rest is trimmed; what is left is read as a number
    exactly when it is a decimal literal (a sign, digits with or without a
    decimal point, an exponent part), and then cut towards zero to an
    integer, provided the literal has at most 15 digits, an exponent
    within 300 and a whole part below 2^31; a text that is neither a
    literal nor a word for infinity gives 0, as an empty cell does.  A
    word for infinity raises: such a cell has no Sold QTY.  Whatever the
    build makes of another number lies within 64 bits, so that a whole
    number outside them is not its own Sold QTY.  ["$1,234"] gives 1234
    and ["abc"] gives 0. *)
Theorem C4_sold_qty_coercion :
  (forall n, (Z.abs n < 2 ^ 31)%Z -> coerce_sold_qty (CInt n) = Ok n)
  /\ coerce_sold_qty (CStr "$1,234") = Ok 1234%Z
  /\ coerce_sold_qty (CStr "abc") = Ok 0%Z
  /\ coerce_sold_qty CNaN = Ok 0%Z
  /\ (forall s,
        coerce_sold_qty (CStr s) = coerce_sold_qty (CStr (cleaned s))
        /\ exists u,
             list_ascii_of_string u
             = filter (fun d => negb (Ascii.eqb "$" d)
                                && negb (Ascii.eqb "," d))
                      (list_ascii_of_string s)
             /\ trimmed_of u (cleaned s))
  /\ (forall s l,
        well_formed l -> cleaned s = literal_text l ->
        (literal_digits l <= 15)%nat ->
        (Z.abs (literal_exponent l) <= 300)%Z ->
        (Z.abs (cut (literal_mantissa l) (literal_exponent l)) < 2 ^ 31)%Z ->
        coerce_sold_qty (CStr s)
        = Ok (cut (literal_mantissa l) (literal_exponent l)))
  /\ (forall s,
        ~ is_literal (cleaned s) ->
        ~ In (lower (cleaned s))
             ["inf"; "+inf"; "-inf"; "infinity"; "+infinity"; "-infinity"] ->
        coerce_sold_qty (CStr s) = Ok 0%Z)
  /\ (forall s,
        In (lower (cleaned s))
           ["inf"; "+inf"; "-inf"; "infinity"; "+infinity"; "-infinity"] ->
        coerce_sold_qty (CStr s) = Raise)
  /\ (forall m e,
        (0 <= e -> cut m e = m * 10 ^ e)
        /\ (e < 0 ->
            Z.abs (m - cut m e * 10 ^ (- e)) < 10 ^ (- e)
            /\ 0 <= (m - cut m e * 10 ^ (- e)) * m))%Z
  /\ (forall x q,
        coerce_sold_qty x = Ok q -> (- 2 ^ 63 <= q <= 2 ^ 63 - 1)%Z)
  /\ (forall n,
        ~ (- 2 ^ 63 <= n <= 2 ^ 63 - 1)%Z ->
        coerce_sold_qty (CInt n) <> Ok n)
  /\ map coerce_sold_qty
         [CStr "12.75"; CStr "-12.75"; CStr "1e3"; CStr " $ 7 ";
          CStr "12abc"; CStr "1e"; CStr "1.2.3"; CStr "."; CStr "";
          CStr "nan"; CStr "inf"; CStr "-Infinity"]
     = [Ok 12%Z; Ok (-12)%Z; Ok 1000%Z; Ok 7%Z;
        Ok 0%Z; Ok 0%Z; Ok 0%Z; Ok 0%Z; Ok 0%Z;
        Ok 0%Z; Raise; Raise].
Proof.
  split.
  { intros n Hn. unfold Transform.coerce_sold_qty. cbn [to_num to_numeric].
    assert (Hs : settled_int n = true)
      by (unfold settled_int, SETTLED; now apply Z.ltb_lt).
    rewrite Hs. cbn [fillna0_astype_int]. unfold cut. cbn. f_equal. lia. }
  split; [reflexivity|]. split; [reflexivity|]. split; [reflexivity|].
  split.
  { intro s. split; [|apply cleaned_spec].
    unfold Transform.coerce_sold_qty. cbn [to_num].
    now rewrite cleaned_idem. }
  split.
  { intros s l Hw Ht Hd He Hc.
    unfold Transform.coerce_sold_qty. cbn [to_num to_numeric].
    unfold to_numeric_text. rewrite Ht, (decimal_literal_text l Hw).
    assert (Hs : settled_literal (literal_mantissa l) (literal_exponent l)
                                 (literal_digits l) = true).
    { unfold settled_literal, settled_int, SETTLED.
      rewrite !andb_true_iff. repeat split.
      - now apply Nat.leb_le.
      - now apply Z.leb_le.
      - now apply Z.ltb_lt. }
    now rewrite Hs. }
  split.
  { intros s Hl Hi. unfold Transform.coerce_sold_qty. cbn [to_num to_numeric].
    unfold to_numeric_text.
    rewrite (proj2 (decimal_literal_none _) Hl).
    destruct (mem (lower (cleaned s)) infinity_words) eqn:Hm;
      [|reflexivity].
    apply mem_words in Hm. contradiction. }
  split.
  { intros s Hi. unfold Transform.coerce_sold_qty. cbn [to_num to_numeric].
    unfold to_numeric_text. rewrite (infinity_not_literal _ Hi).
    apply mem_words in Hi. unfold infinity_words. now rewrite Hi. }
  split; [exact cut_towards_zero|].
  split; [exact coerce_range|].
  split.
  { intros n Hn H. apply Hn. exact (coerce_range _ _ H). }
  reflexivity.
Qed.

End Build.

(** C4 as worded fails: the text "inf" reads as a number and has no
    integer, so the coercion raises on it whatever the build. *)
Lemma C4_counterexample : ~ coercion_never_fails.
Proof.
  intro H. destruct (H exact_build (CStr "inf")) as [q Hq].
  discriminate Hq.
Qed.

End CoercionFacts.

Module RowFacts.

Import PyStr Transform Samples.

(** **** Missing columns *)

Lemma mem_In (x : string) (l : list string) : mem x l = true <-> In x l.
Proof.
  unfold mem. rewrite existsb_exists. split.
  - intros (y & Hy & He). apply String.eqb_eq in He. now subst.
  - intro H. exists x. split; [exact H | apply String.eqb_refl].
Qed.

Lemma missing_nil (cols : list string) :
  missing cols = [] <-> forall c, In c KEEP_COLS -> In c cols.
Proof.
  unfold missing. split.
  - intros H c Hc. destruct (mem c cols) eqn:Hm; [now apply mem_In|].
    assert (Hin : In c (filter (fun c => negb (mem c cols)) KEEP_COLS)).
    { apply filter_In. split; [exact Hc | now rewrite Hm]. }
    rewrite H in Hin. destruct Hin.
  - intro H.
    destruct (filter (fun c => negb (mem c cols)) KEEP_COLS) as [|c l] eqn:Hf;
      [reflexivity|].
    assert (Hin : In c (filter (fun c => negb (mem c cols)) KEEP_COLS))
      by (rewrite Hf; now left).
    apply filter_In in Hin. destruct Hin as [Hc Hm].
    apply H, mem_In in Hc. rewrite Hc in Hm. discriminate Hm.
Qed.

Lemma rename_In (k v x : string) (cols : list string) :
  In x (rename k v cols) -> In x cols \/ (x = v /\ In k cols).
Proof.
  unfold rename. rewrite in_map_iff. intros (c & He & Hc).
  destruct (String.eqb c k) eqn:E.
  - apply String.eqb_eq in E. subst. right. now split.
  - left. now subst.
Qed.

Lemma alias_step_In (k v x : string) (cols : list string) :
  In x (if mem k cols && negb (mem v cols) then rename k v cols else cols) ->
  In x cols \/ (x = v /\ In k cols).
Proof.
  destruct (mem k cols && negb (mem v cols)); [apply rename_In | now left].
Qed.

(** A frame gets a UOM column only from a column read as UOM or Unit. *)
Lemma apply_alias_uom (cols : list string) :
  In "UOM" (apply_alias cols) -> In "UOM" cols \/ In "Unit" cols.
Proof.
  unfold apply_alias, alias. cbn [fold_left fst snd]. intro H.
  apply alias_step_In in H. destruct H as [H|[_ H]].
  - apply alias_step_In in H. destruct H as [H|[E _]]; [|discriminate E].
    apply alias_step_In in H. destruct H as [H|[E _]]; [|discriminate E].
    now left.
  - apply alias_step_In in H. destruct H as [H|[E _]]; [|discriminate E].
    apply alias_step_In in H. destruct H as [H|[E _]]; [|discriminate E].
    now right.
Qed.

Section Build.

Variable beyond : Cell -> Res Z.

Local Abbreviation coerce_sold_qty := (Transform.coerce_sold_qty beyond).
Local Abbreviation coerce_column := (Transform.coerce_column beyond).
Local Abbreviation coerce := (Transform.coerce beyond).
Local Abbreviation clean_and_reduce := (Transform.clean_and_reduce beyond).

Lemma coerce_column_each (xs : list Cell) (qs : list Z) :
  coerce_column xs = Ok qs ->
  Forall2 (fun x q => coerce_sold_qty x = Ok q) xs qs.
Proof.
  revert qs. induction xs as [|x xs IH]; intros qs H; simpl in H.
  - injection H as <-. constructor.
  - destruct (coerce_sold_qty x) as [q|] eqn:Hq; [|discriminate H].
    destruct (coerce_column xs) as [qs'|]; [|discriminate H].
    injection H as <-. constructor; [exact Hq | now apply IH].
Qed.

(** What [coerce] returns when it returns: the product rows of the kept
    lines with the quantities coerced for them, line by line. *)
Lemma coerce_rows (df : Frame) (prod : list ProductRow) :
  coerce df = Ok prod ->
  exists qtys,
    Forall2 (fun x q => coerce_sold_qty x = Ok q)
            (map l_sold_qty (candidate_rows df)) qtys
    /\ prod
       = product_rows
           (held_as_float (map (get (columns df) "SKU") (rows df)))
           (held_as_float (map (get (columns df) "Category") (rows df)))
           (candidate_rows df) qtys.
Proof.
  unfold Transform.coerce.
  destruct (twice "SKU" (columns df) || twice "Category" (columns df)
            || twice "Sold QTY" (columns df)
            || twice "Description" (columns df) && negb (is_empty (rows df)));
    [discriminate|].
  destruct (coerce_column (map l_sold_qty (candidate_rows df)))
    as [qtys|] eqn:Hq; [|discriminate].
  match goal with
  | |- (if ?c then _ else _) = _ -> _ => destruct c; [discriminate|]
  end.
  intro H. injection H as <-. exists qtys.
  split; [now apply coerce_column_each | reflexivity].
Qed.

(** Every product row is made of its own line: the kept lines that have
    a category and the product rows go together one by one. *)
Lemma product_rows_link (sku_float cat_float : bool) (lines : list Line)
      (qtys : list Z) :
  Forall2 (fun x q => coerce_sold_qty x = Ok q) (map l_sold_qty lines) qtys ->
  Forall2
    (fun ln r =>
       sku r = clean_sku sku_float (l_sku ln)
       /\ description r = l_description ln
       /\ uom r = l_uom ln
       /\ category_text cat_float (l_category ln) = Some (category r)
       /\ coerce_sold_qty (l_sold_qty ln) = Ok (sold_qty r))
    (filter (has_category cat_float) lines)
    (product_rows sku_float cat_float lines qtys).
Proof.
  revert qtys. induction lines as [|ln lines IH]; intros qtys H;
    inversion H as [|x q xs qs Hq Hrest]; subst.
  - constructor.
  - cbn [filter product_rows]. unfold has_category at 1.
    destruct (category_text cat_float (l_category ln)) as [cat|] eqn:Hc.
    + constructor; [|now apply IH]. cbn. now repeat split.
    + now apply IH.
Qed.

(** C8, as the script has it.  The product rows are made of the kept
    lines that have a category, one by one and in their order: the Sold
    QTY of a row is the integer coerced from the Sold QTY cell of its own
    line.  It is 0 when the cell does not read as a number; it is the
    number of the cell cut towards zero, with the sign of the cell, when
    the cell reads as a settled number, so that a negative whole number
    (below 2^31 in magnitude) stays as it is and is not raised to 0; and
    it lies within 64 bits in every case. *)
Theorem C8_sold_qty_sign (df : Frame) (prod : list ProductRow) :
  coerce df = Ok prod ->
  let sku_float := held_as_float (map (get (columns df) "SKU") (rows df)) in
  let cat_float :=
    held_as_float (map (get (columns df) "Category") (rows df)) in
  Forall2
    (fun ln r =>
       sku r = clean_sku sku_float (l_sku ln)
       /\ description r = l_description ln
       /\ uom r = l_uom ln
       /\ category_text cat_float (l_category ln) = Some (category r)
       /\ coerce_sold_qty (l_sold_qty ln) = Ok (sold_qty r)
       /\ (to_num (l_sold_qty ln) = NotANumber -> sold_qty r = 0%Z)
       /\ (forall m e,
             to_num (l_sold_qty ln) = Finite m e ->
             sold_qty r = cut m e
             /\ ((0 <= m -> 0 <= sold_qty r)
                 /\ (m <= 0 -> sold_qty r <= 0))%Z)
       /\ (forall n,
             l_sold_qty ln = CInt n -> (Z.abs n < 2 ^ 31)%Z ->
             sold_qty r = n)
       /\ (- 2 ^ 63 <= sold_qty r <= 2 ^ 63 - 1)%Z)
    (filter (has_category cat_float) (candidate_rows df))
    prod.
Proof.
  intros Hc sku_float cat_float.
  destruct (coerce_rows df prod Hc) as (qtys & Hq & ->).
  pose proof (product_rows_link sku_float cat_float _ _ Hq) as H.
  fold sku_float cat_float.
  eapply Forall2_impl; [|exact H].
  intros ln r (Hs & Hd & Hu & Hcat & Hco).
  repeat (split; [assumption|]).
  split; [|split; [|split]].
  - intro Hn. unfold Transform.coerce_sold_qty in Hco. rewrite Hn in Hco.
    now injection Hco.
  - intros m e Hf. unfold Transform.coerce_sold_qty in Hco.
    rewrite Hf in Hco. cbn [fillna0_astype_int] in Hco.
    injection Hco as <-. split; [reflexivity | apply CoercionFacts.cut_sign].
  - intros n Hn Hb. rewrite Hn in Hco.
    unfold Transform.coerce_sold_qty in Hco. cbn [to_num to_numeric] in Hco.
    assert (Hs' : settled_int n = true)
      by (unfold settled_int, SETTLED; now apply Z.ltb_lt).
    rewrite Hs' in Hco. cbn [fillna0_astype_int] in Hco.
    injection Hco as <-. unfold cut. cbn. lia.
  - exact (CoercionFacts.coerce_range beyond _ _ Hco).
Qed.

Lemma short_circuit (report_date created : string) (raw : RawTable)
      (c : string) :
  In c KEEP_COLS -> ~ In c (columns (load raw)) ->
  clean_and_reduce report_date created raw = Ok (header_only, (0, 0)).
Proof.
  intros Hc Hn. unfold Transform.clean_and_reduce.
  destruct (missing (columns (load raw))) as [|m ms] eqn:Hm; [|reflexivity].
  exfalso. apply Hn. now apply (proj1 (missing_nil _) Hm).
Qed.

(** C5.  When one of SKU, Description, Category, UOM, Sold QTY is not
    among the column names after header detection, trimming and
    aliasing, [clean_and_reduce] does not raise: it writes the sheet that
    holds the header row alone and returns (0, 0).  So does an input whose
    header row has no column reading UOM (nor Unit, which the aliasing
    would turn into UOM); the decision on (0, 0) is the no-rows alert. *)
Theorem C5_missing_columns_short_circuit (report_date created : string)
        (raw : RawTable) :
  (forall c,
     In c KEEP_COLS -> ~ In c (columns (load raw)) ->
     clean_and_reduce report_date created raw = Ok (header_only, (0, 0)))
  /\ (~ In "UOM" (columns (read_excel (header_row_idx raw) raw)) ->
      ~ In "Unit" (columns (read_excel (header_row_idx raw) raw)) ->
      clean_and_reduce report_date created raw = Ok (header_only, (0, 0)))
  /\ header_only
     = [[VText "SKU"; VText "Description"; VText "Category"; VText "UOM";
         VText "Sold QTY"]]
  /\ Decision.decide 0 0 = Decision.AlertNoRows
  /\ Decision.is_alert (Decision.decide 0 0) = true.
Proof.
  split; [intros c; apply short_circuit|].
  split; [|repeat split].
  intros Hu Hn. apply (short_circuit _ _ _ "UOM").
  - simpl. tauto.
  - intro H. cbn [load columns] in H. apply apply_alias_uom in H. tauto.
Qed.

End Build.

Lemma returns_day_rows :
  coerce exact_build (load returns_day) = Ok returns_rows.
Proof. vm_compute. reflexivity. Qed.

(** C8 as worded fails: on the day with returns the quantity -5 of the
    first product and the text "-3" of the second stay negative. *)
Lemma C8_counterexample : ~ sold_qty_never_negative.
Proof.
  intro H.
  specialize (H exact_build returns_day returns_rows
                (mkRow (VText "1001") (CStr "Vodka 750ml") "Spirits"
                       (CStr "EA") (-5))
                returns_day_rows (or_introl eq_refl)).
  simpl in H. lia.
Qed.

(** C8 on the day with returns: the second row's -3 is what the cell of
    its own line coerces to. *)
Lemma C8_witness :
  exists ln,
    nth_error (candidate_rows (load returns_day)) 1 = Some ln
    /\ l_sku ln = CInt 1002
    /\ coerce_sold_qty exact_build (l_sold_qty ln) = Ok (-3)%Z.
Proof.
  pose proof (C8_sold_qty_sign exact_build (load returns_day) returns_rows)
    as H.
  assert (Hc : coerce exact_build (load returns_day) = Ok returns_rows)
    by (vm_compute; reflexivity).
  specialize (H Hc). cbv zeta in H.
  assert (E : filter
                (has_category
                   (held_as_float
                      (map (get (columns (load returns_day)) "Category")
                           (rows (load returns_day)))))
                (candidate_rows (load returns_day))
              = candidate_rows (load returns_day))
    by (vm_compute; reflexivity).
  rewrite E in H.
  destruct (candidate_rows (load returns_day)) as [|l1 [|l2 ls]] eqn:El;
    [inversion H | inversion H as [|? ? ? ? _ H']; inversion H' |].
  unfold returns_rows in H.
  inversion H as [|? ? ? ? _ H']. subst.
  inversion H' as [|? ? ? ? (Hs & _ & _ & _ & Hq & _) _]. subst.
  exists l2. split; [reflexivity|]. split; [|exact Hq].
  assert (E2 : nth_error (candidate_rows (load returns_day)) 1
               = Some (mkLine (CInt 1002) (CStr "Lager 6pk") (CStr "Beer")
                              (CStr "EA") (CStr "-3")))
    by (vm_compute; reflexivity).
  rewrite El in E2. cbn in E2. injection E2 as ->. reflexivity.
Defined.

(** C5 on the export without its UOM column. *)
Lemma C5_witness :
  clean_and_reduce exact_build "11/03/26" "11/04/2026 07:45 AM" scenario_b
  = Ok (header_only, (0, 0)).
Proof.
  apply (proj1 (proj2 (C5_missing_columns_short_circuit exact_build
                         "11/03/26" "11/04/2026 07:45 AM" scenario_b))).
  - vm_compute. intros [H|[H|[H|[H|[H|[]]]]]]; discriminate H.
  - vm_compute. intros [H|[H|[H|[H|[H|[]]]]]]; discriminate H.
Defined.

End RowFacts.

Module GroupFacts.

Import PyStr Transform Samples.

Local Open Scope nat_scope.

Lemma flat_map_agree {A B : Type} (f g : A -> list B) (l : list A) :
  (forall a, In a l -> f a = g a) -> flat_map f l = flat_map g l.
Proof.
  induction l as [|a l IH]; intro H; [reflexivity|].
  cbn [flat_map]. rewrite (H a (or_introl eq_refl)). f_equal.
  apply IH. intros b Hb. apply H. now right.
Qed.

(** **** The stable sort on the category codes *)

Lemma insert_row_front (x : nat * ProductRow) (l : list (nat * ProductRow)) :
  (forall y, In y l -> fst x <= fst y) -> insert_row x l = x :: l.
Proof.
  destruct l as [|y l]; [reflexivity|].
  intro H. cbn [insert_row].
  destruct (Nat.leb_spec (fst x) (fst y)) as [_|Hlt]; [reflexivity|].
  specialize (H y (or_introl eq_refl)). lia.
Qed.

Lemma insert_row_pass (x : nat * ProductRow)
      (l1 l2 : list (nat * ProductRow)) :
  (forall y, In y l1 -> fst y < fst x) ->
  insert_row x (l1 ++ l2) = l1 ++ insert_row x l2.
Proof.
  induction l1 as [|y l1 IH]; intro H; [reflexivity|].
  cbn [app insert_row].
  destruct (Nat.leb_spec (fst x) (fst y)) as [Hle|_].
  - specialize (H y (or_introl eq_refl)). lia.
  - f_equal. apply IH. intros z Hz. apply H. now right.
Qed.

Lemma insert_row_perm (x : nat * ProductRow) (l : list (nat * ProductRow)) :
  Permutation (insert_row x l) (x :: l).
Proof.
  induction l as [|y l IH]; cbn [insert_row]; [reflexivity|].
  destruct (fst x <=? fst y); [reflexivity|].
  rewrite IH. apply perm_swap.
Qed.

Lemma sort_values_perm (l : list (nat * ProductRow)) :
  Permutation (sort_values l) l.
Proof.
  induction l as [|x l IH]; cbn [sort_values]; [reflexivity|].
  rewrite insert_row_perm. now constructor.
Qed.

(** Inserting into a frame made of one block per code, the blocks in the
    order of the codes, puts the row at the head of its block. *)
Lemma insert_row_blocks (F : nat -> list (nat * ProductRow))
      (x : nat * ProductRow) (n a : nat) :
  (forall c y, In y (F c) -> fst y = c) ->
  a <= fst x < a + n ->
  insert_row x (flat_map F (seq a n))
  = flat_map (fun c => if c =? fst x then x :: F c else F c) (seq a n).
Proof.
  intro HF. revert a. induction n as [|n IH]; intros a Hx; [lia|].
  cbn [seq flat_map].
  destruct (Nat.eqb_spec a (fst x)) as [E|E].
  - rewrite insert_row_front.
    + cbn [app]. do 2 f_equal. apply flat_map_agree.
      intros c Hc. apply in_seq in Hc.
      destruct (Nat.eqb_spec c (fst x)); [lia | reflexivity].
    + intros y Hy. apply in_app_or in Hy. destruct Hy as [Hy|Hy].
      * apply HF in Hy. lia.
      * apply in_flat_map in Hy. destruct Hy as (c & Hc & Hy).
        apply in_seq in Hc. apply HF in Hy. lia.
  - rewrite insert_row_pass.
    + f_equal. apply IH. lia.
    + intros y Hy. apply HF in Hy. lia.
Qed.

Lemma flat_map_nil {A B : Type} (l : list A) :
  flat_map (fun _ : A => @nil B) l = [].
Proof. induction l; [reflexivity | assumption]. Qed.

(** The sorted frame: the rows of code 0 in their order, then those of
    code 1, and so on. *)
Lemma sort_values_blocks (l : list (nat * ProductRow)) (n : nat) :
  (forall x, In x l -> fst x < n) ->
  sort_values l
  = flat_map (fun c => filter (fun x => fst x =? c) l) (seq 0 n).
Proof.
  induction l as [|x l IH]; intro H.
  - cbn [sort_values filter]. now rewrite flat_map_nil.
  - cbn [sort_values]. rewrite IH by (intros y Hy; apply H; now right).
    rewrite insert_row_blocks.
    + apply flat_map_ext. intro c. cbn [filter].
      rewrite (Nat.eqb_sym c (fst x)). reflexivity.
    + intros c y Hy. apply filter_In in Hy. now apply Nat.eqb_eq.
    + specialize (H x (or_introl eq_refl)). lia.
Qed.

(** **** First-seen order *)

Lemma first_seen_In (l : list string) (x : string) :
  In x (first_seen l) <-> In x l.
Proof.
  induction l as [|c l IH]; [reflexivity|].
  cbn [first_seen In]. rewrite filter_In, IH, negb_true_iff, String.eqb_neq.
  destruct (string_dec c x) as [->|Hn]; [tauto|].
  split; [tauto|]. intros [E|H]; [tauto|]. right. split; [exact H | congruence].
Qed.

Lemma first_seen_NoDup (l : list string) : NoDup (first_seen l).
Proof.
  induction l as [|c l IH]; cbn [first_seen]; constructor.
  - rewrite filter_In, String.eqb_refl. intros [_ H]. discriminate H.
  - now apply NoDup_filter.
Qed.

Lemma filter_neq_absent (u : string) (l : list string) :
  ~ In u l -> filter (fun d => negb (String.eqb d u)) l = l.
Proof.
  induction l as [|c l IH]; intro H; [reflexivity|].
  cbn [filter]. destruct (String.eqb_spec c u) as [->|Hn].
  - exfalso. apply H. now left.
  - cbn [negb]. f_equal. apply IH. intro Hi. apply H. now right.
Qed.

Lemma filter_neq_idem (u : string) (l : list string) :
  filter (fun d => negb (String.eqb d u))
         (filter (fun d => negb (String.eqb d u)) l)
  = filter (fun d => negb (String.eqb d u)) l.
Proof.
  induction l as [|c l IH]; [reflexivity|].
  cbn [filter]. destruct (negb (String.eqb c u)) eqn:E; [|exact IH].
  cbn [filter]. now rewrite E, IH.
Qed.

(** A run of one category at the head counts once. *)
Lemma first_seen_run (u : string) (l1 l2 : list string) :
  l1 <> [] -> (forall c, In c l1 -> c = u) ->
  first_seen (l1 ++ l2)
  = u :: filter (fun d => negb (String.eqb d u)) (first_seen l2).
Proof.
  induction l1 as [|c l1 IH]; intros Hne Hall; [contradiction|].
  assert (c = u) by (apply Hall; now left). subst c.
  cbn [app first_seen]. f_equal.
  destruct l1 as [|c' l1]; [reflexivity|].
  rewrite IH; [|discriminate | intros c Hc; apply Hall; now right].
  cbn [filter]. rewrite String.eqb_refl. cbn [negb].
  apply filter_neq_idem.
Qed.

(** **** Codes and categories *)

Lemma col_index_lt (k : string) (U : list string) :
  In k U -> col_index k U < List.length U.
Proof.
  induction U as [|u U IH]; intro H; [contradiction|].
  cbn [col_index List.length]. destruct (String.eqb_spec u k) as [E|E]; [lia|].
  destruct H as [H|H]; [contradiction|]. specialize (IH H). lia.
Qed.

Lemma nth_col_index (k : string) (U : list string) :
  In k U -> nth (col_index k U) U "" = k.
Proof.
  induction U as [|u U IH]; intro H; [contradiction|].
  cbn [col_index]. destruct (String.eqb_spec u k) as [E|E]; [exact E|].
  destruct H as [H|H]; [contradiction|]. cbn [nth]. now apply IH.
Qed.

Lemma col_index_nth (c : nat) (U : list string) :
  NoDup U -> c < List.length U -> col_index (nth c U "") U = c.
Proof.
  revert c. induction U as [|u U IH]; intros c Hnd Hc; [simpl in Hc; lia|].
  inversion Hnd as [|? ? Hu Hnd']; subst.
  destruct c as [|c]; cbn [nth col_index].
  - now rewrite String.eqb_refl.
  - cbn [List.length] in Hc.
    destruct (String.eqb_spec u (nth c U "")) as [E|E].
    + exfalso. apply Hu. rewrite E. apply nth_In. lia.
    + f_equal. apply IH; [exact Hnd' | lia].
Qed.

Lemma map_nth_all (U : list string) :
  map (fun c => nth c U "") (seq 0 (List.length U)) = U.
Proof.
  induction U as [|u U IH]; [reflexivity|].
  cbn [List.length seq map nth]. f_equal.
  rewrite <- seq_shift, map_map. exact IH.
Qed.

Lemma flat_map_map {A B C : Type} (h : A -> B) (G : B -> list C)
      (l : list A) :
  flat_map G (map h l) = flat_map (fun a => G (h a)) l.
Proof.
  induction l as [|a l IH]; [reflexivity|].
  cbn [map flat_map]. now rewrite IH.
Qed.

Lemma map_flat_map {A B C : Type} (f : B -> C) (G : A -> list B)
      (l : list A) :
  map f (flat_map G l) = flat_map (fun a => map f (G a)) l.
Proof.
  induction l as [|a l IH]; [reflexivity|].
  cbn [flat_map]. now rewrite map_app, IH.
Qed.

Lemma with_cat_order_eq (prod : list ProductRow) :
  with_cat_order prod
  = map (fun r => (col_index (category r)
                             (first_seen (map category prod)), r)) prod.
Proof.
  unfold with_cat_order, factorize. cbn [fst].
  generalize (first_seen (map category prod)) as U. intro U.
  induction prod as [|r prod IH]; [reflexivity|].
  cbn [map combine]. now rewrite IH.
Qed.

Lemma rows_of_code (code : ProductRow -> nat) (c : nat)
      (prod : list ProductRow) :
  map snd (filter (fun x => fst x =? c) (map (fun r => (code r, r)) prod))
  = filter (fun r => code r =? c) prod.
Proof.
  induction prod as [|r prod IH]; [reflexivity|].
  cbn [map filter fst]. destruct (code r =? c); cbn [map snd]; now rewrite IH.
Qed.

(** The sorted frame is the row set category by category, the categories
    in first-seen order and the rows of each in their original order. *)
Lemma sorted_frame (prod : list ProductRow) :
  map snd (sort_values (with_cat_order prod))
  = flat_map (block prod) (first_seen (map category prod)).
Proof.
  rewrite with_cat_order_eq.
  set (U := first_seen (map category prod)).
  assert (HU : forall r, In r prod -> In (category r) U).
  { intros r Hr. apply first_seen_In, in_map, Hr. }
  rewrite (sort_values_blocks _ (List.length U)).
  - rewrite map_flat_map.
    rewrite <- (map_nth_all U) at 2. rewrite flat_map_map.
    apply flat_map_agree. intros c Hc. apply in_seq in Hc.
    rewrite rows_of_code. unfold block. apply filter_ext_in.
    intros r Hr. specialize (HU r Hr).
    destruct (String.eqb_spec (category r) (nth c U "")) as [E|E].
    + apply Nat.eqb_eq. rewrite E.
      apply col_index_nth; [apply first_seen_NoDup | lia].
    + apply Nat.eqb_neq. intro Hc'. apply E.
      rewrite <- Hc'. symmetry. now apply nth_col_index.
  - intros x Hx. apply in_map_iff in Hx. destruct Hx as (r & <- & Hr).
    cbn [fst]. apply col_index_lt, HU, Hr.
Qed.

Lemma filter_none {A : Type} (f : A -> bool) (l : list A) :
  (forall x, In x l -> f x = false) -> filter f l = [].
Proof.
  induction l as [|a l IH]; intro H; [reflexivity|].
  cbn [filter]. rewrite (H a (or_introl eq_refl)).
  apply IH. intros x Hx. apply H. now right.
Qed.

Lemma filter_all {A : Type} (f : A -> bool) (l : list A) :
  (forall x, In x l -> f x = true) -> filter f l = l.
Proof.
  induction l as [|a l IH]; intro H; [reflexivity|].
  cbn [filter]. rewrite (H a (or_introl eq_refl)). f_equal.
  apply IH. intros x Hx. apply H. now right.
Qed.

Lemma block_category (prod : list ProductRow) (k : string) (r : ProductRow) :
  In r (block prod k) -> category r = k.
Proof.
  unfold block. rewrite filter_In. intros [_ H]. now apply String.eqb_eq.
Qed.

Lemma block_nonempty (prod : list ProductRow) (k : string) :
  In k (map category prod) -> block prod k <> [].
Proof.
  intro H. apply in_map_iff in H. destruct H as (r & <- & Hr).
  intro E. assert (Hin : In r (block prod (category r))).
  { unfold block. apply filter_In. split; [exact Hr | apply String.eqb_refl]. }
  rewrite E in Hin. destruct Hin.
Qed.

(** Blocks laid end to end show their categories in the order given. *)
Lemma first_seen_blocks (B : string -> list ProductRow) (U : list string) :
  NoDup U ->
  (forall k, In k U -> B k <> [] /\ forall r, In r (B k) -> category r = k) ->
  first_seen (map category (flat_map B U)) = U.
Proof.
  induction U as [|u U IH]; intros Hnd HB; [reflexivity|].
  inversion Hnd as [|? ? Hu Hnd']; subst.
  cbn [flat_map]. rewrite map_app.
  destruct (HB u (or_introl eq_refl)) as [Hne Hcat].
  rewrite (first_seen_run u).
  - rewrite IH; [|exact Hnd' | intros k Hk; apply HB; now right].
    f_equal. now apply filter_neq_absent.
  - destruct (B u); [contradiction | discriminate].
  - intros c Hc. apply in_map_iff in Hc. destruct Hc as (r & <- & Hr).
    now apply Hcat.
Qed.

Lemma filter_blocks (B : string -> list ProductRow) (U : list string)
      (k : string) :
  NoDup U -> In k U ->
  (forall k' r, In k' U -> In r (B k') -> category r = k') ->
  filter (fun r => String.eqb (category r) k) (flat_map B U) = B k.
Proof.
  induction U as [|u U IH]; intros Hnd Hk HB; [contradiction|].
  inversion Hnd as [|? ? Hu Hnd']; subst.
  cbn [flat_map]. rewrite filter_app.
  assert (Hrest : forall k', ~ In k' U ->
            filter (fun r => String.eqb (category r) k') (flat_map B U) = []).
  { intros k' Hk'. apply filter_none. intros r Hr. apply in_flat_map in Hr.
    destruct Hr as (k2 & Hk2 & Hr). apply String.eqb_neq.
    rewrite (HB k2 r (or_intror Hk2) Hr). intros ->. contradiction. }
  assert (Hhead : forall k',
            filter (fun r => String.eqb (category r) k') (B u)
            = if String.eqb u k' then B u else []).
  { intro k'. destruct (String.eqb_spec u k') as [E|E].
    - apply filter_all. intros r Hr. apply String.eqb_eq.
      rewrite <- E. apply (HB u r (or_introl eq_refl) Hr).
    - apply filter_none. intros r Hr. apply String.eqb_neq.
      rewrite (HB u r (or_introl eq_refl) Hr). exact E. }
  rewrite Hhead. destruct Hk as [->|Hk].
  - rewrite String.eqb_refl, (Hrest k Hu). apply app_nil_r.
  - destruct (String.eqb_spec u k) as [->|_]; [contradiction|].
    cbn [app]. apply IH; [exact Hnd' | exact Hk |].
    intros k' r Hk' Hr. apply HB; [now right | exact Hr].
Qed.

(** Sorting on the codes before grouping leaves the groups as the
    grouping of the row set itself. *)
Lemma group_rows_eq (prod : list ProductRow) :
  group_rows prod
  = map (fun k => (k, block prod k)) (first_seen (map category prod)).
Proof.
  unfold group_rows, groupby. rewrite sorted_frame.
  set (U := first_seen (map category prod)).
  assert (Hnd : NoDup U) by apply first_seen_NoDup.
  rewrite first_seen_blocks.
  - apply map_ext_in. intros k Hk. f_equal.
    apply filter_blocks; [exact Hnd | exact Hk |].
    intros k' r _. apply block_category.
  - exact Hnd.
  - intros k Hk. split.
    + apply block_nonempty. now apply first_seen_In.
    + intro r. apply block_category.
Qed.

(** **** The order of first appearance *)

Lemma col_index_filter_order (c x y : string) (m : list string) :
  x <> c -> y <> c -> In x m -> In y m ->
  (col_index x (filter (fun d => negb (String.eqb d c)) m)
   < col_index y (filter (fun d => negb (String.eqb d c)) m)
   <-> col_index x m < col_index y m).
Proof.
  intros Hx Hy. induction m as [|d m IH]; intros Hxm Hym; [contradiction|].
  cbn [filter col_index].
  destruct (String.eqb_spec d c) as [->|Hdc]; cbn [negb].
  - destruct (String.eqb_spec c x) as [E|_]; [congruence|].
    destruct (String.eqb_spec c y) as [E|_]; [congruence|].
    destruct Hxm as [E|Hxm]; [congruence|].
    destruct Hym as [E|Hym]; [congruence|].
    rewrite (IH Hxm Hym). lia.
  - cbn [col_index].
    destruct (String.eqb_spec d x) as [Ex|Ex];
      destruct (String.eqb_spec d y) as [Ey|Ey]; try lia.
    destruct Hxm as [E|Hxm]; [congruence|].
    destruct Hym as [E|Hym]; [congruence|].
    rewrite <- !Nat.succ_lt_mono. now apply IH.
Qed.

(** One category comes before another among the first-seen categories
    exactly when its first row comes before the first row of the other. *)
Lemma first_seen_order (l : list string) (x y : string) :
  In x l -> In y l ->
  (col_index x (first_seen l) < col_index y (first_seen l)
   <-> col_index x l < col_index y l).
Proof.
  induction l as [|c l IH]; intros Hx Hy; [contradiction|].
  cbn [first_seen col_index].
  destruct (String.eqb_spec c x) as [Ex|Ex];
    destruct (String.eqb_spec c y) as [Ey|Ey]; try lia.
  destruct Hx as [E|Hx]; [congruence|].
  destruct Hy as [E|Hy]; [congruence|].
  rewrite <- !Nat.succ_lt_mono.
  rewrite col_index_filter_order;
    [now apply IH | congruence | congruence
     | now apply first_seen_In | now apply first_seen_In].
Qed.

Lemma group_rows_keys (prod : list ProductRow) :
  map fst (group_rows prod) = first_seen (map category prod).
Proof.
  rewrite group_rows_eq, map_map. cbn [fst]. apply map_id.
Qed.

(** C6.  The groups come in the order in which their categories first
    appear in the filtered, coerced row set, one group per category: a
    category is ahead of another exactly when its first row is ahead of
    the other's first row.  Each group holds the rows of its category in
    their original order.  Rows whose categories run B, A, B, C (three
    different categories) give the groups B, A, C. *)
Theorem C6_groups_in_first_seen_order (prod : list ProductRow) :
  map fst (group_rows prod) = first_seen (map category prod)
  /\ NoDup (map fst (group_rows prod))
  /\ (forall k, In k (map fst (group_rows prod)) <-> In k (map category prod))
  /\ (forall x y,
        In x (map category prod) -> In y (map category prod) ->
        (col_index x (map fst (group_rows prod))
         < col_index y (map fst (group_rows prod))
         <-> col_index x (map category prod)
             < col_index y (map category prod)))
  /\ (forall k g,
        In (k, g) (group_rows prod) ->
        g = filter (fun r => String.eqb (category r) k) prod)
  /\ (forall B A C,
        map category prod = [B; A; B; C] ->
        B <> A -> B <> C -> A <> C ->
        map fst (group_rows prod) = [B; A; C]).
Proof.
  rewrite group_rows_keys.
  split; [reflexivity|].
  split; [apply first_seen_NoDup|].
  split; [intro k; apply first_seen_In|].
  split; [intros x y; apply first_seen_order|].
  split.
  - intros k g Hin. rewrite group_rows_eq in Hin.
    apply in_map_iff in Hin. destruct Hin as (k' & E & _).
    injection E as -> <-. reflexivity.
  - intros B A C -> HBA HBC HAC. cbn [first_seen filter].
    repeat match goal with
           | |- context [String.eqb ?a ?b] =>
               destruct (String.eqb_spec a b); try congruence;
               cbn [negb filter]
           end.
    reflexivity.
Qed.

(** C6 on four rows in the categories Beer, Ale, Beer, Cider. *)
Lemma C6_witness : map fst (group_rows four_rows) = ["Beer"; "Ale"; "Cider"].
Proof.
  apply (proj2 (proj2 (proj2 (proj2 (proj2
           (C6_groups_in_first_seen_order four_rows)))))
           "Beer" "Ale" "Cider").
  - reflexivity.
  - discriminate.
  - discriminate.
  - discriminate.
Defined.

(** **** Totals and counts *)

Lemma fold_left_add (l : list Z) (a : Z) :
  (fold_left Z.add l a = a + fold_right Z.add 0 l)%Z.
Proof.
  revert a. induction l as [|x l IH]; intro a; cbn [fold_left fold_right].
  - lia.
  - rewrite IH. lia.
Qed.

Lemma total_qty_sum (grp : list ProductRow) :
  total_qty grp = wrap64 (sum_of_sold_qty grp).
Proof.
  unfold total_qty, sum_of_sold_qty. f_equal. rewrite fold_left_add.
  induction grp as [|r grp IH]; [reflexivity|].
  cbn [map fold_right]. cbn [Z.add] in IH. lia.
Qed.

(** [wrap64] is the representative within 64 bits. *)
Lemma wrap64_spec (z : Z) :
  (- 2 ^ 63 <= wrap64 z <= 2 ^ 63 - 1)%Z
  /\ (exists k, wrap64 z = z + k * 2 ^ 64)%Z
  /\ ((- 2 ^ 63 <= z <= 2 ^ 63 - 1)%Z -> wrap64 z = z).
Proof.
  split; [apply CoercionFacts.wrap64_range|]. split.
  - exists (- ((z + 2 ^ 63) / 2 ^ 64))%Z. unfold wrap64.
    pose proof (Z.div_mod (z + 2 ^ 63) (2 ^ 64)). lia.
  - apply CoercionFacts.wrap64_small.
Qed.

Lemma sum_bound (l : list ProductRow) (B : Z) :
  (forall r, In r l -> (Z.abs (sold_qty r) < B)%Z) ->
  (Z.abs (sum_of_sold_qty l) <= Z.of_nat (List.length l) * B)%Z.
Proof.
  unfold sum_of_sold_qty.
  induction l as [|r l IH]; intro H; cbn [fold_right List.length].
  - lia.
  - assert (Hr : (Z.abs (sold_qty r) < B)%Z) by (apply H; now left).
    assert (Hl := IH (fun r' Hr' => H r' (or_intror Hr'))).
    rewrite Nat2Z.inj_succ. lia.
Qed.

Lemma groups_concat (prod : list ProductRow) :
  List.concat (map snd (group_rows prod))
  = map snd (sort_values (with_cat_order prod)).
Proof.
  rewrite sorted_frame, group_rows_eq, map_map. cbn [snd].
  now rewrite flat_map_concat_map.
Qed.

(** The groups together hold the rows of the row set, each once. *)
Lemma groups_partition (prod : list ProductRow) :
  Permutation (List.concat (map snd (group_rows prod))) prod.
Proof.
  rewrite groups_concat.
  rewrite (Permutation_map snd (sort_values_perm (with_cat_order prod))).
  rewrite with_cat_order_eq, map_map. cbn [snd]. now rewrite map_id.
Qed.

Lemma count_perm {A : Type} (f : A -> bool) (l l' : list A) :
  Permutation l l' ->
  List.length (filter f l) = List.length (filter f l').
Proof.
  induction 1 as [|x l l' _ IH|x y l|l l' l'' _ IH1 _ IH2];
    cbn [filter]; try reflexivity.
  - destruct (f x); cbn [List.length]; now rewrite IH.
  - destruct (f x), (f y); reflexivity.
  - now rewrite IH1.
Qed.

Lemma count_concat {A : Type} (f : A -> bool) (ls : list (list A)) :
  List.length (filter f (List.concat ls))
  = list_sum (map (fun l => List.length (filter f l)) ls).
Proof.
  induction ls as [|l ls IH]; [reflexivity|].
  cbn [List.concat map list_sum]. now rewrite filter_app, length_app, IH.
Qed.

Lemma Forall2_right {A B : Type} (R : A -> B -> Prop) (l : list A)
      (l' : list B) (b : B) :
  Forall2 R l l' -> In b l' -> exists a, In a l /\ R a b.
Proof.
  induction 1 as [|x y l l' Hxy _ IH]; intro Hb; [destruct Hb|].
  destruct Hb as [<-|Hb].
  - exists x. split; [now left | exact Hxy].
  - destruct (IH Hb) as (a & Ha & Hr). exists a. split; [now right|exact Hr].
Qed.

Section Build.

Variable beyond : Cell -> Res Z.

Local Abbreviation coerce := (Transform.coerce beyond).
Local Abbreviation clean_and_reduce := (Transform.clean_and_reduce beyond).

(** Every Sold QTY of the row set is an integer of 64 bits. *)
Lemma coerce_qty_range (df : Frame) (prod : list ProductRow)
      (r : ProductRow) :
  coerce df = Ok prod -> In r prod ->
  (- 2 ^ 63 <= sold_qty r <= 2 ^ 63 - 1)%Z.
Proof.
  intros Hc Hr.
  destruct (RowFacts.coerce_rows beyond df prod Hc) as (qtys & Hq & ->).
  pose proof (RowFacts.product_rows_link beyond
                (held_as_float (map (get (columns df) "SKU") (rows df)))
                (held_as_float (map (get (columns df) "Category") (rows df)))
                _ _ Hq) as Hl.
  destruct (Forall2_right _ _ _ _ Hl Hr) as (ln & _ & _ & _ & _ & _ & Hco).
  exact (CoercionFacts.coerce_range beyond _ _ Hco).
Qed.

(** C7, as the script has it.  On an input that has its columns and whose
    quantities coerce to the row set [prod], the sheet written is the
    title block followed by one section per group.  The rows of a group
    are the rows of its category, and the total line of its section
    carries the sum of their Sold QTY values reduced to 64 bits: the
    number within 64 bits that differs from the sum by a multiple of 2^64.
    That is the sum itself whenever the sum lies within 64 bits, as it
    does for a group of up to 2^32 rows with quantities below 2^31 in
    magnitude.  The groups together hold exactly the rows of [prod];
    rows_total is the number of those rows and rows_with_qty_gt0 the
    number of them, over all groups, whose Sold QTY is above 0. *)
Theorem C7_totals_and_summary (report_date created : string)
        (raw : RawTable) (prod : list ProductRow) :
  missing (columns (load raw)) = [] ->
  coerce (load raw) = Ok prod ->
  clean_and_reduce report_date created raw
  = Ok (title_block report_date created
          ++ flat_map section (group_rows prod),
        (rows_total prod, rows_gt0 prod))
  /\ (forall g,
        In g (group_rows prod) ->
        snd g = filter (fun r => String.eqb (category r) (fst g)) prod
        /\ exists total,
             section g
             = [[VText (fst g)]; headers]
                 ++ map data_line (snd g)
                 ++ [[VText (String.append "Total " (fst g)); VText "";
                      VText ""; VText ""; VInt total];
                     [VText ""]]
             /\ (- 2 ^ 63 <= total <= 2 ^ 63 - 1)%Z
             /\ (exists k, total = sum_of_sold_qty (snd g) + k * 2 ^ 64)%Z
             /\ ((- 2 ^ 63 <= sum_of_sold_qty (snd g) <= 2 ^ 63 - 1)%Z ->
                 total = sum_of_sold_qty (snd g))
             /\ ((forall r, In r (snd g) ->
                            (Z.abs (sold_qty r) < 2 ^ 31)%Z) ->
                 (Z.of_nat (List.length (snd g)) <= 2 ^ 32)%Z ->
                 total = sum_of_sold_qty (snd g)))
  /\ (forall r, In r prod -> (- 2 ^ 63 <= sold_qty r <= 2 ^ 63 - 1)%Z)
  /\ Permutation (List.concat (map snd (group_rows prod))) prod
  /\ rows_total prod = List.length (List.concat (map snd (group_rows prod)))
  /\ rows_gt0 prod
     = List.length (filter (fun r => (0 <? sold_qty r)%Z)
                           (List.concat (map snd (group_rows prod))))
  /\ rows_gt0 prod = list_sum (map rows_gt0 (map snd (group_rows prod))).
Proof.
  intros Hm Hc. split.
  { unfold Transform.clean_and_reduce. now rewrite Hm, Hc. }
  split.
  { intros [k g] Hin. cbn [fst snd]. split.
    - rewrite group_rows_eq in Hin. apply in_map_iff in Hin.
      destruct Hin as (k' & E & _). injection E as -> <-. reflexivity.
    - exists (wrap64 (sum_of_sold_qty g)).
      destruct (wrap64_spec (sum_of_sold_qty g)) as (Hr & Hk & Hs).
      split.
      { unfold section, total_line. cbn [fst snd].
        now rewrite total_qty_sum. }
      split; [exact Hr|]. split; [exact Hk|]. split; [exact Hs|].
      intros Hq Hn. apply Hs.
      pose proof (sum_bound g (2 ^ 31) Hq) as Hb.
      assert (Hp : (Z.of_nat (List.length g) * 2 ^ 31 <= 2 ^ 32 * 2 ^ 31)%Z)
        by (apply Z.mul_le_mono_nonneg_r; lia).
      change (2 ^ 32 * 2 ^ 31)%Z with (2 ^ 63)%Z in Hp.
      assert (Hne : sum_of_sold_qty g <> (2 ^ 63)%Z).
      { intro E.
        assert (Hlt : (Z.abs (sum_of_sold_qty g)
                       < Z.of_nat (List.length g) * 2 ^ 31)%Z
                      \/ g = []).
        { clear -Hq. unfold sum_of_sold_qty.
          destruct g as [|r g]; [now right|]. left.
          assert (Hr : (Z.abs (sold_qty r) < 2 ^ 31)%Z)
            by (apply Hq; now left).
          pose proof (sum_bound g (2 ^ 31)
                        (fun r' Hr' => Hq r' (or_intror Hr'))) as Hg.
          unfold sum_of_sold_qty in Hg.
          cbn [fold_right List.length]. rewrite Nat2Z.inj_succ. lia. }
        destruct Hlt as [Hlt | ->]; [lia | discriminate E]. }
      lia. }
  split; [intros r Hr; exact (coerce_qty_range _ _ r Hc Hr)|].
  pose proof (groups_partition prod) as Hp.
  split; [exact Hp|].
  split; [unfold rows_total; symmetry; now apply Permutation_length|].
  assert (Hg : rows_gt0 prod
               = List.length (filter (fun r => (0 <? sold_qty r)%Z)
                                     (List.concat (map snd (group_rows prod))))).
  { unfold rows_gt0. symmetry. now apply count_perm. }
  split; [exact Hg|].
  rewrite Hg, count_concat. reflexivity.
Qed.

End Build.

Lemma scenario_a_coerced :
  coerce exact_build (load scenario_a) = Ok scenario_a_rows.
Proof. vm_compute. reflexivity. Qed.

(** C7 on the sample export: one group, Spirits, with the total 12, and
    the summary (1, 1). *)
Lemma C7_witness :
  clean_and_reduce exact_build "11/03/26" "11/04/2026 07:45 AM" scenario_a
  = Ok (title_block "11/03/26" "11/04/2026 07:45 AM"
          ++ flat_map section (group_rows scenario_a_rows),
        (rows_total scenario_a_rows, rows_gt0 scenario_a_rows)).
Proof.
  apply (C7_totals_and_summary exact_build
           "11/03/26" "11/04/2026 07:45 AM" scenario_a scenario_a_rows).
  - vm_compute. reflexivity.
  - vm_compute. reflexivity.
Defined.

(** C7 as worded fails: on a build of 64 bits the two quantities of the
    day of very large sales add up past 2^63, and the total line of
    Spirits carries -8446744073709551616 where the sum is 10^19. *)
Lemma C7_counterexample : ~ total_is_the_sum.
Proof.
  intro H.
  specialize (H exact_build big_day big_rows ("Spirits", big_rows)).
  assert (Hc : coerce exact_build (load big_day) = Ok big_rows)
    by (vm_compute; reflexivity).
  assert (Hg : In ("Spirits", big_rows) (group_rows big_rows))
    by (vm_compute; now left).
  specialize (H Hc Hg). vm_compute in H. discriminate H.
Qed.

(** The sample export end to end. *)
Example scenario_a_sheet :
  clean_and_reduce exact_build "11/03/26" "11/04/2026 07:45 AM" scenario_a
  = Ok ([ [VText "Sales By Product"];
          [VText "Astoria Liquor"];
          [VText "11/03/26"];
          [VText "Created: 11/04/2026 07:45 AM"];
          [VText ""];
          [VText "Spirits"];
          headers;
          [VText "1001"; VText "Vodka 750ml"; VText "Spirits"; VText "EA";
           VInt 12];
          [VText "Total Spirits"; VText ""; VText ""; VText ""; VInt 12];
          [VText ""] ],
        (1, 1)).
Proof. vm_compute. reflexivity. Qed.

(** The day of very large sales end to end, on a build of 64 bits. *)
Example big_day_sheet :
  clean_and_reduce exact_build "11/03/26" "11/04/2026 07:45 AM" big_day
  = Ok ([ [VText "Sales By Product"];
          [VText "Astoria Liquor"];
          [VText "11/03/26"];
          [VText "Created: 11/04/2026 07:45 AM"];
          [VText ""];
          [VText "Spirits"];
          headers;
          [VText "1001"; VText "Vodka 750ml"; VText "Spirits"; VText "EA";
           VInt 5000000000000000000];
          [VText "1003"; VText "Gin 750ml"; VText "Spirits"; VText "EA";
           VInt 5000000000000000000];
          [VText "Total Spirits"; VText ""; VText ""; VText "";
           VInt (-8446744073709551616)];
          [VText ""] ],
        (2, 2)).
Proof. vm_compute. reflexivity. Qed.

End GroupFacts.

(* ================================================================== *)
(** * Further properties of the transformation *)
(* ================================================================== *)

Module RowInvariants.

Import PyStr Transform Samples.

Local Open Scope nat_scope.

(** Where a product row comes from: a kept line, whose SKU is cleaned,
    whose description and unit are passed on, and whose category passed
    the guards. *)
Lemma product_rows_fields (f g : bool) (lines : list Line) (qtys : list Z)
      (r : ProductRow) :
  In r (product_rows f g lines qtys) ->
  exists ln,
    In ln lines
    /\ sku r = clean_sku f (l_sku ln)
    /\ description r = l_description ln
    /\ uom r = l_uom ln
    /\ category_text g (l_category ln) = Some (category r).
Proof.
  revert qtys. induction lines as [|ln lines IH]; intros qtys H;
    [contradiction|].
  destruct qtys as [|q qtys]; [contradiction|].
  cbn [product_rows] in H.
  destruct (category_text g (l_category ln)) as [cat|] eqn:Hc.
  - destruct H as [<-|H].
    + exists ln. cbn. repeat split; [now left | exact Hc].
    + destruct (IH _ H) as (ln' & Hin & Hrest). exists ln'.
      split; [now right | exact Hrest].
  - destruct (IH _ H) as (ln' & Hin & Hrest). exists ln'.
    split; [now right | exact Hrest].
Qed.

Lemma product_rows_length (f g : bool) (lines : list Line)
      (qtys : list Z) :
  List.length (product_rows f g lines qtys) <= List.length lines.
Proof.
  revert qtys. induction lines as [|ln lines IH]; intro qtys; [cbn; lia|].
  destruct qtys as [|q qtys]; [cbn; lia|].
  cbn [product_rows]. specialize (IH qtys).
  destruct (category_text g (l_category ln)); cbn [List.length]; lia.
Qed.

Section Build.

Variable beyond : Cell -> Res Z.

Local Abbreviation coerce := (Transform.coerce beyond).
Local Abbreviation clean_and_reduce := (Transform.clean_and_reduce beyond).

(** X1.  Whatever the input, the pair returned by [clean_and_reduce]
    satisfies rows_gt0 <= rows_total, and rows_total is at most the number
    of rows under the detected header row. *)
Theorem X1_summary_bounds (report_date created : string) (raw : RawTable)
        (sheet : Sheet) (rt gt : nat) :
  clean_and_reduce report_date created raw = Ok (sheet, (rt, gt)) ->
  gt <= rt /\ rt <= List.length raw - S (header_row_idx raw).
Proof.
  unfold Transform.clean_and_reduce.
  destruct (missing (columns (load raw))).
  - destruct (coerce (load raw)) as [prod|] eqn:Hc; [|discriminate].
    intro H. injection H as _ <- <-. split.
    + unfold rows_gt0, rows_total. apply filter_length_le.
    + destruct (RowFacts.coerce_rows beyond _ _ Hc) as (qtys & _ & ->).
      unfold rows_total.
      rewrite (product_rows_length _ _ (candidate_rows (load raw)) qtys).
      unfold candidate_rows. rewrite filter_length_le, length_map.
      cbn [load rows read_excel]. now rewrite length_skipn.
  - intro H. injection H as _ <- <-. lia.
Qed.



Lemma clean_sku_cases (f : bool) (x : Cell) :
  (exists n, x = CInt n /\ clean_sku f x = VInt n)
  \/ clean_sku f x = VText (sku_str x).
Proof.
  destruct x as [|s|n]; cbn [clean_sku].
  - now right.
  - now right.
  - destruct f; [left; now exists n | now right].
Qed.

(** X3.  The SKU of a product row is a whole number, or a trimmed text
    that is not empty, is not "nan" and does not start with "Total"; so
    no data line of the sheet can be taken for a total line.  The
    description and the unit of the row are the cells of its line,
    unchanged. *)
Theorem X3_sku_of_product_rows (df : Frame) (prod : list ProductRow)
        (r : ProductRow) :
  coerce df = Ok prod ->
  In r prod ->
  ((exists n, sku r = VInt n)
   \/ (exists t, sku r = VText t /\ t <> "" /\ t <> "nan"
                 /\ startswith "Total" t = false /\ strip t = t))
  /\ exists ln,
       In ln (candidate_rows df)
       /\ description r = l_description ln /\ uom r = l_uom ln.
Proof.
  intros Hc Hin.
  destruct (RowFacts.coerce_rows beyond _ _ Hc) as (qtys & _ & ->).
  destruct (product_rows_fields _ _ _ _ _ Hin)
    as (ln & Hln & Hsku & Hd & Hu & _).
  split; [|now exists ln].
  destruct (clean_sku_cases
              (held_as_float (map (get (columns df) "SKU") (rows df)))
              (l_sku ln)) as [(n & _ & E)|E];
    rewrite E in Hsku; [left; now exists n|].
  right. exists (sku_str (l_sku ln)). split; [exact Hsku|].
  assert (Hex : excluded ln = false).
  { unfold candidate_rows in Hln. apply filter_In in Hln.
    now apply negb_true_iff. }
  unfold excluded, is_blank, is_total in Hex.
  apply orb_false_iff in Hex. destruct Hex as [Hex _].
  apply orb_false_iff in Hex. destruct Hex as [Hb Ht].
  apply orb_false_iff in Hb. destruct Hb as [Hb1 Hb2].
  repeat split.
  - now apply String.eqb_neq.
  - now apply String.eqb_neq.
  - exact Ht.
  - apply TextFacts.strip_idem.
Qed.

End Build.

(** X1 on the sample export: one product row under a header at row 3 of
    a table of six rows. *)
Lemma X1_witness : 1 <= 1 /\ 1 <= List.length scenario_a
                                  - S (header_row_idx scenario_a).
Proof.
  apply (X1_summary_bounds exact_build
           "11/03/26" "11/04/2026 07:45 AM" scenario_a
           (title_block "11/03/26" "11/04/2026 07:45 AM"
              ++ flat_map section (group_rows scenario_a_rows))).
  vm_compute. reflexivity.
Defined.


(** X3 on the sample export. *)
Lemma X3_witness :
  (exists n, VText "1001" = VInt n)
  \/ (exists t, VText "1001" = VText t /\ t <> "" /\ t <> "nan"
                /\ startswith "Total" t = false /\ strip t = t).
Proof.
  destruct (X3_sku_of_product_rows exact_build (load scenario_a)
              scenario_a_rows
              (mkRow (VText "1001") (CStr "Vodka 750ml") "Spirits"
                     (CStr "EA") 12))
    as (H & _).
  - vm_compute. reflexivity.
  - left. reflexivity.
  - exact H.
Defined.

End RowInvariants.

Module AliasFacts.

Import PyStr Transform Samples Text.

Local Open Scope nat_scope.

Lemma rename_length (k v : string) (cols : list string) :
  List.length (rename k v cols) = List.length cols.
Proof. apply length_map. Qed.

Lemma col_index_absent (x : string) (cols : list string) :
  ~ In x cols -> col_index x cols = List.length cols.
Proof.
  induction cols as [|c cols IH]; intro H; [reflexivity|].
  cbn [col_index List.length].
  destruct (String.eqb_spec c x) as [E|_].
  - exfalso. apply H. now left.
  - f_equal. apply IH. intro Hi. apply H. now right.
Qed.

(** After [k] is renamed to [v], in a frame without [v], the column found
    under [v] is the one that was found under [k]. *)
Lemma col_index_rename_new (k v : string) (cols : list string) :
  ~ In v cols -> col_index v (rename k v cols) = col_index k cols.
Proof.
  induction cols as [|c cols IH]; intro H; [reflexivity|].
  cbn [rename map col_index]. fold (rename k v cols).
  destruct (String.eqb_spec c k) as [E|E].
  - now rewrite String.eqb_refl.
  - destruct (String.eqb_spec c v) as [E'|_].
    + exfalso. apply H. now left.
    + f_equal. apply IH. intro Hi. apply H. now right.
Qed.

(** A name that is neither [k] nor [v] is found where it was. *)
Lemma col_index_rename_other (k v x : string) (cols : list string) :
  x <> k -> x <> v -> col_index x (rename k v cols) = col_index x cols.
Proof.
  intros Hk Hv. induction cols as [|c cols IH]; [reflexivity|].
  cbn [rename map col_index]. fold (rename k v cols).
  destruct (String.eqb_spec c k) as [E|E].
  - destruct (String.eqb_spec v x) as [E'|_]; [congruence|].
    destruct (String.eqb_spec c x) as [E'|_]; [congruence|].
    now f_equal.
  - destruct (String.eqb_spec c x); [reflexivity | now f_equal].
Qed.

Lemma rename_In_other (k v x : string) (cols : list string) :
  x <> k -> (In x (rename k v cols) <-> In x cols \/ (x = v /\ In k cols)).
Proof.
  intro Hk. unfold rename. rewrite in_map_iff. split.
  - intros (c & He & Hc). destruct (String.eqb c k) eqn:E.
    + apply String.eqb_eq in E. subst. right. now split.
    + left. now subst.
  - intros [H|[-> H]].
    + exists x. split; [|exact H].
      destruct (String.eqb_spec x k); [contradiction | reflexivity].
    + exists k. split; [|exact H]. now rewrite String.eqb_refl.
Qed.

Lemma apply_alias_steps (cols : list string) :
  apply_alias cols
  = alias_step "Unit" "UOM"
      (alias_step "Qty Sold" "Sold QTY"
         (alias_step "Sold Qty" "Sold QTY" cols)).
Proof. reflexivity. Qed.

Lemma alias_step_fires (k v : string) (cols : list string) :
  In k cols -> ~ In v cols -> alias_step k v cols = rename k v cols.
Proof.
  intros Hk Hv. unfold alias_step.
  apply RowFacts.mem_In in Hk. rewrite Hk.
  destruct (mem v cols) eqn:E; [|reflexivity].
  apply RowFacts.mem_In in E. contradiction.
Qed.

Lemma alias_step_idle (k v : string) (cols : list string) :
  ~ In k cols \/ In v cols -> alias_step k v cols = cols.
Proof.
  intros [H|H]; unfold alias_step.
  - destruct (mem k cols) eqn:E; [|reflexivity].
    apply RowFacts.mem_In in E. contradiction.
  - apply RowFacts.mem_In in H. rewrite H. now rewrite andb_false_r.
Qed.

Lemma alias_step_index_other (k v x : string) (cols : list string) :
  x <> k -> x <> v ->
  col_index x (alias_step k v cols) = col_index x cols.
Proof.
  intros Hk Hv. unfold alias_step.
  destruct (mem k cols && negb (mem v cols)); [|reflexivity].
  now apply col_index_rename_other.
Qed.

Lemma alias_step_In_other (k v x : string) (cols : list string) :
  x <> k -> x <> v -> (In x (alias_step k v cols) <-> In x cols).
Proof.
  intros Hk Hv. unfold alias_step.
  destruct (mem k cols && negb (mem v cols)); [|reflexivity].
  rewrite (rename_In_other k v x cols Hk). tauto.
Qed.

Lemma alias_step_keeps (k v : string) (cols : list string) :
  In v cols -> In v (alias_step k v cols).
Proof.
  intro H. now rewrite alias_step_idle by now right.
Qed.

Lemma apply_alias_length (cols : list string) :
  List.length (apply_alias cols) = List.length cols.
Proof.
  rewrite apply_alias_steps. unfold alias_step.
  repeat match goal with
         | |- context [if ?b then _ else _] => destruct b
         end; now rewrite ?rename_length.
Qed.

(** X4.  A frame without a Sold QTY column reads its quantities from the
    column Sold Qty, or, when there is none either, from Qty Sold; a frame
    without a UOM column reads its units from the column Unit.  The cell
    looked up under the canonical name after aliasing is the cell that
    stood under the alias. *)
Theorem X4_alias_lookup (cols : list string) (row : list Cell) :
  (~ In "Sold QTY" cols -> In "Sold Qty" cols ->
   get (apply_alias cols) "Sold QTY" row = get cols "Sold Qty" row)
  /\ (~ In "Sold QTY" cols -> ~ In "Sold Qty" cols -> In "Qty Sold" cols ->
      get (apply_alias cols) "Sold QTY" row = get cols "Qty Sold" row)
  /\ (~ In "UOM" cols -> In "Unit" cols ->
      get (apply_alias cols) "UOM" row = get cols "Unit" row).
Proof.
  unfold get. rewrite apply_alias_steps.
  split; [|split].
  - intros Hn Hk. f_equal.
    rewrite alias_step_index_other by discriminate.
    rewrite (alias_step_fires "Sold Qty" "Sold QTY" cols Hk Hn).
    rewrite alias_step_idle.
    + now apply col_index_rename_new.
    + right. apply rename_In_other; [discriminate|]. right. now split.
  - intros Hn Hk Hq. f_equal.
    rewrite alias_step_index_other by discriminate.
    rewrite (alias_step_idle "Sold Qty" "Sold QTY" cols) by now left.
    rewrite (alias_step_fires "Qty Sold" "Sold QTY" cols Hq Hn).
    now apply col_index_rename_new.
  - intros Hn Hk. f_equal.
    set (c2 := alias_step "Qty Sold" "Sold QTY"
                 (alias_step "Sold Qty" "Sold QTY" cols)).
    assert (Hn2 : ~ In "UOM" c2).
    { unfold c2. rewrite !alias_step_In_other by discriminate. exact Hn. }
    assert (Hk2 : In "Unit" c2).
    { unfold c2. rewrite !alias_step_In_other by discriminate. exact Hk. }
    rewrite (alias_step_fires "Unit" "UOM" c2 Hk2 Hn2).
    rewrite (col_index_rename_new "Unit" "UOM" c2 Hn2).
    unfold c2. now rewrite !alias_step_index_other by discriminate.
Qed.

(** X4 on the header of the sample export, whose quantities stand under
    Sold Qty. *)
Lemma X4_witness :
  get (apply_alias (columns (read_excel 3 scenario_a))) "Sold QTY"
      (nth 5 scenario_a [])
  = get (columns (read_excel 3 scenario_a)) "Sold Qty" (nth 5 scenario_a []).
Proof.
  apply (proj1 (X4_alias_lookup (columns (read_excel 3 scenario_a))
                  (nth 5 scenario_a []))).
  - vm_compute. intros [H|[H|[H|[H|[H|[H|[]]]]]]]; discriminate H.
  - vm_compute. tauto.
Defined.

(** X5.  Aliasing never overwrites: a frame that already has its Sold QTY
    and UOM columns is left as it is, alias columns included.  In every
    case the number of columns is unchanged, a canonical column that is
    present stays, and the columns SKU, Description and Category are found
    where they were. *)
Theorem X5_alias_never_overwrites (cols : list string) :
  (In "Sold QTY" cols -> In "UOM" cols -> apply_alias cols = cols)
  /\ List.length (apply_alias cols) = List.length cols
  /\ (In "Sold QTY" cols -> In "Sold QTY" (apply_alias cols))
  /\ (In "UOM" cols -> In "UOM" (apply_alias cols))
  /\ (forall x,
        In x ["SKU"; "Description"; "Category"] ->
        col_index x (apply_alias cols) = col_index x cols
        /\ (In x (apply_alias cols) <-> In x cols)).
Proof.
  rewrite apply_alias_steps. split; [|split; [|split; [|split]]].
  - intros Hq Hu.
    rewrite (alias_step_idle "Sold Qty") by now right.
    rewrite (alias_step_idle "Qty Sold") by now right.
    now rewrite (alias_step_idle "Unit") by now right.
  - rewrite <- apply_alias_steps. apply apply_alias_length.
  - intro H. apply alias_step_In_other; [discriminate | discriminate|].
    now do 2 apply alias_step_keeps.
  - intro H. apply alias_step_keeps.
    rewrite !alias_step_In_other by discriminate. exact H.
  - intros x [<-|[<-|[<-|[]]]];
      (split; [now rewrite !alias_step_index_other by discriminate
              | now rewrite !alias_step_In_other by discriminate]).
Qed.

(** X5 on a frame that has both Sold QTY and an alias of it. *)
Lemma X5_witness :
  apply_alias ["SKU"; "Sold Qty"; "Sold QTY"; "Unit"; "UOM"]
  = ["SKU"; "Sold Qty"; "Sold QTY"; "Unit"; "UOM"].
Proof.
  apply (proj1 (X5_alias_never_overwrites
                  ["SKU"; "Sold Qty"; "Sold QTY"; "Unit"; "UOM"]));
    simpl; tauto.
Defined.

End AliasFacts.

Module SheetFacts.

Import PyStr Transform Samples Text.

Local Open Scope nat_scope.

Lemma labels_from_length (i : nat) (header : list Cell) :
  List.length (labels_from i header) = List.length header.
Proof.
  revert i. induction header as [|c header IH]; intro i; [reflexivity|].
  cbn [labels_from List.length]. now rewrite IH.
Qed.

Lemma mangle_length (seen labels : list string) :
  List.length (mangle_dupe_cols seen labels) = List.length labels.
Proof.
  revert seen. induction labels as [|x labels IH]; intro seen;
    [reflexivity|].
  cbn [mangle_dupe_cols List.length]. now rewrite IH.
Qed.

Lemma KEEP_COLS_NoDup : NoDup KEEP_COLS.
Proof.
  unfold KEEP_COLS.
  repeat (constructor; [cbn [In]; intuition discriminate|]).
  constructor.
Qed.

Section Build.

Variable beyond : Cell -> Res Z.

Local Abbreviation clean_and_reduce := (Transform.clean_and_reduce beyond).

(** X6.  A table whose header row has fewer than five cells (the empty
    table among them) cannot hold the five kept columns:
    [clean_and_reduce] writes the header-only sheet and returns (0, 0). *)
Theorem X6_short_header_row (report_date created : string) (raw : RawTable) :
  List.length (nth (header_row_idx raw) raw []) < 5 ->
  clean_and_reduce report_date created raw = Ok (header_only, (0, 0)).
Proof.
  intro Hlen. unfold Transform.clean_and_reduce.
  destruct (missing (columns (load raw))) as [|m ms] eqn:Hm; [|reflexivity].
  exfalso.
  assert (Hincl : incl KEEP_COLS (columns (load raw))).
  { intros c Hc. now apply (proj1 (RowFacts.missing_nil _) Hm). }
  pose proof (NoDup_incl_length KEEP_COLS_NoDup Hincl) as Hle.
  cbn [load columns read_excel] in Hle.
  rewrite AliasFacts.apply_alias_length in Hle.
  rewrite length_map, mangle_length, labels_from_length in Hle.
  cbn [KEEP_COLS List.length] in Hle. lia.
Qed.

End Build.

(** X6 on the empty table. *)
Lemma X6_witness :
  clean_and_reduce exact_build "11/03/26" "11/04/2026 07:45 AM" []
  = Ok (header_only, (0, 0)).
Proof.
  apply X6_short_header_row. cbn. lia.
Defined.

(** **** Sums *)

Lemma sum_app (l1 l2 : list ProductRow) :
  (sum_of_sold_qty (l1 ++ l2)
   = sum_of_sold_qty l1 + sum_of_sold_qty l2)%Z.
Proof.
  induction l1 as [|r l1 IH]; cbn [app sum_of_sold_qty fold_right].
  - unfold sum_of_sold_qty. cbn. lia.
  - unfold sum_of_sold_qty in *. cbn [fold_right]. lia.
Qed.

Lemma sum_perm (l l' : list ProductRow) :
  Permutation l l' -> sum_of_sold_qty l = sum_of_sold_qty l'.
Proof.
  unfold sum_of_sold_qty.
  induction 1 as [|x l l' _ IH|x y l|l l' l'' _ IH1 _ IH2];
    cbn [fold_right]; lia.
Qed.

Lemma sum_concat (ls : list (list ProductRow)) :
  sum_of_sold_qty (List.concat ls)
  = fold_right Z.add 0%Z (map sum_of_sold_qty ls).
Proof.
  induction ls as [|l ls IH]; [reflexivity|].
  cbn [List.concat map fold_right]. now rewrite sum_app, IH.
Qed.

(** X7.  The totals on the total lines of the sheet add up to the sum of
    the Sold QTY of all product rows, up to a multiple of 2^64, each total
    being a sum of 64 bits; they add up to that sum exactly when the row
    set has at most 2^32 rows with quantities below 2^31 in magnitude. *)
Theorem X7_group_totals_add_up (prod : list ProductRow) :
  (exists k,
     fold_right Z.add 0 (map (fun g => total_qty (snd g)) (group_rows prod))
     = sum_of_sold_qty prod + k * 2 ^ 64)%Z
  /\ ((forall r, In r prod -> (Z.abs (sold_qty r) < 2 ^ 31)%Z) ->
      (Z.of_nat (List.length prod) <= 2 ^ 32)%Z ->
      fold_right Z.add 0%Z
                 (map (fun g => total_qty (snd g)) (group_rows prod))
      = sum_of_sold_qty prod).
Proof.
  pose proof (GroupFacts.groups_partition prod) as Hp.
  rewrite <- (sum_perm _ _ Hp), sum_concat, map_map.
  assert (Hin : forall g, In g (group_rows prod) ->
                          forall r, In r (snd g) -> In r prod).
  { intros g Hg r Hr. apply (Permutation_in _ Hp).
    apply in_concat. exists (snd g). split; [now apply in_map | exact Hr]. }
  assert (Hlen : forall g, In g (group_rows prod) ->
                           List.length (snd g) <= List.length prod).
  { intros g Hg. rewrite <- (Permutation_length Hp).
    clear -Hg. induction (group_rows prod) as [|g' l IH]; [destruct Hg|].
    cbn [map List.concat]. rewrite length_app.
    destruct Hg as [->|Hg]; [lia | specialize (IH Hg); lia]. }
  split.
  - clear Hin Hlen Hp. induction (group_rows prod) as [|g l (k & IH)].
    + now exists 0%Z.
    + cbn [map fold_right]. rewrite IH, GroupFacts.total_qty_sum.
      destruct (GroupFacts.wrap64_spec (sum_of_sold_qty (snd g)))
        as (_ & (k' & ->) & _).
      exists (k' + k)%Z. lia.
  - intros Hq Hn. f_equal. apply map_ext_in. intros g Hg.
    rewrite GroupFacts.total_qty_sum.
    apply (proj2 (proj2 (GroupFacts.wrap64_spec _))).
    pose proof (GroupFacts.sum_bound (snd g) (2 ^ 31)
                  (fun r Hr => Hq r (Hin g Hg r Hr))) as Hb.
    specialize (Hlen g Hg).
    destruct (snd g) as [|r0 rest] eqn:Eg; [cbn; lia|].
    assert (Hr0 : (Z.abs (sold_qty r0) < 2 ^ 31)%Z).
    { apply Hq, (Hin g Hg). rewrite Eg. now left. }
    pose proof (GroupFacts.sum_bound rest (2 ^ 31)
                  (fun r Hr => Hq r (Hin g Hg r
                     ltac:(rewrite Eg; now right)))) as Hb'.
    unfold sum_of_sold_qty in *. cbn [fold_right List.length] in *.
    nia.
Qed.

Lemma group_nonempty (prod : list ProductRow) (g : string * list ProductRow) :
  In g (group_rows prod) -> snd g <> [].
Proof.
  rewrite GroupFacts.group_rows_eq. intro H. apply in_map_iff in H.
  destruct H as (k & <- & Hk). cbn [snd].
  apply GroupFacts.block_nonempty. now apply GroupFacts.first_seen_In.
Qed.

(** X8.  Sorting the rows on their category codes before grouping changes
    nothing: the groups are those of grouping the row set as it stands,
    and no group is empty. *)
Theorem X8_sort_is_redundant (prod : list ProductRow) :
  group_rows prod = groupby prod
  /\ forall g, In g (group_rows prod) -> snd g <> [].
Proof.
  split; [apply GroupFacts.group_rows_eq | apply group_nonempty].
Qed.

Lemma section_length (g : string * list ProductRow) :
  List.length (section g) = 4 + List.length (snd g).
Proof.
  unfold section. cbn [app List.length].
  rewrite length_app, length_map. cbn [List.length]. lia.
Qed.

Lemma sections_length (groups : list (string * list ProductRow)) :
  List.length (flat_map section groups)
  = 4 * List.length groups + List.length (List.concat (map snd groups)).
Proof.
  induction groups as [|g groups IH]; [reflexivity|].
  cbn [flat_map map List.concat List.length].
  rewrite !length_app, section_length, IH. lia.
Qed.

Lemma groups_at_most_rows (groups : list (string * list ProductRow)) :
  (forall g, In g groups -> snd g <> []) ->
  List.length groups <= List.length (List.concat (map snd groups)).
Proof.
  induction groups as [|g groups IH]; intro H; [cbn; lia|].
  cbn [map List.concat List.length]. rewrite length_app.
  assert (Hg : snd g <> []) by (apply H; now left).
  assert (IH' := IH (fun g' Hg' => H g' (or_intror Hg'))).
  destruct (snd g); [contradiction | cbn [List.length]; lia].
Qed.

Lemma section_widths (g : string * list ProductRow) :
  Forall (fun line => List.length line = 1 \/ List.length line = 5)
         (section g).
Proof.
  unfold section. repeat (constructor; [cbn; tauto|]).
  apply Forall_app. split.
  - apply Forall_forall. intros line Hl. apply in_map_iff in Hl.
    destruct Hl as (r & <- & _). now right.
  - repeat (constructor; [cbn; tauto|]). constructor.
Qed.

(** X9.  The sheet has five title lines, then four lines and one line per
    row for every group: 5 + 4 * groups + rows_total lines in all, each of
    one or five cells; and there are at most as many groups as product
    rows. *)
Theorem X9_sheet_shape (report_date created : string)
        (prod : list ProductRow) :
  List.length (render report_date created (group_rows prod))
  = 5 + 4 * List.length (group_rows prod) + rows_total prod
  /\ List.length (group_rows prod) <= rows_total prod
  /\ Forall (fun line => List.length line = 1 \/ List.length line = 5)
            (render report_date created (group_rows prod)).
Proof.
  assert (Hrows : List.length (List.concat (map snd (group_rows prod)))
                  = rows_total prod).
  { unfold rows_total. apply Permutation_length,
      GroupFacts.groups_partition. }
  split; [|split].
  - unfold render. rewrite length_app, sections_length, Hrows.
    cbn [title_block List.length]. lia.
  - rewrite <- Hrows. apply groups_at_most_rows, group_nonempty.
  - unfold render. apply Forall_app. split.
    + unfold title_block. repeat (constructor; [cbn; tauto|]). constructor.
    + apply Forall_forall. intros line Hl. apply in_flat_map in Hl.
      destruct Hl as (g & _ & Hl).
      now apply (proj1 (Forall_forall _ _) (section_widths g)).
Qed.

End SheetFacts.

Module PipelineFacts.

Import PyStr Transform Decision Pipeline Samples.

Local Open Scope nat_scope.

Lemma rows_gt0_zero (prod : list ProductRow) :
  rows_gt0 prod = 0 <-> forall r, In r prod -> (sold_qty r <= 0)%Z.
Proof.
  unfold rows_gt0. induction prod as [|r prod IH]; cbn [filter].
  - split; [intros _ r [] | reflexivity].
  - destruct (Z.ltb_spec 0 (sold_qty r)) as [Hp|Hn].
    + split; [discriminate|]. intro H.
      specialize (H r (or_introl eq_refl)). lia.
    + rewrite IH. split.
      * intros H r' [<-|Hr']; [exact Hn | now apply H].
      * intros H r' Hr'. apply H. now right.
Qed.

Lemma rows_gt0_pos (prod : list ProductRow) :
  rows_gt0 prod <> 0 <-> exists r, In r prod /\ (0 < sold_qty r)%Z.
Proof.
  unfold rows_gt0. split.
  - intro H.
    destruct (filter (fun r => (0 <? sold_qty r)%Z) prod) as [|r l] eqn:E;
      [contradiction|].
    assert (Hin : In r (filter (fun r => (0 <? sold_qty r)%Z) prod))
      by (rewrite E; now left).
    apply filter_In in Hin. destruct Hin as [Hin Hp].
    exists r. split; [exact Hin | now apply Z.ltb_lt].
  - intros (r & Hin & Hp) H.
    assert (Hf : In r (filter (fun r => (0 <? sold_qty r)%Z) prod)).
    { apply filter_In. split; [exact Hin | now apply Z.ltb_lt]. }
    destruct (filter (fun r => (0 <? sold_qty r)%Z) prod);
      [destruct Hf | discriminate H].
Qed.

Section Build.

Variable beyond : Cell -> Res Z.

Local Abbreviation coerce := (Transform.coerce beyond).
Local Abbreviation clean_and_reduce := (Transform.clean_and_reduce beyond).
Local Abbreviation main_tail := (Pipeline.main_tail beyond).

(** X10.  When the table has its columns and no product row has a Sold
    QTY above 0 (zero, or negative as on a day of returns), the run
    without the CI guard still writes the full sheet, one section per
    category, and sends the alert with the reason "All products have Sold
    QTY = 0." to the alert recipient. *)
Theorem X10_no_positive_quantity_alert (report_date created : string)
        (raw : RawTable) (prod : list ProductRow) :
  missing (columns (load raw)) = [] ->
  coerce (load raw) = Ok prod ->
  prod <> [] ->
  (forall r, In r prod -> (sold_qty r <= 0)%Z) ->
  main_tail false report_date created raw
  = Ok (title_block report_date created
          ++ flat_map section (group_rows prod),
        SendAlertEmail "All products have Sold QTY = 0." EMAIL_ALERT_TO)
  /\ map fst (group_rows prod) = first_seen (map category prod).
Proof.
  intros Hm Hc Hne Hall. split; [|apply GroupFacts.group_rows_keys].
  unfold Pipeline.main_tail, Transform.clean_and_reduce. rewrite Hm, Hc.
  unfold render, notify.
  rewrite (proj2 (rows_gt0_zero prod) Hall).
  destruct prod as [|r prod]; [contradiction | reflexivity].
Qed.

(** X11.  Without the CI guard, the run sends the restocking list to the
    team exactly when the table has its columns, its quantities coerce,
    and at least one product row has a Sold QTY above 0; the sheet
    attached is the rendering of the groups. *)
Theorem X11_team_mail_iff_positive_row (report_date created : string)
        (raw : RawTable) (sheet : Sheet) :
  main_tail false report_date created raw = Ok (sheet, SendEmail EMAIL_TO)
  <->
  missing (columns (load raw)) = []
  /\ exists prod,
       coerce (load raw) = Ok prod
       /\ sheet = render report_date created (group_rows prod)
       /\ exists r, In r prod /\ (0 < sold_qty r)%Z.
Proof.
  unfold Pipeline.main_tail, Transform.clean_and_reduce.
  destruct (missing (columns (load raw))) as [|m ms].
  - destruct (coerce (load raw)) as [prod|].
    + split.
      * intro H. split; [reflexivity|]. exists prod.
        unfold notify in H.
        destruct (rows_total prod =? 0); [discriminate H|].
        destruct (rows_gt0 prod =? 0) eqn:Eg; [discriminate H|].
        injection H as <-. repeat split.
        apply rows_gt0_pos. now apply Nat.eqb_neq.
      * intros (_ & prod' & Hp & -> & Hr). injection Hp as <-.
        apply rows_gt0_pos in Hr.
        assert (Ht : rows_total prod <> 0).
        { unfold rows_total, rows_gt0 in *.
          pose proof (filter_length_le (fun r => (0 <? sold_qty r)%Z) prod).
          lia. }
        unfold notify.
        apply Nat.eqb_neq in Ht. apply Nat.eqb_neq in Hr.
        now rewrite Ht, Hr.
    + split; [discriminate|]. intros (_ & prod & Hp & _). discriminate Hp.
  - split; [discriminate|]. intros (H & _). discriminate H.
Qed.

(** X12.  With the CI guard set, the run sends no mail whatever the
    table holds: it only logs that the send is skipped; the sheet written
    is the one the run without the guard writes, and that run always
    sends a mail. *)
Theorem X12_ci_guard_sends_nothing (report_date created : string)
        (raw : RawTable) :
  (main_tail true report_date created raw = Raise
   <-> main_tail false report_date created raw = Raise)
  /\ forall sheet a,
       main_tail true report_date created raw = Ok (sheet, a) ->
       (exists msg, a = LogSkip msg)
       /\ exists a',
            main_tail false report_date created raw = Ok (sheet, a')
            /\ forall msg, a' <> LogSkip msg.
Proof.
  unfold Pipeline.main_tail.
  destruct (clean_and_reduce report_date created raw) as [[sh [rt gt]]|].
  - split; [split; discriminate|].
    intros sheet a H. injection H as <- <-. unfold notify.
    destruct (rt =? 0); [|destruct (gt =? 0)];
      (split; [eexists; reflexivity|]); eexists;
      (split; [reflexivity | discriminate]).
  - split; [tauto|]. intros sheet a H. discriminate H.
Qed.

End Build.

(** X10 on the day with returns, where both quantities are negative. *)
Lemma X10_witness :
  main_tail exact_build false "11/03/26" "11/04/2026 07:45 AM" returns_day
  = Ok (title_block "11/03/26" "11/04/2026 07:45 AM"
          ++ flat_map section (group_rows returns_rows),
        SendAlertEmail "All products have Sold QTY = 0." EMAIL_ALERT_TO).
Proof.
  apply (X10_no_positive_quantity_alert exact_build
           "11/03/26" "11/04/2026 07:45 AM" returns_day returns_rows).
  - vm_compute. reflexivity.
  - vm_compute. reflexivity.
  - discriminate.
  - intros r [<-|[<-|[]]]; cbn; lia.
Defined.

End PipelineFacts.

Module CoercionMore.

Import PyStr Transform Text TextFacts NumeralFacts.

Lemma remove_char_app (c : ascii) (s1 s2 : string) :
  remove_char c (String.append s1 s2)
  = String.append (remove_char c s1) (remove_char c s2).
Proof.
  induction s1 as [|d s1 IH]; [reflexivity|].
  cbn [String.append remove_char].
  destruct (Ascii.eqb c d); [exact IH|]. cbn [String.append]. now rewrite IH.
Qed.

Lemma cleaned_drops_comma (s1 s2 : string) :
  cleaned (String.append s1 (String "," s2)) = cleaned (String.append s1 s2).
Proof.
  unfold cleaned. rewrite !remove_char_app.
  cbn [remove_char]. change (Ascii.eqb "$" ",") with false. cbv iota.
  cbn [remove_char]. now rewrite Ascii.eqb_refl.
Qed.

Lemma cleaned_drops_dollar (s1 s2 : string) :
  cleaned (String.append s1 (String "$" s2)) = cleaned (String.append s1 s2).
Proof.
  unfold cleaned. rewrite !remove_char_app.
  cbn [remove_char]. now rewrite Ascii.eqb_refl.
Qed.

Section Build.

Variable beyond : Cell -> Res Z.

Local Abbreviation coerce_sold_qty := (Transform.coerce_sold_qty beyond).

Lemma dollar_prefix (s : string) :
  coerce_sold_qty (CStr (String "$" s)) = coerce_sold_qty (CStr s).
Proof.
  unfold Transform.coerce_sold_qty. cbn [to_num].
  pose proof (cleaned_drops_dollar "" s) as H.
  cbn [String.append] in H. now rewrite H.
Qed.

(** X13.  A comma or a dollar sign is dropped wherever it stands in a
    quantity text, not only as a leading currency sign or between groups
    of three digits: the text reads as the text without it.  So a decimal
    comma is lost: "12,5" reads as 125. *)
Theorem X13_separators_dropped_anywhere (s1 s2 : string) :
  coerce_sold_qty (CStr (String.append s1 (String "," s2)))
  = coerce_sold_qty (CStr (String.append s1 s2))
  /\ coerce_sold_qty (CStr (String.append s1 (String "$" s2)))
     = coerce_sold_qty (CStr (String.append s1 s2))
  /\ coerce_sold_qty (CStr "12,5") = Ok 125%Z.
Proof.
  unfold Transform.coerce_sold_qty. cbn [to_num].
  rewrite cleaned_drops_comma, cleaned_drops_dollar.
  repeat split.
Qed.

(** X14.  A quantity written as the decimal numeral of an integer below
    2^31 in magnitude reads back as that integer, with or without a
    leading dollar sign: a cell holding the text of [n] and a cell holding
    the number [n] give the same Sold QTY. *)
Theorem X14_numeral_round_trip (n : Z) :
  (Z.abs n < 2 ^ 31)%Z ->
  coerce_sold_qty (CStr (str_of_Z n)) = Ok n
  /\ coerce_sold_qty (CStr (String "$" (str_of_Z n))) = Ok n
  /\ coerce_sold_qty (CStr (str_of_Z n)) = coerce_sold_qty (CInt n).
Proof.
  intro Hn.
  assert (Hs : settled_int n = true)
    by (unfold settled_int, SETTLED; now apply Z.ltb_lt).
  assert (Hc : cut n 0 = n) by (unfold cut; cbn; lia).
  assert (H : coerce_sold_qty (CStr (str_of_Z n)) = Ok n).
  { unfold Transform.coerce_sold_qty. cbn [to_num to_numeric].
    rewrite (cleaned_numeral _ (str_of_Z_numeral n)).
    unfold to_numeric_text.
    destruct (literal_of_numeral n) as (digits & -> & Hd).
    assert (Hl : settled_literal n 0 digits = true).
    { unfold settled_literal. rewrite Hc, Hs, !andb_true_r.
      apply Nat.leb_le, Hd. lia. }
    rewrite Hl. cbn [fillna0_astype_int]. now rewrite Hc. }
  split; [exact H|]. split.
  - rewrite <- H. apply dollar_prefix.
  - rewrite H. symmetry.
    unfold Transform.coerce_sold_qty. cbn [to_num to_numeric].
    rewrite Hs. cbn [fillna0_astype_int]. now rewrite Hc.
Qed.

End Build.

(** X14 on a return of 42 units. *)
Lemma X14_witness :
  Transform.coerce_sold_qty Samples.exact_build (CStr "-42") = Ok (-42)%Z.
Proof.
  apply (X14_numeral_round_trip Samples.exact_build (-42)). cbn. lia.
Defined.

End CoercionMore.

Module HeaderMore.

Import PyStr Transform Samples Text Scenarios.

Local Open Scope nat_scope.

Lemma existsb_map {A B : Type} (f : B -> bool) (g : A -> B) (l : list A) :
  existsb f (map g l) = existsb (fun a => f (g a)) l.
Proof.
  induction l as [|a l IH]; [reflexivity|]. cbn [map existsb]. now rewrite IH.
Qed.

Lemma forallb_agree {A : Type} (f g : A -> bool) (l : list A) :
  (forall a, f a = g a) -> forallb f l = forallb g l.
Proof.
  intro H. induction l as [|a l IH]; [reflexivity|].
  cbn [forallb]. now rewrite H, IH.
Qed.

Lemma covers_required_lower (vals : list string) :
  covers_required vals
  = forallb (fun h => existsb (String.eqb (lower h)) (map lower vals))
            REQUIRED.
Proof.
  unfold covers_required. apply forallb_agree. intro h.
  now rewrite existsb_map.
Qed.

(** The test of a row of the trimmed table, on the keys of its cells. *)
Lemma row_test_keys (row : list Cell) :
  map lower (row_vals (map strip_cell row)) = map cell_key row.
Proof. unfold row_vals, cell_key. now rewrite !map_map. Qed.

Lemma nth_stripped (i : nat) (raw : RawTable) :
  nth i (map (map strip_cell) raw) [] = map strip_cell (nth i raw []).
Proof. apply (map_nth (map strip_cell) raw [] i). Qed.

Lemma same_keys_nth (raw raw' : RawTable) (i : nat) :
  Forall2 (Forall2 (fun c c' => cell_key c = cell_key c')) raw raw' ->
  map cell_key (nth i raw []) = map cell_key (nth i raw' []).
Proof.
  intro H. revert i. induction H as [|row row' raw raw' Hr _ IH]; intro i.
  - now destruct i.
  - destruct i as [|i]; [|apply IH]. cbn [nth].
    induction Hr as [|c c' row row' Hc _ IHr]; [reflexivity|].
    cbn [map]. now rewrite Hc, IHr.
Qed.

Lemma scan_header_ext (raw raw' : RawTable) (idxs : list nat) :
  (forall i, covers_required (row_vals (nth i raw []))
             = covers_required (row_vals (nth i raw' []))) ->
  scan_header idxs raw = scan_header idxs raw'.
Proof.
  intro H. induction idxs as [|i idxs IH]; [reflexivity|].
  cbn [scan_header]. now rewrite H, IH.
Qed.

Lemma Forall2_same_length {A B : Type} (R : A -> B -> Prop)
      (l : list A) (l' : list B) :
  Forall2 R l l' -> List.length l = List.length l'.
Proof. induction 1; cbn [List.length]; congruence. Qed.

(** X15.  Header detection looks at a cell only through its trimmed,
    lower-cased text: two tables whose cells agree on that text, cell by
    cell, have their header found in the same row.  Letter case and white
    space around the labels, or around any other cell, make no
    difference. *)
Theorem X15_header_detection_ignores_case (raw raw' : RawTable) :
  Forall2 (Forall2 (fun c c' => cell_key c = cell_key c')) raw raw' ->
  header_row_idx raw = header_row_idx raw'.
Proof.
  intro H. unfold header_row_idx. rewrite !length_map.
  rewrite (Forall2_same_length _ _ _ H).
  rewrite (scan_header_ext (map (map strip_cell) raw)
             (map (map strip_cell) raw')); [reflexivity|].
  intro i. rewrite !nth_stripped, !covers_required_lower, !row_test_keys.
  now rewrite (same_keys_nth raw raw' i H).
Qed.

(** X15 on the sample export and its relabelled copy. *)
Lemma X15_witness :
  header_row_idx scenario_a = header_row_idx scenario_a_relabelled.
Proof.
  apply X15_header_detection_ignores_case.
  unfold scenario_a, scenario_a_relabelled, header_cells.
  repeat (constructor; [repeat (constructor; [reflexivity|]); constructor|]).
  constructor.
Defined.

End HeaderMore.

Module ConsoleFacts.

Import PyStr Text Console.

Lemma all_chars_app (f : ascii -> bool) (s1 s2 : string) :
  all_chars f (String.append s1 s2) = all_chars f s1 && all_chars f s2.
Proof.
  induction s1 as [|c s1 IH]; [reflexivity|].
  cbn [String.append all_chars]. now rewrite IH, andb_assoc.
Qed.

Lemma safe_is_ascii (msg : string) : all_chars is_ascii (safe msg) = true.
Proof.
  induction msg as [|c msg IH]; [reflexivity|].
  cbn [safe all_chars]. rewrite IH, andb_true_r.
  destruct (is_ascii c) eqn:E; [exact E | reflexivity].
Qed.

Lemma safe_length (msg : string) :
  String.length (safe msg) = String.length msg.
Proof.
  induction msg as [|c msg IH]; [reflexivity|].
  cbn [safe String.length]. now rewrite IH.
Qed.

Lemma safe_of_ascii (msg : string) :
  all_chars is_ascii msg = true -> safe msg = msg.
Proof.
  induction msg as [|c msg IH]; [reflexivity|].
  cbn [safe all_chars]. intro H. apply andb_true_iff in H.
  destruct H as [Hc Hm]. now rewrite Hc, (IH Hm).
Qed.

Lemma append_length (s1 s2 : string) :
  String.length (String.append s1 s2)
  = (String.length s1 + String.length s2)%nat.
Proof.
  induction s1 as [|c s1 IH]; [reflexivity|].
  cbn [String.append String.length]. now rewrite IH.
Qed.

Lemma line_length (ts msg : string) :
  String.length (line ts msg)
  = (String.length ts + 3 + String.length msg)%nat.
Proof.
  unfold line. cbn [String.append String.length].
  rewrite !append_length. cbn [String.length]. lia.
Qed.

(** X16.  On a console that can print every ASCII text, [log] never
    raises: it prints the line as it is when the console can encode it,
    and otherwise the line with every character above 127 replaced by a
    question mark.  What is printed has the length of the line, and a
    message that is ASCII already is printed unchanged. *)
Theorem X16_log_falls_back_to_ascii (encodable : string -> bool)
        (ts msg : string) :
  (forall s, all_chars is_ascii s = true -> encodable s = true) ->
  all_chars is_ascii ts = true ->
  exists out,
    log encodable ts msg = Ok out
    /\ String.length out = String.length (line ts msg)
    /\ (if encodable (line ts msg) then out = line ts msg
        else out = line ts (safe msg) /\ all_chars is_ascii out = true)
    /\ (all_chars is_ascii msg = true -> out = line ts msg).
Proof.
  intros Henc Hts.
  assert (Hsafe : all_chars is_ascii (line ts (safe msg)) = true).
  { unfold line. rewrite !all_chars_app, Hts, safe_is_ascii. reflexivity. }
  unfold log, print.
  destruct (encodable (line ts msg)) eqn:E.
  - exists (line ts msg). repeat split.
  - rewrite (Henc _ Hsafe). exists (line ts (safe msg)).
    split; [reflexivity|]. split; [|split].
    + now rewrite !line_length, safe_length.
    + now split.
    + intro Hm. now rewrite (safe_of_ascii msg Hm).
Qed.

(** X16 on a console that prints ASCII only and a message with an
    accented letter. *)
Lemma X16_witness :
  exists out,
    log (all_chars is_ascii) "07:45:00"
        (String "C" (String "a" (String "f" (String (ascii_of_nat 233) ""))))
    = Ok out
    /\ out = "[07:45:00] Caf?".
Proof.
  destruct (X16_log_falls_back_to_ascii (all_chars is_ascii) "07:45:00"
              (String "C" (String "a" (String "f"
                 (String (ascii_of_nat 233) "")))))
    as (out & Ho & _ & Hc & _).
  - intros s Hs. exact Hs.
  - reflexivity.
  - exists out. split; [exact Ho|].
    vm_compute in Hc. destruct Hc as [Hc _]. exact Hc.
Defined.

End ConsoleFacts.

Module AccountsFacts.

Import PyStr Accounts.




End AccountsFacts.

Module FlowFacts.

Import Resolver Flow.

Lemma first_visible_member (Page : Type)
      (count : Locator -> Page -> Res nat)
      (is_visible : Locator -> Page -> Res bool)
      (cands : list (option Locator)) (p : Page) (h : Handle) :
  _first_visible Page count is_visible cands p = Ok (Some h) ->
  exists l, h = First l /\ In (Some l) cands.
Proof.
  intro H. apply ResolverFacts.first_visible_some in H.
  destruct H as (pre & l & post & -> & -> & _).
  exists l. split; [reflexivity|]. apply in_or_app. right. now left.
Qed.

Ltac frun :=
  unfold resolve, click_handle, fill;
  unfold andthen, attempt, ask, step, say, pause, pure, raise;
  cbn [fst snd].

Section Login.

Variable Page : Type.
Variable count : Locator -> Page -> Res nat.
Variable is_visible : Locator -> Page -> Res bool.
Variable goto : string -> Page -> Page * bool.
Variable click : Locator -> Page -> Page * bool.
Variable press type : Handle -> string -> Page -> Page * bool.
Variable wait : Page -> Page * bool.
Variable sleep : nat -> Page -> Page.
Variable user_candidates pass_candidates login_candidates
  : list (option Locator).

Local Abbreviation first_visible := (_first_visible Page count is_visible).
Local Abbreviation login :=
  (ensure_logged_in Page count is_visible goto click press type wait sleep
                    user_candidates pass_candidates login_candidates).

(** X18.  [ensure_logged_in] asks for credentials only when it finds the
    login form.  When the user field, the password field or the login
    button is not found on the portal page, it logs that no form was
    detected and returns without touching the page, with or without
    credentials.  When all three are found and the user name or the
    password is missing or empty, it raises before anything is clicked or
    typed.  When the portal page cannot be opened, it raises. *)
Theorem X18_credentials_needed_only_for_login_form
        (username password : option string) (p p1 : Page) (t : list Step) :
  (goto BASE_URL p = (p1, true) ->
   first_visible user_candidates p1 = Ok None
   \/ first_visible pass_candidates p1 = Ok None
   \/ first_visible login_candidates p1 = Ok None ->
   login username password (p, t)
   = ((p1, t ++ [SLog OpeningPortal; SGoto BASE_URL; SLog NoLoginForm]),
      Ok tt))
  /\ (goto BASE_URL p = (p1, true) ->
      (exists u pw b,
         first_visible user_candidates p1 = Ok (Some u)
         /\ first_visible pass_candidates p1 = Ok (Some pw)
         /\ first_visible login_candidates p1 = Ok (Some b)) ->
      falsy username || falsy password = true ->
      login username password (p, t)
      = ((p1, t ++ [SLog OpeningPortal; SGoto BASE_URL]), Raise))
  /\ (goto BASE_URL p = (p1, false) ->
      login username password (p, t)
      = ((p1, t ++ [SLog OpeningPortal; SGoto BASE_URL]), Raise)).
Proof.
  split; [|split].
  - intros Hg Hnone. unfold ensure_logged_in. frun. rewrite Hg. cbn.
    destruct (ResolverFacts.first_visible_never_raises Page count is_visible
                user_candidates p1) as [u Hu].
    destruct (ResolverFacts.first_visible_never_raises Page count is_visible
                pass_candidates p1) as [pw Hpw].
    destruct (ResolverFacts.first_visible_never_raises Page count is_visible
                login_candidates p1) as [b Hb].
    rewrite Hu, Hpw, Hb in Hnone |- *.
    assert (Hcase : u = None \/ pw = None \/ b = None).
    { destruct Hnone as [H|[H|H]]; injection H as ->; tauto. }
    destruct u as [u|], pw as [pw|], b as [b|];
      try (destruct Hcase as [H|[H|H]]; discriminate H);
      cbn; now rewrite <- !app_assoc.
  - intros Hg (u & pw & b & Hu & Hpw & Hb) Hf.
    unfold ensure_logged_in. frun. rewrite Hg. cbn.
    rewrite Hu, Hpw, Hb, Hf. now rewrite <- !app_assoc.
  - intro Hg. unfold ensure_logged_in. frun. rewrite Hg. cbn.
    now rewrite <- !app_assoc.
Qed.

End Login.

(** **** [select_store] *)

Section Store.

Variable Page : Type.
Variable count : Locator -> Page -> Res nat.
Variable is_visible : Locator -> Page -> Res bool.
Variable click : Locator -> Page -> Page * bool.
Variable wait : Page -> Page * bool.
Variable wait_for_timeout : nat -> Page -> Page * bool.
Variable sleep : nat -> Page -> Page.

Local Abbreviation first_visible := (_first_visible Page count is_visible).
Local Abbreviation store :=
  (select_store Page count is_visible click wait wait_for_timeout sleep).

Lemma store_option (p : Page) (h : Handle) :
  first_visible store_candidates p = Ok (Some h) ->
  h = First (Loc "text=Astoria Liquor 191222")
  \/ h = First (Loc "text=Astoria Liquor").
Proof.
  intro H. apply first_visible_member in H. destruct H as (l & -> & Hin).
  destruct Hin as [E|[E|[]]]; injection E as <-; tauto.
Qed.

Ltac store_leaf :=
  eexists _, _; split;
  [ rewrite <- ?app_assoc; cbn [app]; reflexivity
  | split; [repeat (constructor; cbn [store_step]; auto) | cbn; lia] ].

Lemma select_store_trace (w : State Page) :
  exists p' added,
    store w = ((p', snd w ++ added), Ok tt)
    /\ Forall store_step added
    /\ List.length (filter is_click added) <= 1.
Proof.
  destruct w as [p t]. unfold select_store. frun.
  destruct (wait_for_timeout 800 p) as [p1 [|]]; cbn -[_first_visible]; [|store_leaf].
  unfold visible_test.
  destruct (count store_modal p1) as [[|n]|]; cbn -[_first_visible]; [store_leaf| |store_leaf].
  destruct (is_visible store_modal p1) as [[|]|]; cbn -[_first_visible];
    [|store_leaf|store_leaf].
  destruct (ResolverFacts.first_visible_never_raises Page count is_visible
              store_candidates p1) as [target Ht].
  rewrite Ht. cbn -[_first_visible].
  destruct target as [h|]; cbn -[_first_visible].
  - pose proof (store_option p1 h Ht) as Hh.
    destruct (click (handle_loc h) p1) as [p2 [|]]; cbn -[_first_visible]; [|store_leaf].
    destruct (first_visible close_candidates p2) as [c|]; cbn -[_first_visible];
      destruct (wait p2) as [p3 [|]]; cbn -[_first_visible]; store_leaf.
  - destruct (first_visible close_candidates p1) as [c|]; cbn -[_first_visible];
      destruct (wait p1) as [p3 [|]]; cbn -[_first_visible]; store_leaf.
Qed.

(** X19.  [select_store] never raises, whatever the page does.  It only
    logs and waits, and clicks at most one control, which is one of the
    two store options: the Close control of the dialog is looked up but
    never clicked, and nothing is typed. *)
Theorem X19_select_store_clicks_only_the_store (w : State Page) :
  exists p' added,
    store w = ((p', snd w ++ added), Ok tt)
    /\ Forall store_step added
    /\ List.length (filter is_click added) <= 1.
Proof. apply select_store_trace. Qed.

End Store.

(** **** [set_report_filters] *)

Section Filters.

Variable Page : Type.
Variable count : Locator -> Page -> Res nat.
Variable is_visible : Locator -> Page -> Res bool.
Variable goto : string -> Page -> Page * bool.
Variable scroll click : Locator -> Page -> Page * bool.
Variable press type : Handle -> string -> Page -> Page * bool.
Variable wait : Page -> Page * bool.
Variable wait_for_timeout : nat -> Page -> Page * bool.
Variable enter : Page -> Page * bool.
Variable sleep : nat -> Page -> Page.
Variable start_date_candidates end_date_candidates
         start_time_candidates finish_time_candidates
  : list (option Locator).

Local Abbreviation store :=
  (select_store Page count is_visible click wait wait_for_timeout sleep).
Local Abbreviation filters :=
  (set_report_filters Page count is_visible goto scroll click press type
                      wait wait_for_timeout enter sleep
                      start_date_candidates end_date_candidates
                      start_time_candidates finish_time_candidates).
Local Abbreviation safe := (never_raises Page).

Lemma safe_andthen {A B : Type} (m : F Page A) (k : A -> F Page B) :
  safe m -> (forall a, safe (k a)) -> safe (andthen Page m k).
Proof.
  intros Hm Hk [p t]. unfold andthen.
  destruct (Hm (p, t)) as (p1 & d1 & a & E1). rewrite E1.
  destruct (Hk a (p1, snd (p, t) ++ d1)) as (p2 & d2 & b & E2). rewrite E2.
  exists p2, (d1 ++ d2), b. cbn [snd]. now rewrite app_assoc.
Qed.

Lemma safe_say (m : Msg) : safe (say Page m).
Proof. intros [p t]. now exists p, [SLog m], tt. Qed.

Lemma safe_pure {A : Type} (a : A) : safe (pure Page a).
Proof. intros [p t]. exists p, [], a. unfold pure. now rewrite app_nil_r. Qed.

Lemma safe_resolve (cands : list (option Locator)) :
  safe (resolve Page count is_visible cands).
Proof.
  intros [p t]. unfold resolve, ask. cbn [fst].
  destruct (ResolverFacts.first_visible_never_raises Page count is_visible
              cands p) as [r Hr].
  rewrite Hr. exists p, [], r. cbn [snd]. now rewrite app_nil_r.
Qed.

Lemma safe_store : safe store.
Proof.
  intro w.
  destruct (select_store_trace Page count is_visible click wait
              wait_for_timeout sleep w) as (p' & added & E & _).
  now exists p', added, tt.
Qed.

Lemma safe_clear_and_type (h : Handle) (text : string) :
  safe (clear_and_type Page click press type h text).
Proof.
  intros [p t]. unfold clear_and_type. frun.
  destruct (click (handle_loc h) p) as [p1 [|]]; cbn.
  - destruct (press h "Control+A" p1) as [p2 [|]]; cbn.
    + destruct (type h text p2) as [p3 [|]]; cbn.
      * destruct (press h "Enter" p3) as [p4 [|]]; cbn;
          eexists _, _, _; rewrite <- ?app_assoc; cbn [app]; reflexivity.
      * eexists _, _, _; rewrite <- ?app_assoc; cbn [app]; reflexivity.
    + eexists _, _, _; rewrite <- ?app_assoc; cbn [app]; reflexivity.
  - eexists _, _, _; rewrite <- ?app_assoc; cbn [app]; reflexivity.
Qed.

Lemma safe_type_if_found (field : option Handle) (text : string) :
  safe (type_if_found Page click press type field text).
Proof.
  destruct field as [h|]; cbn [type_if_found]; [|apply safe_pure].
  apply safe_andthen; [apply safe_clear_and_type | intro; apply safe_pure].
Qed.

Lemma apply_step_never_raises (w : World Page) :
  exists w', apply_step Page count scroll click wait enter sleep w
             = (w', Ok tt).
Proof.
  unfold apply_step, bind.
  destruct w as [p t].
  destruct (ApplyFacts.loop_never_raises Page count scroll click wait sleep
              apply_candidates (p, t ++ [EvLog ClickingApply]))
    as (w1 & b & E).
  rewrite ApplyFacts.click_apply_eq, E.
  destruct b; unfold try_except, bind, act, time_sleep, log, ret; cbn.
  - eexists. reflexivity.
  - destruct (enter (fst w1)) as [pa [|]]; cbn; [|eexists; reflexivity].
    destruct (wait pa) as [pb [|]]; cbn; eexists; reflexivity.
Qed.

Lemma safe_apply_phase :
  safe (apply_phase Page count scroll click wait enter sleep).
Proof.
  intros [p t]. unfold apply_phase. cbn [fst snd].
  destruct (apply_step_never_raises (p, [])) as ([p' events] & E).
  rewrite E. now exists p', (map SApply events), tt.
Qed.

(** X20.  [set_report_filters] raises exactly when the report page
    cannot be opened.  Once the page is open it always returns: a store
    dialog that misbehaves, a field that is not found, a field that cannot
    be typed into and an Apply step that finds nothing are all passed
    over. *)
Theorem X20_filters_raise_only_on_navigation (ds : string) (p : Page)
        (t : list Step) :
  (forall p1,
     goto REPORT_URL p = (p1, true) ->
     exists p' added,
       filters ds (p, t)
       = ((p', t ++ [SLog OpeningReport; SGoto REPORT_URL] ++ added), Ok tt))
  /\ (forall p1,
        goto REPORT_URL p = (p1, false) ->
        filters ds (p, t)
        = ((p1, t ++ [SLog OpeningReport; SGoto REPORT_URL]), Raise)).
Proof.
  split; intros p1 Hg; unfold set_report_filters;
    unfold andthen at 1; unfold say at 1; cbn [fst snd];
    unfold andthen at 1; unfold step at 1; cbn [fst snd]; rewrite Hg.
  - match goal with
    | |- exists _ _, ?k ?w = _ =>
        assert (Hs : safe k)
    end.
    { repeat (apply safe_andthen; [|intro]);
        first [ apply safe_store | apply safe_resolve | apply safe_say
              | apply safe_type_if_found | apply safe_apply_phase ]. }
    destruct (Hs (p1, (t ++ [SLog OpeningReport]) ++ [SGoto REPORT_URL]))
      as (p' & added & [] & E).
    exists p', added. rewrite E. cbn [snd].
    now rewrite <- !app_assoc.
  - now rewrite <- !app_assoc.
Qed.

End Filters.

End FlowFacts.

Module FlowWitnesses.

Import Resolver Flow Pages FlowFacts.

(** X18 on the two sample portals, without credentials: nothing happens
    on the empty page, and the login form makes the run stop. *)
Lemma X18_witness :
  ensure_logged_in unit empty_count empty_is_visible done_goto
    done_on_locator done_on_handle done_on_handle done_wait done_sleep
    user_field pass_field login_button None None (tt, [])
  = ((tt, [] ++ [SLog OpeningPortal; SGoto BASE_URL; SLog NoLoginForm]),
     Ok tt)
  /\ ensure_logged_in unit form_count form_is_visible done_goto
       done_on_locator done_on_handle done_on_handle done_wait done_sleep
       user_field pass_field login_button (Some "clerk") (Some "") (tt, [])
     = ((tt, [] ++ [SLog OpeningPortal; SGoto BASE_URL]), Raise).
Proof.
  split.
  - apply (proj1 (X18_credentials_needed_only_for_login_form unit
             empty_count empty_is_visible done_goto done_on_locator
             done_on_handle done_on_handle done_wait done_sleep
             user_field pass_field login_button None None tt tt []));
      [reflexivity | left; reflexivity].
  - apply (proj1 (proj2 (X18_credentials_needed_only_for_login_form unit
             form_count form_is_visible done_goto done_on_locator
             done_on_handle done_on_handle done_wait done_sleep
             user_field pass_field login_button (Some "clerk") (Some "")
             tt tt [])));
      [reflexivity | | reflexivity].
    eexists _, _, _. repeat split; reflexivity.
Defined.

(** X20 on the empty page: the filters step returns. *)
Lemma X20_witness :
  exists p' added,
    set_report_filters unit empty_count empty_is_visible done_goto
      done_on_locator done_on_locator done_on_handle done_on_handle
      done_wait done_timeout done_wait done_sleep
      date_field date_field date_field date_field "11/03/2026" (tt, [])
    = ((p', [] ++ [SLog OpeningReport; SGoto REPORT_URL] ++ added), Ok tt).
Proof.
  apply (proj1 (X20_filters_raise_only_on_navigation unit empty_count
           empty_is_visible done_goto done_on_locator done_on_locator
           done_on_handle done_on_handle done_wait done_timeout done_wait
           done_sleep date_field date_field date_field date_field
           "11/03/2026" tt []) tt).
  reflexivity.
Defined.

End FlowWitnesses.

Module HeaderShift.

Import PyStr Transform Samples Text Exports.

Local Open Scope nat_scope.

Lemma header_row_idx_first (raw : RawTable) (h : nat) :
  h < 40 -> h < List.length raw -> is_header raw h ->
  (forall j, j < h -> ~ is_header raw j) ->
  header_row_idx raw = h.
Proof.
  unfold is_header, header_row_idx. intros H40 Hl Hc Hm.
  rewrite length_map.
  assert (Hs : scan_header (seq 0 (Nat.min 40 (List.length raw)))
                 (map (map strip_cell) raw) = Some h).
  { apply HeaderFacts.scan_header_some.
    repeat split; [lia | lia | exact Hc |].
    intros j Hj. apply Hm. lia. }
  now rewrite Hs.
Qed.

Lemma header_row_idx_none (raw : RawTable) :
  (forall j, j < 40 -> j < List.length raw -> ~ is_header raw j) ->
  header_row_idx raw = 0.
Proof.
  unfold is_header, header_row_idx. intro Hn. rewrite length_map.
  assert (Hs : scan_header (seq 0 (Nat.min 40 (List.length raw)))
                 (map (map strip_cell) raw) = None).
  { apply HeaderFacts.scan_header_none. intros j Hj. apply Hn; lia. }
  now rewrite Hs.
Qed.

Lemma load_shift (raw : RawTable) (row : list Cell) (h : nat) :
  header_row_idx raw = h -> header_row_idx (row :: raw) = S h ->
  load (row :: raw) = load raw.
Proof.
  intros H1 H2. unfold load, read_excel. rewrite H1, H2. reflexivity.
Qed.

Section Build.

Variable beyond : Cell -> Res Z.

Local Abbreviation clean_and_reduce := (Transform.clean_and_reduce beyond).

(** X21.  Title rows above the header do not matter as long as the
    header stays within the first 40 rows: putting one more row that does
    not carry the six labels on top of a table whose header is found in
    row [h < 39] moves the header to row [h + 1] and leaves the sheet and
    the summary unchanged. *)
Theorem X21_rows_above_the_header_are_ignored
        (report_date created : string) (raw : RawTable) (row : list Cell)
        (h : nat) :
  h < 39 -> h < List.length raw -> is_header raw h ->
  (forall j, j < h -> ~ is_header raw j) ->
  covers_required (row_vals (map strip_cell row)) = false ->
  header_row_idx (row :: raw) = S h
  /\ clean_and_reduce report_date created (row :: raw)
     = clean_and_reduce report_date created raw.
Proof.
  intros H39 Hl Hc Hm Hrow.
  assert (H1 : header_row_idx raw = h)
    by (apply header_row_idx_first; [lia | assumption..]).
  assert (H2 : header_row_idx (row :: raw) = S h).
  { apply header_row_idx_first.
    - lia.
    - cbn [List.length]. lia.
    - exact Hc.
    - intros [|j] Hj.
      + unfold is_header. cbn [map nth]. now rewrite Hrow.
      + apply (Hm j). lia. }
  split; [exact H2|].
  unfold Transform.clean_and_reduce. now rewrite (load_shift raw row h H1 H2).
Qed.

End Build.

(** X21 on the sample export with a further title row. *)
Lemma X21_witness :
  header_row_idx scenario_a_titled = 4
  /\ clean_and_reduce exact_build "11/03/26" "11/04/2026 07:45 AM"
                      scenario_a_titled
     = clean_and_reduce exact_build "11/03/26" "11/04/2026 07:45 AM"
                        scenario_a.
Proof.
  apply (X21_rows_above_the_header_are_ignored exact_build
           "11/03/26" "11/04/2026 07:45 AM" scenario_a
           [CStr "Daily export"; CNaN; CNaN; CNaN; CNaN; CNaN] 3).
  - lia.
  - cbn. lia.
  - reflexivity.
  - intros j Hj.
    destruct j as [|[|[|j]]]; [| | |lia]; vm_compute; discriminate.
  - reflexivity.
Defined.

Lemma covers_needs_label (vals : list string) (label : string) :
  In label REQUIRED -> covers_required vals = true ->
  exists v, In v vals /\ lower v = lower label.
Proof.
  intros Hl Hc.
  destruct (proj1 (HeaderFacts.covers_required_spec vals) Hc label Hl)
    as (v & Hv & He).
  now exists v.
Qed.

(** X22.  Every required label is needed for a row to count as the
    header, Group included although the Group column is not kept: when no
    cell of the first 40 rows reads as one of the six labels, header
    detection falls back to row 0, whatever the rows hold otherwise. *)
Theorem X22_every_required_label_is_needed (raw : RawTable) (label : string) :
  In label REQUIRED ->
  (forall row c,
     In row (firstn 40 raw) -> In c row -> cell_key c <> lower label) ->
  header_row_idx raw = 0.
Proof.
  intros Hl Hno. apply header_row_idx_none.
  intros j H40 Hj Hh. unfold is_header in Hh.
  rewrite HeaderMore.nth_stripped in Hh.
  destruct (covers_needs_label _ label Hl Hh) as (v & Hv & He).
  unfold row_vals in Hv. rewrite map_map in Hv.
  apply in_map_iff in Hv. destruct Hv as (c & <- & Hc).
  apply (Hno (nth j raw []) c); [|exact Hc | exact He].
  assert (E : nth j raw [] = nth j (firstn 40 raw) []).
  { rewrite nth_firstn. apply Nat.ltb_lt in H40. now rewrite H40. }
  rewrite E. apply nth_In. rewrite length_firstn. lia.
Qed.

(** X22 on the export without a Group column: its header stands in the
    second row and row 0 is taken. *)
Lemma X22_witness : header_row_idx no_group_column = 0.
Proof.
  apply (X22_every_required_label_is_needed no_group_column "Group").
  - cbn. tauto.
  - intros row c Hrow Hc.
    cbn in Hrow.
    repeat (destruct Hrow as [<-|Hrow];
            [repeat (destruct Hc as [<-|Hc]; [vm_compute; discriminate|]);
             destruct Hc|]).
    destruct Hrow.
Defined.

(** The export without a Group column ends as the header-only sheet. *)
Example no_group_column_sheet :
  clean_and_reduce exact_build "11/03/26" "11/04/2026 07:45 AM"
                   no_group_column
  = Ok (header_only, (0, 0)).
Proof. vm_compute. reflexivity. Qed.

End HeaderShift.

Module ResolverMore.

Import Resolver.

Section Browser.

Variable Page : Type.
Variable count : Locator -> Page -> Res nat.
Variable is_visible : Locator -> Page -> Res bool.

Local Abbreviation first_visible := (_first_visible Page count is_visible).
Local Abbreviation succeeds := (candidate_succeeds Page count is_visible).

Lemma first_visible_app (l1 l2 : list (option Locator)) (p : Page) :
  first_visible (l1 ++ l2) p
  = match first_visible l1 p with
    | Ok (Some h) => Ok (Some h)
    | _ => first_visible l2 p
    end.
Proof.
  induction l1 as [|c l1 IH]; [reflexivity|].
  cbn [app _first_visible].
  destruct (visible_test Page count is_visible c p) as [[|]|];
    try exact IH.
  destruct c as [l|]; [reflexivity | exact IH].
Qed.

(** X23.  Candidate lists compose: resolving over two lists laid end to
    end is resolving over the first and, only if that finds nothing,
    over the second.  A candidate that does not succeed (a missing
    locator, no match, a hidden first match, or an exception) can be
    taken out of the list anywhere without changing the result. *)
Theorem X23_candidate_lists_compose (l1 l2 : list (option Locator))
        (p : Page) :
  first_visible (l1 ++ l2) p
  = match first_visible l1 p with
    | Ok (Some h) => Ok (Some h)
    | _ => first_visible l2 p
    end
  /\ (forall c,
        ~ succeeds c p ->
        first_visible (l1 ++ c :: l2) p = first_visible (l1 ++ l2) p).
Proof.
  split; [apply first_visible_app|].
  intros c Hc. rewrite !first_visible_app.
  now rewrite (ResolverFacts.first_visible_skip Page count is_visible c l2 p Hc).
Qed.

End Browser.

(** X23 on the page that is still rendering: the hidden button can be
    left out of the Apply candidates. *)
Lemma X23_witness :
  _first_visible nat Samples.slow_count Samples.slow_is_visible
    ([Some (GetByRole "button" "^\s*Apply\s*$")]
       ++ Some Samples.apply_button :: [Some Samples.apply_text]) 0
  = _first_visible nat Samples.slow_count Samples.slow_is_visible
      ([Some (GetByRole "button" "^\s*Apply\s*$")]
         ++ [Some Samples.apply_text]) 0.
Proof.
  apply (proj2 (X23_candidate_lists_compose nat Samples.slow_count
                  Samples.slow_is_visible
                  [Some (GetByRole "button" "^\s*Apply\s*$")]
                  [Some Samples.apply_text] 0)).
  intros [_ H]. discriminate H.
Defined.

End ResolverMore.

Module ApplyMore.

Import Resolver.

Section Browser.

Variable Page : Type.
Variable count : Locator -> Page -> Res nat.
Variable scroll click : Locator -> Page -> Page * bool.
Variable wait enter : Page -> Page * bool.
Variable sleep : nat -> Page -> Page.

Local Abbreviation loop := (apply_loop Page count scroll click wait sleep).

Ltac run := unfold apply_attempt, try_except, bind, query, act, log,
              time_sleep, ret; cbn [fst snd].

Ltac leaf :=
  rewrite <- ?app_assoc; cbn [app]; reflexivity.

(** What the loop over the candidates adds to the trace. *)
Lemma loop_trace (cands : list Locator) (w : World Page) :
  exists p' added b,
    loop cands w = ((p', snd w ++ added), Ok b)
    /\ List.length (clicks added) <= List.length cands
    /\ (b = true <-> In (EvLog Applied) added)
    /\ ~ In EvPressEnter added.
Proof.
  revert w. induction cands as [|l rest IH]; intros [p t].
  - cbn [apply_loop]. run.
    exists p, [EvLog NoApplyButton], false.
    split; [reflexivity|]. split; [cbn; lia|]. split.
    + split; [discriminate|]. intros [H|[]]. discriminate H.
    + intros [H|[]]. discriminate H.
  - cbn [apply_loop]. run.
    assert (Hcont : forall p0 d0,
              ~ In (EvLog Applied) d0 -> ~ In EvPressEnter d0 ->
              List.length (clicks d0) <= 1 ->
              exists p' added b,
                loop rest (p0, t ++ d0) = ((p', t ++ added), Ok b)
                /\ List.length (clicks added) <= S (List.length rest)
                /\ (b = true <-> In (EvLog Applied) added)
                /\ ~ In EvPressEnter added).
    { intros p0 d0 Ha He Hc.
      destruct (IH (p0, t ++ d0)) as (p' & d1 & b & E & Hl & Hb & Hn).
      exists p', (d0 ++ d1), b. cbn [snd] in E. rewrite E.
      split; [now rewrite app_assoc|]. split; [|split].
      - unfold clicks in *. rewrite flat_map_app, length_app. lia.
      - rewrite Hb, in_app_iff. tauto.
      - rewrite in_app_iff. tauto. }
    destruct (count l p) as [[|n]|]; cbn [fst snd].
    + destruct (Hcont p []) as (p' & d & b & E & H); cbn; auto.
      rewrite app_nil_r in E. now exists p', d, b.
    + destruct (scroll l p) as [p1 [|]]; cbn [fst snd].
      * destruct (click l p1) as [p2 [|]]; cbn [fst snd].
        -- destruct (wait p2) as [p3 [|]]; cbn [fst snd].
           ++ exists (sleep 1500 p3),
                [EvScroll l; EvClick l; EvWaitIdle; EvSleep 1500;
                 EvLog Applied], true.
              split; [leaf|]. split; [cbn; lia|]. split.
              ** split; [intros _; cbn; tauto | reflexivity].
              ** cbn. intuition discriminate.
           ++ destruct (Hcont p3 [EvScroll l; EvClick l; EvWaitIdle])
                as (p' & d & b & E & H);
                [cbn; intuition discriminate | cbn; intuition discriminate
                 | cbn; lia |].
              rewrite <- !app_assoc in *. cbn [app] in *.
              now exists p', d, b.
        -- destruct (Hcont p2 [EvScroll l; EvClick l])
             as (p' & d & b & E & H);
             [cbn; intuition discriminate | cbn; intuition discriminate
              | cbn; lia |].
           rewrite <- !app_assoc in *. cbn [app] in *.
           now exists p', d, b.
      * destruct (Hcont p1 [EvScroll l]) as (p' & d & b & E & H);
          [cbn; intuition discriminate | cbn; intuition discriminate
           | cbn; lia |].
        now exists p', d, b.
    + destruct (Hcont p []) as (p' & d & b & E & H); cbn; auto.
      rewrite app_nil_r in E. now exists p', d, b.
Qed.

(** X24.  The Apply step always returns, and what it did can be read off
    its trace: it clicked at most six times, once per candidate and never
    the same candidate again; it pressed Enter only when no candidate led
    to the log line "Applied."; and it did one of the two, reporting an
    applied filter or pressing Enter.  A click may still have landed
    before Enter is pressed, when the wait after it raised. *)
Theorem X24_apply_step_trace (p : Page) :
  exists p' added,
    apply_step Page count scroll click wait enter sleep (p, [])
    = ((p', added), Ok tt)
    /\ List.length (clicks added) <= 6
    /\ (In EvPressEnter added -> ~ In (EvLog Applied) added)
    /\ (In (EvLog Applied) added \/ In EvPressEnter added).
Proof.
  unfold apply_step, bind. rewrite ApplyFacts.click_apply_eq.
  destruct (loop_trace apply_candidates (p, [] ++ [EvLog ClickingApply]))
    as (p1 & d & b & E & Hl & Hb & Hn).
  rewrite E. cbn [snd app]. cbn [apply_candidates List.length] in Hl.
  assert (Hclicks : forall post,
            clicks post = [] ->
            List.length (clicks (EvLog ClickingApply :: d ++ post)) <= 6).
  { intros post H1. unfold clicks in *. cbn [flat_map app].
    rewrite flat_map_app, length_app, H1. cbn [List.length]. lia. }
  destruct b.
  - exists p1, (EvLog ClickingApply :: d ++ [EvLog FiltersApplied]).
    unfold ret, log. cbn [fst snd app].
    split; [cbn [app]; rewrite <- ?app_assoc; reflexivity|].
    split; [now apply Hclicks|].
    assert (Ha : In (EvLog Applied) d) by now apply Hb.
    split.
    + cbn [In]. rewrite in_app_iff. cbn [In].
      intros [H|[H|[H|[]]]]; try discriminate H. contradiction.
    + left. right. apply in_or_app. now left.
  - assert (Ha : ~ In (EvLog Applied) d).
    { intro H. apply Hb in H. discriminate H. }
    unfold try_except, bind, act, time_sleep, log, ret. cbn [fst snd].
    destruct (enter p1) as [pa [|]]; cbn [fst snd].
    + destruct (wait pa) as [pb [|]]; cbn [fst snd].
      * exists (sleep 1000 pb),
          (EvLog ClickingApply
             :: d ++ [EvPressEnter; EvWaitIdle; EvSleep 1000;
                      EvLog AppliedViaEnter] ++ [EvLog FiltersApplied]).
        split; [cbn [app]; rewrite <- ?app_assoc; reflexivity|].
        split; [now apply Hclicks|]. split.
        -- intros _. cbn [In app]. rewrite in_app_iff. cbn [In].
           intuition discriminate.
        -- right. right. apply in_or_app. right. now left.
      * exists pb,
          (EvLog ClickingApply
             :: d ++ [EvPressEnter; EvWaitIdle] ++ [EvLog FiltersApplied]).
        split; [cbn [app]; rewrite <- ?app_assoc; reflexivity|].
        split; [now apply Hclicks|]. split.
        -- intros _. cbn [In app]. rewrite in_app_iff. cbn [In].
           intuition discriminate.
        -- right. right. apply in_or_app. right. now left.
    + exists pa,
        (EvLog ClickingApply
           :: d ++ [EvPressEnter] ++ [EvLog FiltersApplied]).
      split; [cbn [app]; rewrite <- ?app_assoc; reflexivity|].
      split; [now apply Hclicks|]. split.
      * intros _. cbn [In app]. rewrite in_app_iff. cbn [In].
        intuition discriminate.
      * right. right. apply in_or_app. right. now left.
Qed.

End Browser.

End ApplyMore.
